(** * changelist: release-note extraction, classification and rendering

    A shallow embedding of [src/changelist/_format.py]: the [ChangeNote]
    extractor, the section classifier [_notes_by_section] and the line-wise
    renderer of [MdFormatter] and [RstFormatter].

    Conventions of the embedding.
    - A Python [str] is a [string] whose characters are the code points
      0..255; [strip], [replace], [rstrip], [lower] and [split] follow the
      behaviour of CPython on that range.
    - An [int] and a [datetime] are integers [Z] (a timestamp is only ever
      compared).
    - A [set] is the list of its elements in order of first insertion; the
      order in which Python iterates it is given by the runtime ([set_iter]),
      about which only "some permutation" is known.
    - Logging, [yield] and exceptions are threaded through the monad [Py]. *)

From Stdlib Require Import String Ascii List ZArith Lia Bool Arith.
From Stdlib Require Import Permutation Sorted DecimalString.
Import ListNotations.
Open Scope string_scope.

(** ** Python strings *)

Module PyStr.

Definition LF : ascii := ascii_of_nat 10.
Definition CR : ascii := ascii_of_nat 13.
Definition nl : string := String LF "".
Definition crlf : string := String CR (String LF "").

(** [str.isspace] on one character: TAB..CR, FS..US, SPACE, NEL, NBSP. *)
Definition between (lo hi n : nat) : bool := Nat.leb lo n && Nat.leb n hi.

Definition isspace (c : ascii) : bool :=
  let n := nat_of_ascii c in
  between 9 13 n || between 28 32 n || Nat.eqb n 133 || Nat.eqb n 160.

Fixpoint lstrip_by (p : ascii -> bool) (s : string) : string :=
  match s with
  | "" => ""
  | String c r => if p c then lstrip_by p r else s
  end.

Fixpoint rstrip_by (p : ascii -> bool) (s : string) : string :=
  match s with
  | "" => ""
  | String c r =>
      match rstrip_by p r with
      | "" => if p c then "" else String c ""
      | r' => String c r'
      end
  end.

(** [s.strip()] *)
Definition strip (s : string) : string :=
  rstrip_by isspace (lstrip_by isspace s).

Fixpoint mem (c : ascii) (chars : string) : bool :=
  match chars with
  | "" => false
  | String d r => Ascii.eqb c d || mem c r
  end.

(** [s.rstrip(chars)] *)
Definition rstrip (chars s : string) : string :=
  rstrip_by (fun c => mem c chars) s.

(** [s.replace(old, new)] for a non-empty [old]: occurrences are found
    left to right and do not overlap.  [skip] counts the characters of an
    occurrence that are still to be dropped. *)
Fixpoint replace_from (old new : string) (skip : nat) (s : string) : string :=
  match s with
  | "" => ""
  | String c r =>
      match skip with
      | S k => replace_from old new k r
      | O =>
          if prefix old s
          then new ++ replace_from old new (String.length old - 1) r
          else String c (replace_from old new 0 r)
      end
  end.

Definition replace (old new s : string) : string :=
  replace_from old new 0 s.

(** [s.split(sep)] for a non-empty [sep]; [cur] is the field read so far. *)
Fixpoint split_from (sep : string) (skip : nat) (cur s : string)
  : list string :=
  match s with
  | "" => [cur]
  | String c r =>
      match skip with
      | S k => split_from sep k cur r
      | O =>
          if prefix sep s
          then cur :: split_from sep (String.length sep - 1) "" r
          else split_from sep 0 (cur ++ String c "") r
      end
  end.

Definition split (sep s : string) : list string :=
  split_from sep 0 "" s.

(** [c.lower()]: A-Z, and the upper-case letters of Latin-1 (all of
    0xC0..0xDE but the multiplication sign 0xD7). *)
Definition lower_char (c : ascii) : ascii :=
  let n := nat_of_ascii c in
  if between 65 90 n || (between 192 222 n && negb (Nat.eqb n 215))
  then ascii_of_nat (n + 32) else c.

Fixpoint lower (s : string) : string :=
  match s with
  | "" => ""
  | String c r => String (lower_char c) (lower r)
  end.

(** [s * n] *)
Fixpoint repeat (s : string) (n : nat) : string :=
  match n with
  | O => ""
  | S k => s ++ repeat s k
  end.

(** ["".join(parts)] *)
Definition join (parts : list string) : string :=
  fold_right append "" parts.

(** [str(n)] for an [int] *)
Definition of_int (z : Z) : string := NilZero.string_of_int (Z.to_int z).

(** [str(len(x))] *)
Definition of_len (n : nat) : string := of_int (Z.of_nat n).

(** All characters of [s] satisfy [p]. *)
Fixpoint forallb (p : ascii -> bool) (s : string) : bool :=
  match s with
  | "" => true
  | String c r => p c && forallb p r
  end.

Definition first (s : string) : option ascii :=
  match s with "" => None | String c _ => Some c end.

Fixpoint last (s : string) : option ascii :=
  match s with
  | "" => None
  | String c "" => Some c
  | String _ r => last r
  end.

(** The characters at which [str.splitlines] ends a line (code points
    0..255): LF, VT, FF, CR, FS, GS, RS and NEL. *)
Definition is_linebreak (c : ascii) : bool :=
  let n := nat_of_ascii c in
  between 10 13 n || between 28 30 n || Nat.eqb n 133.

End PyStr.

(** ** Effects: logging, yielded lines and exceptions *)

Inductive exn : Type :=
| AttributeError (msg : string)
| KeyError (key : string)
| re_error (pattern : string)
| FormatError (template : string).

Inductive result (A : Type) : Type :=
| Ok (a : A)
| Raise (e : exn).
Arguments Ok {A} a.
Arguments Raise {A} e.

Inductive log_level : Type := DEBUG | WARNING.

(** A call [logger.<level>(fmt, arg)]. *)
Record log_record : Type := mk_log
  { log_lvl : log_level; log_fmt : string; log_arg : string }.

(** What running a piece of code produces: its value or the exception it
    raised, the lines it yielded up to there, and the log it leaves. *)
Record outcome (A : Type) : Type := mk_outcome
  { res : result A; out : list string; logs : list log_record }.
Arguments mk_outcome {A}.
Arguments res {A}.
Arguments out {A}.
Arguments logs {A}.

(** A computation started with the log handler in state [st]. *)
Definition Py (A : Type) : Type := list log_record -> outcome A.

Definition ret {A} (a : A) : Py A :=
  fun st => mk_outcome (Ok a) [] st.

Definition bind {A B} (m : Py A) (f : A -> Py B) : Py B :=
  fun st =>
    let r := m st in
    match res r with
    | Ok a =>
        let r' := f a (logs r) in
        mk_outcome (res r') (out r ++ out r') (logs r')
    | Raise e => mk_outcome (Raise e) (out r) (logs r)
    end.

Definition yield (line : string) : Py unit :=
  fun st => mk_outcome (Ok tt) [line] st.

Definition raise {A} (e : exn) : Py A :=
  fun st => mk_outcome (Raise e) [] st.

Definition logger (lvl : log_level) (fmt arg : string) : Py unit :=
  fun st => mk_outcome (Ok tt) [] (st ++ [mk_log lvl fmt arg]).

Definition lift {A} (r : result A) : Py A :=
  match r with
  | Ok a => ret a
  | Raise e => raise e
  end.

Declare Scope py_scope.
Delimit Scope py_scope with py.
Notation "x <- m ;; k" := (bind m (fun x => k))
  (at level 100, m at next level, right associativity) : py_scope.
Notation "m ;; k" := (bind m (fun _ => k))
  (at level 100, right associativity) : py_scope.
Open Scope py_scope.

(** [for x in xs: body x] *)
Fixpoint for_each {A} (xs : list A) (body : A -> Py unit) : Py unit :=
  match xs with
  | [] => ret tt
  | x :: r => body x ;; for_each r body
  end.

(** [for x in xs: acc = body acc x], the loop carrying the object it
    updates. *)
Fixpoint for_fold {A S} (xs : list A) (body : S -> A -> Py S) (acc : S)
  : Py S :=
  match xs with
  | [] => ret acc
  | x :: r => acc' <- body acc x ;; for_fold r body acc'
  end.

(** [yield from lines] *)
Definition yield_from (lines : list string) : Py unit :=
  for_each lines yield.

(** [[f(x) for x in xs]] where [f] may raise. *)
Fixpoint map_result {A B} (f : A -> result B) (xs : list A)
  : result (list B) :=
  match xs with
  | [] => Ok []
  | x :: r =>
      match f x with
      | Raise e => Raise e
      | Ok b =>
          match map_result f r with
          | Raise e => Raise e
          | Ok bs => Ok (b :: bs)
          end
      end
  end.

(** ** The [re] module, as far as the program uses it *)

(** A match object of the summary pattern, or the dictionary the extractor
    builds in its place: [m["summary"]] and [m["label"]], each [None] when
    the group took no part in the match. *)
Record Match : Type := mk_match
  { summary : option string; label : option string }.

(** A compiled pattern is known by its two methods. *)
Record Pattern : Type := mk_pattern
  { finditer : string -> list Match;
    (** [match]: a match anchored at position 0, or [None] *)
    match_ : string -> option Match }.

Inductive RegexFlag : Type := IGNORECASE.

(** ** The runtime the program relies on *)

Class Runtime : Type := mk_runtime
  { (** iteration order of a set, from its insertion history *)
    set_iter : forall A : Type, list A -> list A;
    set_iter_perm : forall A (s : list A), Permutation s (set_iter A s);
    (** [re.compile(pattern, flags=...)], which raises on a bad pattern *)
    re_compile : string -> list RegexFlag -> result Pattern;
    (** [template.format(repo_name=..., version=...)] *)
    str_format : string -> string -> string -> result string }.
Arguments set_iter {_} {A} s.

(** ** Data model *)

Module PullRequest.
Record t : Type := mk
  { body : option string;
    title : string;
    number : Z;
    html_url : string;
    (** the names of [pr.labels], in order *)
    labels : list string;
    merged_at : Z }.
End PullRequest.

Module NamedUser.
Record t : Type := mk
  { login : string;
    name : option string;
    html_url : string }.
End NamedUser.

Module ChangeNote.

Record t : Type := mk
  { content : string;
    reference_name : string;
    reference_url : string;
    labels : list string;
    timestamp : Z }.

(** The value equality of the frozen dataclass. *)
Definition eq_dec (a b : t) : {a = b} + {a <> b}.
Proof.
  decide equality;
    first [ apply string_dec | apply Z.eq_dec
          | apply list_eq_dec, string_dec ].
Defined.

(** [notes.add(n)] *)
Definition set_add (n : t) (notes : list t) : list t :=
  if in_dec eq_dec n notes then notes else notes ++ [n].

(** The matches the extractor works on for one pull request: those of
    the pattern in the body, or the title when the body is missing, empty
    or has none. *)
Definition matches_of (pr_summary_regex : Pattern) (pr : PullRequest.t)
  : Py (list Match) :=
  let fallback :=
    logger DEBUG "falling back to title for %s" (PullRequest.html_url pr) ;;
    ret [mk_match (Some (PullRequest.title pr)) None] in
  match PullRequest.body pr with
  | None | Some "" => fallback
  | Some b =>
      match finditer pr_summary_regex b with
      | [] => fallback
      | ms => ret ms
      end
  end.

(** The note built from one match (the body of the inner loop). *)
Definition of_match (pr : PullRequest.t) (m : Match) : result t :=
  match summary m with
  | None => Raise (AttributeError "'NoneType' object has no attribute 'strip'")
  | Some s =>
      let labels :=
        match label m with
        | Some l => [l]
        | None => PullRequest.labels pr
        end in
      Ok (mk (PyStr.strip s)
             ("#" ++ PyStr.of_int (PullRequest.number pr))
             (PullRequest.html_url pr)
             labels
             (PullRequest.merged_at pr))
  end.

Definition from_pull_requests `{Runtime}
  (pull_requests : list PullRequest.t) (pr_summary_regex : Pattern)
  : Py (list t) :=
  for_fold (set_iter pull_requests)
    (fun notes pr =>
       matches <- matches_of pr_summary_regex pr ;;
       for_fold matches
         (fun notes m =>
            n <- lift (of_match pr m) ;;
            ret (set_add n notes))
         notes)
    [].

End ChangeNote.

(** ** Ordered dictionaries and sorting *)

(** An [OrderedDict] with string keys: the entries in insertion order. *)
Definition odict (V : Type) : Type := list (string * V).

(** [d[k]] *)
Fixpoint od_get {V} (k : string) (d : odict V) : option V :=
  match d with
  | [] => None
  | (k', v) :: r => if String.eqb k k' then Some v else od_get k r
  end.

(** [d[k] = v]: an existing key keeps its place. *)
Fixpoint od_set {V} (k : string) (v : V) (d : odict V) : odict V :=
  match d with
  | [] => [(k, v)]
  | (k', v') :: r =>
      if String.eqb k k' then (k', v) :: r else (k', v') :: od_set k v r
  end.

Definition od_keys {V} (d : odict V) : list string := map fst d.

(** [sorted(xs, key=key)]: the sort is stable, so its result is the one of
    insertion from the right, an element going before the first one that
    is not smaller. *)
Section Sorted.
Context {A K : Type} (leb : K -> K -> bool) (key : A -> K).

Fixpoint insert_sorted (x : A) (l : list A) : list A :=
  match l with
  | [] => [x]
  | y :: r =>
      if leb (key x) (key y) then x :: y :: r else y :: insert_sorted x r
  end.

Definition sorted (l : list A) : list A :=
  fold_right insert_sorted [] l.
End Sorted.

(** ** The formatters *)

(** The methods [RstFormatter] overrides; the others are shared. *)
Record Methods : Type := mk_methods
  { _sanitize_text : string -> string;
    _format_link : string -> string -> string;
    _format_section_title : string -> Z -> Py unit }.

Module MdFormatter.

Record t : Type := mk
  { repo_name : string;
    change_notes : list ChangeNote.t;
    authors : list NamedUser.t;
    reviewers : list NamedUser.t;
    version : string;
    title_template : string;
    intro_template : string;
    outro_template : string;
    (** a [dict]: the items in insertion order, the keys distinct *)
    label_section_map : list (string * string);
    ignored_user_logins : list string }.

Definition sanitize_text (text : string) : string :=
  let text := PyStr.strip text in
  let text := PyStr.replace PyStr.crlf " " text in
  let text := PyStr.replace PyStr.nl " " text in
  text.

Definition format_link (name target : string) : string :=
  "[" ++ name ++ "](" ++ target ++ ")".

Definition format_section_title (title : string) (level : Z) : Py unit :=
  yield (PyStr.repeat "#" (Z.to_nat level) ++ " " ++ title ++ PyStr.nl).

Definition methods : Methods :=
  mk_methods sanitize_text format_link format_section_title.

Section Shared.
Context `{Runtime}.
(** the class of [self] and its fields *)
Variable cls : Methods.
Variable self : t.

(** [notes_by_section[section_name].add(note)] *)
Definition bucket_add (section_name : string) (note : ChangeNote.t)
  (notes_by_section : odict (list ChangeNote.t))
  : Py (odict (list ChangeNote.t)) :=
  match od_get section_name notes_by_section with
  | None => raise (KeyError section_name)
  | Some bucket =>
      ret (od_set section_name (ChangeNote.set_add note bucket)
             notes_by_section)
  end.

(** [any(regex.match(label) for label in note.labels)] *)
Definition any_match (regex : Pattern) (note : ChangeNote.t) : bool :=
  existsb
    (fun label =>
       match match_ regex label with Some _ => true | None => false end)
    (ChangeNote.labels note).

Definition compile_map : result (list (Pattern * string)) :=
  map_result
    (fun '(pattern, section_name) =>
       match re_compile pattern [IGNORECASE] with
       | Ok regex => Ok (regex, section_name)
       | Raise e => Raise e
       end)
    (label_section_map self).

Definition matching_sections (compiled : list (Pattern * string))
  (note : ChangeNote.t) : list string :=
  map snd (filter (fun '(regex, _) => any_match regex note) compiled).

Definition empty_sections : odict (list ChangeNote.t) :=
  od_set "Other" []
    (fold_left (fun d '(_, section_name) => od_set section_name [] d)
       (label_section_map self) []).

(** The body of the loop over the notes. *)
Definition classify_note (compiled : list (Pattern * string))
  (notes_by_section : odict (list ChangeNote.t)) (note : ChangeNote.t)
  : Py (odict (list ChangeNote.t)) :=
  let matching := matching_sections compiled note in
  notes_by_section <-
    for_fold matching
      (fun d section_name => bucket_add section_name note d)
      notes_by_section ;;
  match matching with
  | [] =>
      logger WARNING
        "%s without matching label, sorting into section 'Other'"
        (ChangeNote.reference_url note) ;;
      bucket_add "Other" note notes_by_section
  | _ => ret notes_by_section
  end.

Definition _notes_by_section : Py (odict (list ChangeNote.t)) :=
  compiled <- lift compile_map ;;
  for_fold (set_iter (change_notes self)) (classify_note compiled)
    empty_sections.

Definition _format_change_note (note : ChangeNote.t) : Py unit :=
  let link :=
    _format_link cls (ChangeNote.reference_name note)
      (ChangeNote.reference_url note) in
  let summary :=
    PyStr.rstrip "." (_sanitize_text cls (ChangeNote.content note)) in
  let summary := "- " ++ summary ++ " (" ++ link ++ ")." ++ PyStr.nl in
  yield summary.

Definition _format_change_section (title : string)
  (notes : list ChangeNote.t) : Py unit :=
  match notes with
  | [] => ret tt
  | _ =>
      _format_section_title cls title 2 ;;
      yield PyStr.nl ;;
      for_each (sorted Z.leb ChangeNote.timestamp (set_iter notes))
        _format_change_note ;;
      yield PyStr.nl
  end.

Definition _format_user_line (user : NamedUser.t) : string :=
  let line := "@" ++ NamedUser.login user in
  let line := _format_link cls line (NamedUser.html_url user) in
  let line :=
    match NamedUser.name user with
    | Some (String _ _ as name) => name ++ " (" ++ line ++ ")"
    | Some "" | None => line
    end in
  "- " ++ line ++ PyStr.nl.

(** [{u for u in users if u.login not in self.ignored_user_logins}] *)
Definition not_ignored (users : list NamedUser.t) : list NamedUser.t :=
  filter
    (fun u =>
       negb (existsb (String.eqb (NamedUser.login u))
               (ignored_user_logins self)))
    (set_iter users).

(** [sorted(map(self._format_user_line, users), key=lambda s: s.lower())] *)
Definition user_lines (users : list NamedUser.t) : list string :=
  sorted String.leb PyStr.lower (map _format_user_line (set_iter users)).

Definition _format_contributor_section
  (authors reviewers : list NamedUser.t) : Py unit :=
  let authors := not_ignored authors in
  let reviewers := not_ignored reviewers in
  _format_section_title cls "Contributors" 2 ;;
  yield PyStr.nl ;;
  yield (PyStr.of_len (length authors)
         ++ " authors added to this release (alphabetically):"
         ++ PyStr.nl) ;;
  yield PyStr.nl ;;
  yield_from (user_lines authors) ;;
  yield PyStr.nl ;;
  yield (PyStr.of_len (length reviewers)
         ++ " reviewers added to this release (alphabetically):"
         ++ PyStr.nl) ;;
  yield PyStr.nl ;;
  yield_from (user_lines reviewers) ;;
  yield PyStr.nl.

Definition format_block (template : string) : Py unit :=
  text <- lift (str_format template (repo_name self) (version self)) ;;
  yield_from (map (fun line => line ++ PyStr.nl) (PyStr.split PyStr.nl text)).

Definition _format_intro : Py unit := format_block (intro_template self).

Definition _format_outro : Py unit := format_block (outro_template self).

Definition iter_lines : Py unit :=
  title <-
    lift (str_format (title_template self) (repo_name self) (version self)) ;;
  _format_section_title cls title 1 ;;
  yield PyStr.nl ;;
  _format_intro ;;
  notes_by_section <- _notes_by_section ;;
  for_each notes_by_section
    (fun '(title, notes) => _format_change_section title notes) ;;
  _format_contributor_section (authors self) (reviewers self) ;;
  _format_outro.

(** ["".join(self.iter_lines())]: the generator is run to its end or to
    the exception it raises, and its lines are consumed. *)
Definition document : Py string :=
  fun st =>
    let r := iter_lines st in
    match res r with
    | Ok _ => mk_outcome (Ok (PyStr.join (out r))) [] (logs r)
    | Raise e => mk_outcome (Raise e) [] (logs r)
    end.

Definition __str__ : Py string := document.

Definition __iter__ : Py unit := iter_lines.

End Shared.

End MdFormatter.

Module RstFormatter.

Definition sanitize_text (text : string) : string :=
  let text := MdFormatter.sanitize_text text in
  let text := PyStr.replace "`" "``" text in
  text.

Definition format_link (name target : string) : string :=
  "`" ++ name ++ " <" ++ target ++ ">`_".

(** [underline[level]] *)
Definition underline (level : Z) : result string :=
  match level with
  | 1%Z => Ok "="
  | 2%Z => Ok "-"
  | 3%Z => Ok "~"
  | _ => Raise (KeyError (PyStr.of_int level))
  end.

Definition format_section_title (title : string) (level : Z) : Py unit :=
  yield (title ++ PyStr.nl) ;;
  u <- lift (underline level) ;;
  yield (PyStr.repeat u (String.length title) ++ PyStr.nl).

Definition methods : Methods :=
  mk_methods sanitize_text format_link format_section_title.

End RstFormatter.

(** ** Pure views of the extractor, the classifier and the generators *)

(** The match the extractor builds from the title. *)
Definition title_match (pr : PullRequest.t) : Match :=
  mk_match (Some (PullRequest.title pr)) None.

(** The matches [ChangeNote.matches_of] returns. *)
Definition the_matches (pr_summary_regex : Pattern) (pr : PullRequest.t)
  : list Match :=
  match PullRequest.body pr with
  | None | Some "" => [title_match pr]
  | Some b =>
      match finditer pr_summary_regex b with
      | [] => [title_match pr]
      | ms => ms
      end
  end.

(** From [notes] to [notes'] the set gains the notes that satisfy [P]. *)
Definition gains (P : ChangeNote.t -> Prop) (notes notes' : list ChangeNote.t)
  : Prop :=
  (NoDup notes -> NoDup notes')
  /\ forall n, In n notes' <-> In n notes \/ P n.

Section Views.
Context `{Runtime}.

(** The pattern of a section, compiled as the classifier compiles it,
    matches at the start of one of the labels of the note. *)
Definition note_matches (pattern : string) (note : ChangeNote.t) : bool :=
  match re_compile pattern [IGNORECASE] with
  | Ok regex => MdFormatter.any_match regex note
  | Raise _ => false
  end.

(** The titles of the sections whose pattern matches the note, in the
    order of the mapping. *)
Definition sections_of (self : MdFormatter.t) (note : ChangeNote.t)
  : list string :=
  map snd
    (filter (fun '(pattern, _) => note_matches pattern note)
       (MdFormatter.label_section_map self)).

(** The note belongs under the title. *)
Definition belongs (self : MdFormatter.t) (title : string)
  (note : ChangeNote.t) : Prop :=
  In title (sections_of self note)
  \/ (sections_of self note = [] /\ title = "Other").

Definition unmatched_warning (note : ChangeNote.t) : log_record :=
  mk_log WARNING "%s without matching label, sorting into section 'Other'"
    (ChangeNote.reference_url note).

(** The diagnostics of classification: one for each note without a
    matching section, in the order the notes are visited. *)
Definition warnings_of (matching : ChangeNote.t -> list string)
  (notes : list ChangeNote.t) : list log_record :=
  flat_map
    (fun note =>
       match matching note with
       | [] => [unmatched_warning note]
       | _ => []
       end)
    notes.

Definition classifier_warnings (self : MdFormatter.t) : list log_record :=
  warnings_of (sections_of self) (set_iter (MdFormatter.change_notes self)).

(** The line of a change note. *)
Definition note_line (cls : Methods) (note : ChangeNote.t) : string :=
  "- "
  ++ PyStr.rstrip "." (_sanitize_text cls (ChangeNote.content note))
  ++ " ("
  ++ _format_link cls (ChangeNote.reference_name note)
       (ChangeNote.reference_url note)
  ++ ")." ++ PyStr.nl.

(** The notes of a bucket in the order they are rendered. *)
Definition section_notes (notes : list ChangeNote.t) : list ChangeNote.t :=
  sorted Z.leb ChangeNote.timestamp (set_iter notes).

(** The lines of a change section of a Markdown document. *)
Definition md_section_lines (entry : string * list ChangeNote.t)
  : list string :=
  match snd entry with
  | [] => []
  | _ =>
      [ "## " ++ fst entry ++ PyStr.nl; PyStr.nl ]
      ++ map (note_line MdFormatter.methods) (section_notes (snd entry))
      ++ [ PyStr.nl ]
  end.

(** The lines of the contributor section of a Markdown document. *)
Definition md_contributor_lines (self : MdFormatter.t)
  (authors reviewers : list NamedUser.t) : list string :=
  let authors := MdFormatter.not_ignored self authors in
  let reviewers := MdFormatter.not_ignored self reviewers in
  [ "## Contributors" ++ PyStr.nl; PyStr.nl;
    PyStr.of_len (length authors)
    ++ " authors added to this release (alphabetically):" ++ PyStr.nl;
    PyStr.nl ]
  ++ MdFormatter.user_lines MdFormatter.methods authors
  ++ [ PyStr.nl;
       PyStr.of_len (length reviewers)
       ++ " reviewers added to this release (alphabetically):" ++ PyStr.nl;
       PyStr.nl ]
  ++ MdFormatter.user_lines MdFormatter.methods reviewers
  ++ [ PyStr.nl ].

(** The lines of a template block. *)
Definition block_lines (text : string) : list string :=
  map (fun line => line ++ PyStr.nl) (PyStr.split PyStr.nl text).

End Views.

(** One pass over a text in which every pair CR LF and every other LF
    becomes one space. *)
Fixpoint collapse_newlines (s : string) : string :=
  match s with
  | "" => ""
  | String c r =>
      if Ascii.eqb c PyStr.LF then String " " (collapse_newlines r)
      else
        match r with
        | String d r' =>
            if Ascii.eqb c PyStr.CR && Ascii.eqb d PyStr.LF
            then String " " (collapse_newlines r')
            else String c (collapse_newlines r)
        | "" => String c ""
        end
  end.

(** Sanitization in the words of the specification: the text is stripped
    and every line break in it, of whatever kind, becomes one space. *)
Fixpoint collapse_linebreaks (s : string) : string :=
  match s with
  | "" => ""
  | String c r =>
      match r with
      | String d r' =>
          if Ascii.eqb c PyStr.CR && Ascii.eqb d PyStr.LF
          then String " " (collapse_linebreaks r')
          else String (if PyStr.is_linebreak c then " "%char else c)
                 (collapse_linebreaks r)
      | "" => String (if PyStr.is_linebreak c then " "%char else c) ""
      end
  end.

Definition spec_sanitize_text (text : string) : string :=
  collapse_linebreaks (PyStr.strip text).

(** The change-note line in the words of the specification. *)
Definition spec_note_line (note : ChangeNote.t) : string :=
  "- "
  ++ PyStr.rstrip "." (spec_sanitize_text (ChangeNote.content note))
  ++ " ("
  ++ MdFormatter.format_link (ChangeNote.reference_name note)
       (ChangeNote.reference_url note)
  ++ ")." ++ PyStr.nl.

(** The keys of a dictionary filled from [l], the keys [seen] being there
    already: each key at its first occurrence. *)
Fixpoint keep_first (seen l : list string) : list string :=
  match l with
  | [] => []
  | k :: r =>
      if existsb (String.eqb k) seen then keep_first seen r
      else k :: keep_first (seen ++ [k]) r
  end.

(** The order of two lines in the contributor lists. *)
Definition lower_le (a b : string) : Prop :=
  String.leb (PyStr.lower a) (PyStr.lower b) = true.

(** The order of two notes in a section. *)
Definition older_le (a b : ChangeNote.t) : Prop :=
  (ChangeNote.timestamp a <= ChangeNote.timestamp b)%Z.

(** From [d] to [d'] the keys stay, and the bucket of a title gains the
    notes that [P] relates to it. *)
Definition grows (P : string -> ChangeNote.t -> Prop)
  (d d' : odict (list ChangeNote.t)) : Prop :=
  od_keys d' = od_keys d
  /\ forall title b,
      od_get title d = Some b ->
      exists b',
        od_get title d' = Some b'
        /\ (NoDup b -> NoDup b')
        /\ forall x, In x b' <-> In x b \/ P title x.

(** The dictionary has a bucket for every configured title and for
    ["Other"]. *)
Definition has_sections (self : MdFormatter.t)
  (d : odict (list ChangeNote.t)) : Prop :=
  forall title,
    In title (map snd (MdFormatter.label_section_map self)) \/ title = "Other" ->
    In title (od_keys d).

(** A computation that always returns [v] after yielding [lines], and
    leaves the log as it found it. *)
Definition emits {A} (m : Py A) (v : A) (lines : list string) : Prop :=
  forall st, m st = mk_outcome (Ok v) lines st.

(** ** A runtime to evaluate examples with *)

Module Sample.

(** [template.format(repo_name=..., version=...)] on templates made of
    text, [{repo_name}], [{version}], [{{] and [}}]; this runtime rejects
    the others. *)
Fixpoint format_from (repo_name version : string) (skip : nat)
  (template : string) : result string :=
  match template with
  | "" => Ok ""
  | String c r =>
      match skip with
      | S k => format_from repo_name version k r
      | O =>
          let continue (piece : string) (k : nat) :=
            match format_from repo_name version k r with
            | Ok s => Ok (piece ++ s)
            | Raise e => Raise e
            end in
          if prefix "{repo_name}" template then continue repo_name 10
          else if prefix "{version}" template then continue version 8
          else if prefix "{{" template then continue "{" 1
          else if prefix "}}" template then continue "}" 1
          else if PyStr.mem c "{}" then Raise (FormatError template)
          else continue (String c "") 0
      end
  end.

Definition is_word_char (c : ascii) : bool :=
  let n := nat_of_ascii c in
  PyStr.between 48 57 n || PyStr.between 65 90 n || PyStr.between 97 122 n
  || PyStr.mem c " -_:".

(** [re.compile] on a pattern made of letters, digits, spaces, [-], [_]
    and [:], after an optional [^]: with [IGNORECASE], [match] succeeds
    on the strings that start with the pattern up to case.  This runtime
    rejects the other patterns. *)
Definition compile (pattern : string) (flags : list RegexFlag)
  : result Pattern :=
  let text :=
    match pattern with
    | String "^" r => r
    | _ => pattern
    end in
  if PyStr.forallb is_word_char text then
    let fold := match flags with [] => fun s => s | _ => PyStr.lower end in
    Ok (mk_pattern
          (fun _ => [])
          (fun s =>
             if prefix (fold text) (fold s)
             then Some (mk_match None None) else None))
  else Raise (re_error pattern).

#[global] Instance runtime : Runtime :=
  mk_runtime (fun _ s => s) (fun _ s => Permutation_refl s)
    compile (fun template repo_name version =>
               format_from repo_name version 0 template).

(** The summary pattern of the examples.  In multi-line mode it matches a
    whole line: a [summary] group of one or more characters that are not
    braces, not all of them white space, then optionally a [label] group of
    zero or more characters that are not braces, between braces.  So a
    line [summary] or [summary{label}] is a match, and a label may be
    empty. *)
Definition no_brace (s : string) : bool :=
  PyStr.forallb (fun c => negb (PyStr.mem c "{}")) s.

Definition is_summary (s : string) : bool :=
  no_brace s && negb (String.eqb (PyStr.strip s) "").

Definition line_match (line : string) : option Match :=
  match PyStr.split "{" line with
  | [s] => if is_summary s then Some (mk_match (Some s) None) else None
  | [s; l] =>
      let inner := substring 0 (String.length l - 1) l in
      if is_summary s && String.eqb l (inner ++ "}") && no_brace inner
      then Some (mk_match (Some s) (Some inner)) else None
  | _ => None
  end.

Definition summary_regex : Pattern :=
  mk_pattern
    (fun body =>
       flat_map
         (fun line =>
            match line_match line with Some m => [m] | None => [] end)
         (PyStr.split PyStr.nl body))
    (fun _ => None).

Definition pr_empty_label : PullRequest.t :=
  PullRequest.mk (Some "fix{}") "Fix things" 7 "https://example.org/pull/7"
    ["bug"] 100.

Definition pr_two_notes : PullRequest.t :=
  PullRequest.mk (Some ("Add x{feature}" ++ PyStr.nl ++ " plain. "))
    "Two things" 8 "https://example.org/pull/8" ["misc"; "docs"] 90.

Definition note_bugfix : ChangeNote.t :=
  ChangeNote.mk "Fix the parser." "#3" "https://example.org/pull/3"
    ["Bugfix"] 30.

Definition note_feature : ChangeNote.t :=
  ChangeNote.mk "Add x" "#1" "https://example.org/pull/1"
    ["feature"; "debug"] 10.

Definition note_docs : ChangeNote.t :=
  ChangeNote.mk "Typos" "#2" "https://example.org/pull/2" ["docs"] 20.

Definition note_bug : ChangeNote.t :=
  ChangeNote.mk "Fix a crash" "#4" "https://example.org/pull/4" ["bug"] 5.

Definition bob : NamedUser.t :=
  NamedUser.mk "bob" None "https://example.org/bob".

Definition alice : NamedUser.t :=
  NamedUser.mk "Alice" (Some "Alice A.") "https://example.org/Alice".

Definition bot : NamedUser.t :=
  NamedUser.mk "bot" (Some "") "https://example.org/bot".

Definition formatter : MdFormatter.t :=
  MdFormatter.mk "changelist"
    [note_bugfix; note_feature; note_docs; note_bug]
    [bob; bot; alice] [bot]
    "1.0" "{repo_name} {version}"
    ("Changes of {version}." ++ PyStr.nl ++ "") "Thanks."
    [("^bug", "Bug Fixes"); ("BUG", "Triage"); ("feat", "Features")]
    ["bot"].

Definition pr_blank : PullRequest.t :=
  PullRequest.mk (Some ("  " ++ PyStr.nl ++ " ")) " Fix bug " 12
    "https://example.org/pull/12" ["bug"] 80.

End Sample.

(** ** Further views, for the properties beyond the claims *)

(** The exception of [summary.strip()] on a match without summary. *)
Definition no_summary_error : exn :=
  AttributeError "'NoneType' object has no attribute 'strip'".

Definition has_summary (m : Match) : bool :=
  match summary m with Some _ => true | None => false end.

(** The notes of the matches of the pull requests, one for each match
    with a summary, before the set removes the duplicates. *)
Definition candidate_notes (pr_summary_regex : Pattern)
  (pull_requests : list PullRequest.t) : list ChangeNote.t :=
  flat_map
    (fun pr =>
       flat_map
         (fun m =>
            match ChangeNote.of_match pr m with
            | Ok n => [n]
            | Raise _ => []
            end)
         (the_matches pr_summary_regex pr))
    pull_requests.

(** No pattern of the mapping matches the note. *)
Definition unmatched `{Runtime} (self : MdFormatter.t) (note : ChangeNote.t)
  : bool :=
  match sections_of self note with [] => true | _ => false end.

(** The line ends with a newline. *)
Definition ends_nl (line : string) : Prop := PyStr.last line = Some PyStr.LF.

(** Whatever the computation does, the lines it yields end with a
    newline. *)
Definition yields_lines {A} (m : Py A) : Prop :=
  forall st, Forall ends_nl (out (m st)).

(** The two lines of a reStructuredText heading. *)
Definition rst_heading (title u : string) : list string :=
  [ title ++ PyStr.nl; PyStr.repeat u (String.length title) ++ PyStr.nl ].

(** The lines of a change section of a reStructuredText document. *)
Definition rst_section_lines `{Runtime} (entry : string * list ChangeNote.t)
  : list string :=
  match snd entry with
  | [] => []
  | _ =>
      rst_heading (fst entry) "-"
      ++ [ PyStr.nl ]
      ++ map (note_line RstFormatter.methods) (section_notes (snd entry))
      ++ [ PyStr.nl ]
  end.

(** The lines of the contributor section of a reStructuredText document. *)
Definition rst_contributor_lines `{Runtime} (self : MdFormatter.t)
  (authors reviewers : list NamedUser.t) : list string :=
  let authors := MdFormatter.not_ignored self authors in
  let reviewers := MdFormatter.not_ignored self reviewers in
  rst_heading "Contributors" "-"
  ++ [ PyStr.nl;
       PyStr.of_len (length authors)
       ++ " authors added to this release (alphabetically):" ++ PyStr.nl;
       PyStr.nl ]
  ++ MdFormatter.user_lines RstFormatter.methods authors
  ++ [ PyStr.nl;
       PyStr.of_len (length reviewers)
       ++ " reviewers added to this release (alphabetically):" ++ PyStr.nl;
       PyStr.nl ]
  ++ MdFormatter.user_lines RstFormatter.methods reviewers
  ++ [ PyStr.nl ].

(** The extractor takes the title of the pull request: the body is
    missing, empty or without a match. *)
Definition falls_back (pr_summary_regex : Pattern) (pr : PullRequest.t)
  : bool :=
  match PullRequest.body pr with
  | None | Some "" => true
  | Some b =>
      match finditer pr_summary_regex b with
      | [] => true
      | _ => false
      end
  end.

(** The debug records of an extraction that visits the pull requests in
    the given order. *)
Definition fallback_logs (pr_summary_regex : Pattern)
  (pull_requests : list PullRequest.t) : list log_record :=
  flat_map
    (fun pr =>
       if falls_back pr_summary_regex pr
       then [mk_log DEBUG "falling back to title for %s"
               (PullRequest.html_url pr)]
       else [])
    pull_requests.

(** [Pattern.match] under [IGNORECASE], for a pattern without anchors,
    look-around or negated classes, [lang] being the strings the pattern
    matches in full: the subject starts with a string that is, up to case,
    one of [lang]; what follows it in the subject does not matter. *)
Definition caseless_prefix (lang : string -> Prop) (s : string) : Prop :=
  exists u rest v, s = u ++ rest /\ lang v /\ PyStr.lower u = PyStr.lower v.

(** The runtime compiles the pattern with [IGNORECASE], and the compiled
    pattern matches as [re] documents it. *)
Definition ignorecase_match_conforms `{Runtime} (lang : string -> Prop)
  (pattern : string) : Prop :=
  exists regex,
    re_compile pattern [IGNORECASE] = Ok regex
    /\ forall s, match_ regex s <> None <-> caseless_prefix lang s.

Module Cases.

(** A pattern with two alternatives, [summary] capturing an [x] and
    [label] capturing a [y]: every [x] of the body is a match without
    label, every [y] a match without summary. *)
Fixpoint either_matches (body : string) : list Match :=
  match body with
  | "" => []
  | String c r =>
      if Ascii.eqb c "x" then mk_match (Some "x") None :: either_matches r
      else if Ascii.eqb c "y" then mk_match None (Some "y") :: either_matches r
      else either_matches r
  end.

Definition either_regex : Pattern :=
  mk_pattern either_matches (fun _ => None).

Definition pr_no_summary : PullRequest.t :=
  PullRequest.mk (Some "xy") "Either" 9 "https://example.org/pull/9" [] 70.

(** A runtime that iterates a set from its last element to its first. *)
#[local] Instance reversing : Runtime :=
  mk_runtime (fun _ s => rev s) (fun _ s => Permutation_rev s)
    Sample.compile
    (fun template repo_name version =>
       Sample.format_from repo_name version 0 template).

(** The sample formatter with a pattern that does not compile. *)
Definition bad_formatter : MdFormatter.t :=
  MdFormatter.mk "changelist"
    [Sample.note_bugfix; Sample.note_docs] [Sample.bob] []
    "1.0" "{repo_name} {version}" "Intro" "Thanks."
    [("^bug", "Bug Fixes"); ("(", "Broken"); ("[", "Broken too")]
    [].

(** The sample formatter without change notes. *)
Definition no_notes_formatter : MdFormatter.t :=
  MdFormatter.mk "changelist" [] [Sample.bob] []
    "1.0" "{repo_name} {version}" "Intro" "Thanks."
    [("^bug", "Bug Fixes")] [].

(** The sample formatter without sections. *)
Definition unmapped_formatter : MdFormatter.t :=
  MdFormatter.mk "changelist" [Sample.note_bugfix; Sample.note_docs]
    [Sample.bob] []
    "1.0" "{repo_name} {version}" "Intro" "Thanks." [] [].

(** The sample formatter with an intro template that does not format. *)
Definition bad_intro_formatter : MdFormatter.t :=
  MdFormatter.mk "changelist" [Sample.note_bugfix] [Sample.bob] []
    "1.0" "{repo_name} {version}" "Intro of {release}" "Thanks."
    [("^bug", "Bug Fixes")] [].

(** The text of a pattern of the sample runtime: the pattern without its
    leading [^]. *)
Definition literal_text (pattern : string) : string :=
  match pattern with
  | String "^" r => r
  | _ => pattern
  end.

(** The one string a pattern of the sample runtime matches in full. *)
Definition literal (pattern : string) : string -> Prop :=
  fun v => v = literal_text pattern.

(** Two notes of one section merged at the same time. *)
Definition note_early : ChangeNote.t :=
  ChangeNote.mk "First" "#20" "https://example.org/pull/20" ["bug"] 50.

Definition note_late : ChangeNote.t :=
  ChangeNote.mk "Second" "#21" "https://example.org/pull/21" ["bug"] 50.



(** A runtime that iterates a set from its second element on and ends
    with the first. *)
Definition rotate {A} (s : list A) : list A :=
  match s with
  | [] => []
  | x :: r => r ++ [x]
  end.

#[local] Instance rotating : Runtime :=
  mk_runtime (@rotate)
    (fun A s =>
       match s as s0 return Permutation s0 (rotate s0) with
       | [] => perm_nil A
       | x :: r => Permutation_cons_append r x
       end)
    Sample.compile
    (fun template repo_name version =>
       Sample.format_from repo_name version 0 template).

End Cases.

(** * Properties *)

(** ** Running computations *)

Lemma emits_ret {A} (a : A) : emits (ret a) a [].
Proof. intros st. reflexivity. Qed.

Lemma emits_yield (line : string) : emits (yield line) tt [line].
Proof. intros st. reflexivity. Qed.

Lemma emits_bind {A B} (m : Py A) (f : A -> Py B) a la b lb :
  emits m a la -> emits (f a) b lb -> emits (bind m f) b (la ++ lb).
Proof.
  intros Hm Hf st. unfold bind. cbv zeta. rewrite !Hm. simpl.
  rewrite !Hf. reflexivity.
Qed.

Lemma emits_for_each {A} (body : A -> Py unit) (lines : A -> list string) xs :
  (forall x, In x xs -> emits (body x) tt (lines x)) ->
  emits (for_each xs body) tt (flat_map lines xs).
Proof.
  induction xs as [|x r IH]; intros Hb; simpl.
  - apply emits_ret.
  - apply emits_bind with (a := tt).
    + apply Hb. now left.
    + apply IH. intros y Hy. apply Hb. now right.
Qed.

Lemma flat_map_singleton {A B} (f : A -> B) (l : list A) :
  flat_map (fun x => [f x]) l = map f l.
Proof. induction l as [|x r IH]; simpl; [reflexivity | now rewrite IH]. Qed.

Lemma emits_map {A} (body : A -> Py unit) (line : A -> string) xs :
  (forall x, emits (body x) tt [line x]) ->
  emits (for_each xs body) tt (map line xs).
Proof.
  intros Hb. rewrite <- flat_map_singleton.
  apply emits_for_each. intros x _. apply Hb.
Qed.

Lemma emits_yield_from (lines : list string) :
  emits (yield_from lines) tt lines.
Proof.
  unfold yield_from.
  replace lines with (flat_map (fun l => [l]) lines) at 2.
  - apply emits_for_each. intros x _. apply emits_yield.
  - induction lines as [|l r IH]; simpl; [reflexivity | now rewrite IH].
Qed.

(** ** Ordered dictionaries *)

Section OrderedDict.
Context {V : Type}.
Implicit Types (d : odict V) (k : string) (v : V).

Lemma od_keys_set k v d :
  od_keys (od_set k v d)
  = if existsb (String.eqb k) (od_keys d) then od_keys d
    else (od_keys d ++ [k])%list.
Proof.
  induction d as [|[k' v'] r IH]; simpl; [reflexivity|].
  destruct (String.eqb k k') eqn:E; simpl; [reflexivity|].
  unfold od_keys in *. rewrite IH.
  now destruct (existsb (String.eqb k) (map fst r)).
Qed.

Lemma existsb_eqb_In k (l : list string) :
  existsb (String.eqb k) l = true <-> In k l.
Proof.
  rewrite existsb_exists. split.
  - intros (x & Hx & E). apply String.eqb_eq in E. now subst.
  - intros Hk. exists k. split; [assumption | apply String.eqb_refl].
Qed.

Lemma od_keys_set_in k v d :
  In k (od_keys d) -> od_keys (od_set k v d) = od_keys d.
Proof.
  intros Hk. rewrite od_keys_set.
  apply existsb_eqb_In in Hk. now rewrite Hk.
Qed.

Lemma od_get_set k' k v d :
  In k (od_keys d) ->
  od_get k' (od_set k v d) = if String.eqb k' k then Some v else od_get k' d.
Proof.
  induction d as [|[k0 v0] r IH]; simpl; [tauto|].
  intros [E | Hk].
  - subst k0. rewrite String.eqb_refl. simpl.
    now destruct (String.eqb k' k).
  - destruct (String.eqb k k0) eqn:E; simpl.
    + apply String.eqb_eq in E. subst k0.
      now destruct (String.eqb k' k).
    + rewrite (IH Hk).
      destruct (String.eqb k' k0) eqn:E0; [|reflexivity].
      apply String.eqb_eq in E0. subst k0.
      destruct (String.eqb k' k) eqn:E1; [|reflexivity].
      apply String.eqb_eq in E1. subst k'.
      rewrite String.eqb_refl in E. discriminate.
Qed.

Lemma od_get_keys k d : In k (od_keys d) -> exists v, od_get k d = Some v.
Proof.
  induction d as [|[k0 v0] r IH]; simpl; [tauto|].
  intros Hk. destruct (String.eqb k k0) eqn:E; [eauto|].
  destruct Hk as [E' | Hk]; [|auto].
  subst k0. rewrite String.eqb_refl in E. discriminate.
Qed.

Lemma od_get_some_keys k v d : od_get k d = Some v -> In k (od_keys d).
Proof.
  induction d as [|[k0 v0] r IH]; simpl; [discriminate|].
  destruct (String.eqb k k0) eqn:E; [|auto].
  apply String.eqb_eq in E. auto.
Qed.

Lemma od_get_In k v d : NoDup (od_keys d) -> In (k, v) d -> od_get k d = Some v.
Proof.
  induction d as [|[k0 v0] r IH]; simpl; [tauto|].
  intros Hnd [E | Hin].
  - inversion E; subst. now rewrite String.eqb_refl.
  - inversion Hnd as [|? ? Hk0 Hr]; subst.
    destruct (String.eqb k k0) eqn:E; [|auto].
    apply String.eqb_eq in E. subst k0.
    exfalso. apply Hk0. unfold od_keys.
    change k with (fst (k, v)). now apply in_map.
Qed.

Lemma od_keys_NoDup_set k v d :
  NoDup (od_keys d) -> NoDup (od_keys (od_set k v d)).
Proof.
  intros Hnd. rewrite od_keys_set.
  destruct (existsb (String.eqb k) (od_keys d)) eqn:E; [assumption|].
  apply NoDup_app; [assumption | repeat constructor; simpl; tauto |].
  intros x Hx [<- | []].
  apply existsb_eqb_In in Hx. congruence.
Qed.

End OrderedDict.

(** ** The empty buckets *)

Lemma keep_first_app seen l1 l2 :
  keep_first seen (l1 ++ l2)
  = (keep_first seen l1 ++ keep_first (seen ++ keep_first seen l1) l2)%list.
Proof.
  revert seen. induction l1 as [|k r IH]; intros seen; simpl.
  - now rewrite app_nil_r.
  - destruct (existsb (String.eqb k) seen); [apply IH|].
    simpl. rewrite IH. now rewrite <- app_assoc.
Qed.

Lemma keep_first_single seen k :
  keep_first seen [k] = if existsb (String.eqb k) seen then [] else [k].
Proof. reflexivity. Qed.

Lemma seed_keys {V} (v : V) (l : list (string * string)) (d : odict V) :
  od_keys (fold_left (fun d '(_, section_name) => od_set section_name v d) l d)
  = (od_keys d ++ keep_first (od_keys d) (map snd l))%list.
Proof.
  revert d. induction l as [|[p s] r IH]; intros d; simpl.
  - now rewrite app_nil_r.
  - rewrite IH, od_keys_set.
    destruct (existsb (String.eqb s) (od_keys d)); [reflexivity|].
    now rewrite <- app_assoc.
Qed.

Lemma seed_NoDup {V} (v : V) (l : list (string * string)) (d : odict V) :
  NoDup (od_keys d) ->
  NoDup (od_keys
           (fold_left (fun d '(_, section_name) => od_set section_name v d) l d)).
Proof.
  revert d. induction l as [|[p s] r IH]; intros d Hd; simpl; [assumption|].
  apply IH. now apply od_keys_NoDup_set.
Qed.

Lemma od_set_values {V} (P : V -> Prop) k v (d : odict V) :
  P v -> Forall (fun e => P (snd e)) d ->
  Forall (fun e => P (snd e)) (od_set k v d).
Proof.
  intros Hv. induction d as [|[k' v'] r IH]; intros Hd; simpl.
  - now repeat constructor.
  - inversion Hd; subst.
    destruct (String.eqb k k'); constructor; auto.
Qed.

Lemma seed_values {V} (P : V -> Prop) (v : V) (l : list (string * string))
  (d : odict V) :
  P v -> Forall (fun e => P (snd e)) d ->
  Forall (fun e => P (snd e))
    (fold_left (fun d '(_, section_name) => od_set section_name v d) l d).
Proof.
  intros Hv. revert d. induction l as [|[p s] r IH]; intros d Hd; simpl.
  - assumption.
  - apply IH. now apply od_set_values.
Qed.

Lemma od_get_value {V} (P : V -> Prop) k v (d : odict V) :
  Forall (fun e => P (snd e)) d -> od_get k d = Some v -> P v.
Proof.
  induction d as [|[k' v'] r IH]; simpl; [discriminate|].
  intros Hd. inversion Hd; subst.
  destruct (String.eqb k k'); [|auto].
  intros E. inversion E; subst. assumption.
Qed.

Section EmptySections.
Context `{Runtime}.
Variable self : MdFormatter.t.

Lemma empty_sections_keys :
  od_keys (MdFormatter.empty_sections self)
  = keep_first [] (map snd (MdFormatter.label_section_map self) ++ ["Other"]).
Proof.
  unfold MdFormatter.empty_sections.
  rewrite od_keys_set, seed_keys, keep_first_app.
  change (od_keys (@nil (string * list ChangeNote.t))) with (@nil string).
  rewrite !app_nil_l, keep_first_single.
  destruct (existsb _ _); [now rewrite app_nil_r | reflexivity].
Qed.

Lemma empty_sections_NoDup : NoDup (od_keys (MdFormatter.empty_sections self)).
Proof.
  unfold MdFormatter.empty_sections.
  apply od_keys_NoDup_set, seed_NoDup. constructor.
Qed.

Lemma empty_sections_get title bucket :
  od_get title (MdFormatter.empty_sections self) = Some bucket -> bucket = [].
Proof.
  apply (od_get_value (fun b => b = [])).
  unfold MdFormatter.empty_sections.
  apply (od_set_values (fun b => b = [])); [reflexivity|].
  apply (seed_values (fun b => b = [])); [reflexivity | constructor].
Qed.

Lemma keep_first_In seen l k :
  In k l -> In k seen \/ In k (keep_first seen l).
Proof.
  revert seen. induction l as [|x r IH]; intros seen; simpl; [tauto|].
  intros [E | Hk].
  - subst x. destruct (existsb (String.eqb k) seen) eqn:E.
    + left. now apply existsb_eqb_In.
    + right. now left.
  - destruct (existsb (String.eqb x) seen).
    + apply IH, Hk.
    + destruct (IH (seen ++ [x])%list Hk) as [Hs | Hs].
      * apply in_app_or in Hs. destruct Hs as [Hs | [<- | []]];
          [now left | right; now left].
      * right. now right.
Qed.

Lemma empty_sections_has title :
  In title (map snd (MdFormatter.label_section_map self)) \/ title = "Other" ->
  In title (od_keys (MdFormatter.empty_sections self)).
Proof.
  intros Ht. rewrite empty_sections_keys.
  destruct (keep_first_In [] (map snd (MdFormatter.label_section_map self)
                               ++ ["Other"]) title) as [[] | Hk];
    [|assumption].
  apply in_or_app. destruct Ht as [Ht | ->]; [now left | right; now left].
Qed.

End EmptySections.

(** ** Filling the buckets *)

Lemma set_add_In n x b : In x (ChangeNote.set_add n b) <-> In x b \/ x = n.
Proof.
  unfold ChangeNote.set_add. destruct (in_dec ChangeNote.eq_dec n b) as [Hn|Hn].
  - split; [tauto | intros [Hx | ->]; assumption].
  - rewrite in_app_iff. simpl. intuition congruence.
Qed.

Lemma set_add_NoDup n b : NoDup b -> NoDup (ChangeNote.set_add n b).
Proof.
  intros Hb. unfold ChangeNote.set_add.
  destruct (in_dec ChangeNote.eq_dec n b) as [Hn|Hn]; [assumption|].
  apply NoDup_app; [assumption | repeat constructor; simpl; tauto |].
  intros x Hx [<- | []]. contradiction.
Qed.

Lemma grows_nothing d : grows (fun _ _ => False) d d.
Proof.
  split; [reflexivity|]. intros title b Hb. exists b. intuition.
Qed.

Lemma grows_trans P Q d d1 d2 :
  grows P d d1 -> grows Q d1 d2 -> grows (fun t x => P t x \/ Q t x) d d2.
Proof.
  intros [K1 G1] [K2 G2]. split; [congruence|].
  intros title b Hb.
  destruct (G1 _ _ Hb) as (b1 & Hb1 & N1 & I1).
  destruct (G2 _ _ Hb1) as (b2 & Hb2 & N2 & I2).
  exists b2. split; [assumption|]. split; [auto|].
  intros x. rewrite I2, I1. tauto.
Qed.

Lemma grows_iff P Q d d' :
  (forall t x, P t x <-> Q t x) -> grows P d d' -> grows Q d d'.
Proof.
  intros HPQ [K G]. split; [assumption|].
  intros title b Hb. destruct (G _ _ Hb) as (b' & Hb' & N & I).
  exists b'. split; [assumption|]. split; [assumption|].
  intros x. rewrite I, HPQ. tauto.
Qed.

Lemma bucket_add_grows section_name note d :
  In section_name (od_keys d) ->
  exists d',
    emits (MdFormatter.bucket_add section_name note d) d' []
    /\ grows (fun t x => x = note /\ t = section_name) d d'.
Proof.
  intros Hk. destruct (od_get_keys _ _ Hk) as (b0 & Hb0).
  exists (od_set section_name (ChangeNote.set_add note b0) d).
  split.
  - intros st. unfold MdFormatter.bucket_add. now rewrite Hb0.
  - split; [now apply od_keys_set_in|].
    intros title b Hb. rewrite (od_get_set _ _ _ _ Hk).
    destruct (String.eqb title section_name) eqn:E.
    + apply String.eqb_eq in E. subst title.
      assert (b0 = b) by congruence. subst b0.
      exists (ChangeNote.set_add note b).
      split; [reflexivity|]. split; [apply set_add_NoDup|].
      intros x. rewrite set_add_In. tauto.
    + apply String.eqb_neq in E.
      exists b. split; [assumption|]. split; [auto|].
      intros x. intuition congruence.
Qed.

Lemma add_to_sections_grows note titles :
  forall d,
    (forall t, In t titles -> In t (od_keys d)) ->
    exists d',
      emits (for_fold titles
               (fun d section_name =>
                  MdFormatter.bucket_add section_name note d) d) d' []
      /\ grows (fun t x => x = note /\ In t titles) d d'.
Proof.
  induction titles as [|s r IH]; intros d Hk; simpl.
  - exists d. split; [apply emits_ret|].
    apply (grows_iff (fun _ _ => False)); [simpl; tauto | apply grows_nothing].
  - destruct (bucket_add_grows s note d) as (d1 & E1 & G1);
      [apply Hk; now left|].
    destruct (IH d1) as (d2 & E2 & G2).
    { intros t Ht. destruct G1 as [K1 _]. rewrite K1. apply Hk. now right. }
    exists d2. split.
    + change (@nil string) with (@nil string ++ @nil string)%list.
      eapply emits_bind; eassumption.
    + eapply grows_iff; [|eapply grows_trans; eassumption].
      simpl. intros t x. intuition congruence.
Qed.

Section Classify.
Context `{Runtime}.
Variable self : MdFormatter.t.
Variable compiled : list (Pattern * string).
Hypothesis compiled_ok : MdFormatter.compile_map self = Ok compiled.

(** Once the patterns are compiled, matching is by [note_matches]. *)
Lemma matching_sections_of note :
  MdFormatter.matching_sections compiled note = sections_of self note.
Proof.
  unfold MdFormatter.matching_sections, sections_of.
  revert compiled compiled_ok. unfold MdFormatter.compile_map.
  induction (MdFormatter.label_section_map self) as [|[p s] r IH];
    intros c Hc; simpl in Hc.
  - now inversion Hc.
  - unfold note_matches at 1. simpl.
    destruct (re_compile p [IGNORECASE]) as [regex|e]; [|discriminate].
    destruct (map_result _ r) as [c'|e] eqn:Hr; [|discriminate].
    inversion Hc; subst c. simpl.
    destruct (MdFormatter.any_match regex note); simpl;
      now rewrite (IH c' eq_refl).
Qed.

Lemma sections_of_configured note title :
  In title (sections_of self note) ->
  In title (map snd (MdFormatter.label_section_map self)).
Proof.
  unfold sections_of. rewrite !in_map_iff.
  intros (e & He & Hin). apply filter_In in Hin. exists e. tauto.
Qed.

Lemma classify_note_grows note d :
  has_sections self d ->
  exists d',
    (forall st,
        MdFormatter.classify_note compiled d note st
        = mk_outcome (Ok d') [] (st ++ warnings_of (sections_of self) [note]))
    /\ grows (fun t x => x = note /\ belongs self t x) d d'.
Proof.
  intros Hd. unfold MdFormatter.classify_note, warnings_of, belongs.
  cbv zeta. rewrite matching_sections_of. simpl. rewrite app_nil_r.
  destruct (add_to_sections_grows note (sections_of self note) d)
    as (d1 & E1 & G1).
  { intros t Ht. apply Hd. left. eapply sections_of_configured, Ht. }
  destruct (sections_of self note) as [|s r] eqn:Hs.
  - destruct (bucket_add_grows "Other" note d1) as (d2 & E2 & G2).
    { destruct G1 as [K1 _]. rewrite K1. apply Hd. now right. }
    exists d2. split.
    + intros st. unfold bind, logger. cbv zeta. rewrite !E1. simpl.
      rewrite !E2. reflexivity.
    + eapply grows_iff; [|eapply grows_trans; eassumption].
      simpl. intros t x. split.
      * intros [[_ []] | [-> ->]]. rewrite Hs. auto.
      * intros [-> [Ht | [_ ->]]]; [rewrite Hs in Ht; destruct Ht | auto].
  - exists d1. split.
    + intros st. unfold bind, ret. cbv zeta. rewrite !E1. simpl.
      now rewrite app_nil_r.
    + eapply grows_iff; [|eassumption].
      simpl. intros t x. split.
      * intros [-> Ht]. split; [reflexivity|]. left. now rewrite Hs.
      * intros [-> [Ht | [Ht _]]]; [|congruence].
        rewrite Hs in Ht. tauto.
Qed.

Lemma warnings_of_app f l1 l2 :
  warnings_of f (l1 ++ l2) = (warnings_of f l1 ++ warnings_of f l2)%list.
Proof. unfold warnings_of. apply flat_map_app. Qed.

Lemma classify_all_grows notes :
  forall d,
    has_sections self d ->
    exists d',
      (forall st,
          for_fold notes (MdFormatter.classify_note compiled) d st
          = mk_outcome (Ok d') [] (st ++ warnings_of (sections_of self) notes))
      /\ grows (fun t x => In x notes /\ belongs self t x) d d'.
Proof.
  induction notes as [|n r IH]; intros d Hd.
  - exists d. split.
    + intros st. simpl. unfold ret. now rewrite app_nil_r.
    + apply (grows_iff (fun _ _ => False)); [simpl; tauto | apply grows_nothing].
  - destruct (classify_note_grows n d Hd) as (d1 & E1 & G1).
    destruct (IH d1) as (d2 & E2 & G2).
    { intros t Ht. destruct G1 as [K1 _]. rewrite K1. now apply Hd. }
    exists d2. split.
    + intros st. change (n :: r) with ([n] ++ r)%list at 2.
      rewrite warnings_of_app, app_assoc.
      cbn [for_fold app]. unfold bind. cbv zeta. rewrite !E1.
      cbn [res out logs]. rewrite !E2. reflexivity.
    + eapply grows_iff; [|eapply grows_trans; eassumption].
      simpl. intros t x. intuition (subst; auto).
Qed.

(** What classification returns, and the log it leaves. *)
Lemma notes_by_section_spec :
  exists nbs,
    (forall st,
        MdFormatter._notes_by_section self st
        = mk_outcome (Ok nbs) [] (st ++ classifier_warnings self))
    /\ od_keys nbs
       = keep_first []
           (map snd (MdFormatter.label_section_map self) ++ ["Other"])
    /\ NoDup (od_keys nbs)
    /\ forall title bucket,
        In (title, bucket) nbs ->
        NoDup bucket
        /\ forall note,
            In note bucket
            <-> In note (MdFormatter.change_notes self)
                /\ belongs self title note.
Proof.
  destruct (classify_all_grows (set_iter (MdFormatter.change_notes self))
              (MdFormatter.empty_sections self))
    as (nbs & E & K & G).
  { intros t Ht. now apply empty_sections_has. }
  exists nbs. split.
  - intros st. unfold MdFormatter._notes_by_section, bind. cbv zeta.
    rewrite compiled_ok. simpl. rewrite !E. reflexivity.
  - rewrite K. split; [apply empty_sections_keys|].
    split; [apply empty_sections_NoDup|].
    intros title bucket Hin.
    assert (Hnd : NoDup (od_keys nbs)) by (rewrite K; apply empty_sections_NoDup).
    apply (od_get_In _ _ _ Hnd) in Hin.
    assert (Hk : In title (od_keys (MdFormatter.empty_sections self))).
    { rewrite <- K. eapply od_get_some_keys, Hin. }
    destruct (od_get_keys _ _ Hk) as (b0 & Hb0).
    assert (b0 = []) by (eapply empty_sections_get, Hb0). subst b0.
    destruct (G _ _ Hb0) as (b' & Hb' & N & I).
    assert (b' = bucket) by congruence. subst b'.
    split; [apply N; constructor|].
    intros note. rewrite I. simpl.
    assert (Hp : In note (set_iter (MdFormatter.change_notes self))
                 <-> In note (MdFormatter.change_notes self)).
    { split; apply Permutation_in;
        [apply Permutation_sym|]; apply set_iter_perm. }
    tauto.
Qed.

End Classify.

(** ** Sorting *)

Section SortedFacts.
Context {A K : Type} (leb : K -> K -> bool) (key : A -> K).
Hypothesis leb_total : forall a b, leb a b = true \/ leb b a = true.

Let le (x y : A) : Prop := leb (key x) (key y) = true.

Lemma insert_sorted_perm x l :
  Permutation (x :: l) (insert_sorted leb key x l).
Proof.
  induction l as [|y r IH]; simpl; [reflexivity|].
  destruct (leb (key x) (key y)); [reflexivity|].
  rewrite perm_swap. now constructor.
Qed.

Lemma sorted_perm l : Permutation l (sorted leb key l).
Proof.
  induction l as [|x r IH]; simpl; [constructor|].
  rewrite <- insert_sorted_perm. now constructor.
Qed.

Lemma insert_sorted_HdRel a x l :
  le a x -> HdRel le a l -> HdRel le a (insert_sorted leb key x l).
Proof.
  intros Hax Hl. destruct l as [|y r]; simpl.
  - now constructor.
  - destruct (leb (key x) (key y)); constructor; [assumption|].
    now inversion Hl.
Qed.

Lemma insert_sorted_Sorted x l :
  Sorted le l -> Sorted le (insert_sorted leb key x l).
Proof.
  induction l as [|y r IH]; intros Hl; simpl.
  - repeat constructor.
  - inversion Hl as [|? ? Hr Hy]; subst.
    destruct (leb (key x) (key y)) eqn:E.
    + constructor; [assumption|]. now constructor.
    + constructor; [now apply IH|].
      apply insert_sorted_HdRel; [|assumption].
      unfold le. destruct (leb_total (key x) (key y)); congruence.
Qed.

Lemma sorted_Sorted l : Sorted le (sorted leb key l).
Proof.
  induction l as [|x r IH]; simpl; [constructor|].
  now apply insert_sorted_Sorted.
Qed.

End SortedFacts.

(** ** The lines of a Markdown document *)

Section MdLines.
Context `{Runtime}.
Variable self : MdFormatter.t.

Lemma md_title_emits title :
  emits (MdFormatter.format_section_title title 2) tt
    ["## " ++ title ++ PyStr.nl].
Proof. intros st. reflexivity. Qed.

Lemma change_note_emits cls note :
  emits (MdFormatter._format_change_note cls note) tt [note_line cls note].
Proof. intros st. reflexivity. Qed.

Lemma change_section_emits title notes :
  emits (MdFormatter._format_change_section MdFormatter.methods title notes) tt
    (md_section_lines (title, notes)).
Proof.
  unfold MdFormatter._format_change_section, md_section_lines.
  destruct notes as [|n r]; [apply emits_ret|].
  cbn [fst snd _format_section_title MdFormatter.methods].
  set (l := (n :: r)%list).
  eapply (emits_bind _ _ tt [_] tt (_ :: _)); [apply md_title_emits|].
  eapply (emits_bind _ _ tt [_] tt); [apply emits_yield|].
  eapply emits_bind; [|apply emits_yield].
  apply emits_map. intros x. apply change_note_emits.
Qed.

Lemma contributor_section_emits authors reviewers :
  emits (MdFormatter._format_contributor_section MdFormatter.methods self
           authors reviewers) tt
    (md_contributor_lines self authors reviewers).
Proof.
  unfold MdFormatter._format_contributor_section, md_contributor_lines.
  cbv zeta. cbn [_format_section_title MdFormatter.methods].
  eapply (emits_bind _ _ tt [_] tt); [apply md_title_emits|].
  eapply (emits_bind _ _ tt [_] tt); [apply emits_yield|].
  eapply (emits_bind _ _ tt [_] tt); [apply emits_yield|].
  eapply (emits_bind _ _ tt [_] tt); [apply emits_yield|].
  eapply emits_bind; [apply emits_yield_from|].
  eapply (emits_bind _ _ tt [_] tt); [apply emits_yield|].
  eapply (emits_bind _ _ tt [_] tt); [apply emits_yield|].
  eapply (emits_bind _ _ tt [_] tt); [apply emits_yield|].
  eapply emits_bind; [apply emits_yield_from|].
  apply emits_yield.
Qed.

Lemma sections_emit (nbs : odict (list ChangeNote.t)) :
  emits
    (for_each nbs
       (fun '(title, notes) =>
          MdFormatter._format_change_section MdFormatter.methods title notes))
    tt (flat_map md_section_lines nbs).
Proof.
  apply emits_for_each. intros [title notes] _. apply change_section_emits.
Qed.

End MdLines.

(** ** The whole document *)

Lemma run_bind {A B} (m : Py A) (f : A -> Py B) st a la st1 r lb st2 :
  m st = mk_outcome (Ok a) la st1 ->
  f a st1 = mk_outcome r lb st2 ->
  bind m f st = mk_outcome r (la ++ lb) st2.
Proof.
  intros Hm Hf. unfold bind. cbv zeta. rewrite !Hm. cbn [res out logs].
  rewrite !Hf. reflexivity.
Qed.

Section MdDocument.
Context `{Runtime}.
Variable self : MdFormatter.t.

Lemma format_block_emits template text :
  str_format template (MdFormatter.repo_name self) (MdFormatter.version self)
  = Ok text ->
  emits (MdFormatter.format_block self template) tt (block_lines text).
Proof.
  intros Hf. unfold MdFormatter.format_block. rewrite Hf.
  apply (emits_bind _ _ text [] tt); [apply emits_ret|].
  apply emits_yield_from.
Qed.

(** The lines of the document, given the formatted title, the texts of
    the two blocks and the classified notes. *)
Lemma md_iter_lines_run title intro outro nbs w :
  str_format (MdFormatter.title_template self) (MdFormatter.repo_name self)
    (MdFormatter.version self) = Ok title ->
  str_format (MdFormatter.intro_template self) (MdFormatter.repo_name self)
    (MdFormatter.version self) = Ok intro ->
  str_format (MdFormatter.outro_template self) (MdFormatter.repo_name self)
    (MdFormatter.version self) = Ok outro ->
  (forall st,
      MdFormatter._notes_by_section self st = mk_outcome (Ok nbs) [] (st ++ w)) ->
  forall st,
    MdFormatter.iter_lines MdFormatter.methods self st
    = mk_outcome (Ok tt)
        (("# " ++ title ++ PyStr.nl)%string :: PyStr.nl
         :: block_lines intro
         ++ flat_map md_section_lines nbs
         ++ md_contributor_lines self (MdFormatter.authors self)
              (MdFormatter.reviewers self)
         ++ block_lines outro)
        (st ++ w).
Proof.
  intros Ht Hi Ho Hn st.
  enough (exists l,
             MdFormatter.iter_lines MdFormatter.methods self st
             = mk_outcome (Ok tt) l (st ++ w)
             /\ l = (("# " ++ title ++ PyStr.nl)%string :: PyStr.nl
                     :: block_lines intro
                     ++ flat_map md_section_lines nbs
                     ++ md_contributor_lines self (MdFormatter.authors self)
                          (MdFormatter.reviewers self)
                     ++ block_lines outro)%list)
    as (l & Hl & ->) by exact Hl.
  eexists. split.
  - unfold MdFormatter.iter_lines. rewrite Ht.
    eapply run_bind; [reflexivity|].
    eapply run_bind; [reflexivity|].
    eapply run_bind; [reflexivity|].
    eapply run_bind;
      [apply (format_block_emits (MdFormatter.intro_template self) intro Hi)|].
    eapply run_bind; [apply Hn|].
    eapply run_bind; [apply sections_emit|].
    eapply run_bind; [apply contributor_section_emits|].
    apply (format_block_emits (MdFormatter.outro_template self) outro Ho).
  - reflexivity.
Qed.

End MdDocument.

(** ** Extraction *)

Section Extraction.
Context `{Runtime}.
Variable pr_summary_regex : Pattern.

Lemma matches_of_run pr :
  exists w,
    forall st,
      ChangeNote.matches_of pr_summary_regex pr st
      = mk_outcome (Ok (the_matches pr_summary_regex pr)) [] (st ++ w).
Proof.
  unfold ChangeNote.matches_of, the_matches, title_match.
  destruct (PullRequest.body pr) as [[|c b]|].
  - eexists. intros st. reflexivity.
  - destruct (finditer pr_summary_regex (String c b)).
    + eexists. intros st. reflexivity.
    + exists []. intros st. unfold ret. now rewrite app_nil_r.
  - eexists. intros st. reflexivity.
Qed.

Lemma gains_refl notes : gains (fun _ => False) notes notes.
Proof. split; [auto | intros n; tauto]. Qed.

Lemma gains_trans P Q a b c :
  gains P a b -> gains Q b c -> gains (fun n => P n \/ Q n) a c.
Proof.
  intros [N1 I1] [N2 I2]. split; [auto|].
  intros n. rewrite I2, I1. tauto.
Qed.

Lemma gains_iff P Q a b : (forall n, P n <-> Q n) -> gains P a b -> gains Q a b.
Proof.
  intros HPQ [N I]. split; [assumption|].
  intros n. rewrite I, HPQ. tauto.
Qed.

Lemma gains_set_add n notes :
  gains (fun x => x = n) notes (ChangeNote.set_add n notes).
Proof. split; [apply set_add_NoDup | intros x; apply set_add_In]. Qed.

(** The inner loop, over the matches of one pull request. *)
Lemma notes_of_matches pr ms :
  (forall m, In m ms -> summary m <> None) ->
  forall notes,
    exists notes',
      emits (for_fold ms
               (fun notes m =>
                  n <- lift (ChangeNote.of_match pr m) ;;
                  ret (ChangeNote.set_add n notes))
               notes) notes' []
      /\ gains (fun n => exists m, In m ms /\ ChangeNote.of_match pr m = Ok n)
           notes notes'.
Proof.
  induction ms as [|m r IH]; intros Hs notes.
  - exists notes. split; [apply emits_ret|].
    eapply gains_iff; [|apply gains_refl].
    intros n. split; [tauto | intros (m & [] & _)].
  - destruct (ChangeNote.of_match pr m) as [n0|e] eqn:E.
    2:{ exfalso. unfold ChangeNote.of_match in E.
        destruct (summary m) eqn:Es; [discriminate|].
        apply (Hs m); [now left | assumption]. }
    destruct (IH (fun m' Hm' => Hs m' (or_intror Hm'))
                (ChangeNote.set_add n0 notes)) as (notes' & E' & G').
    exists notes'. split.
    + intros st. cbn [for_fold].
      change (@nil string) with ([] ++ @nil string)%list.
      eapply run_bind; [|apply E'].
      rewrite E. reflexivity.
    + eapply gains_iff; [|eapply gains_trans; [apply gains_set_add | exact G']].
      intros n. split.
      * intros [-> | (m' & Hm' & Em')]; [exists m | exists m'];
          simpl; auto.
      * intros (m' & [<- | Hm'] & Em'); [left; congruence | right; eauto].
Qed.

(** The outer loop, over the pull requests. *)
Lemma notes_of_pull_requests prs :
  (forall pr m,
      In pr prs -> In m (the_matches pr_summary_regex pr) -> summary m <> None) ->
  forall notes,
    exists notes' w,
      (forall st,
          for_fold prs
            (fun notes pr =>
               matches <- ChangeNote.matches_of pr_summary_regex pr ;;
               for_fold matches
                 (fun notes m =>
                    n <- lift (ChangeNote.of_match pr m) ;;
                    ret (ChangeNote.set_add n notes))
                 notes)
            notes st
          = mk_outcome (Ok notes') [] (st ++ w))
      /\ gains (fun n =>
                  exists pr m,
                    In pr prs /\ In m (the_matches pr_summary_regex pr)
                    /\ ChangeNote.of_match pr m = Ok n)
           notes notes'.
Proof.
  induction prs as [|pr r IH]; intros Hs notes.
  - exists notes, []. split.
    + intros st. simpl. unfold ret. now rewrite app_nil_r.
    + eapply gains_iff; [|apply gains_refl].
      intros n. split; [tauto | intros (pr & m & [] & _)].
  - destruct (matches_of_run pr) as (w1 & E1).
    destruct (notes_of_matches pr (the_matches pr_summary_regex pr)
                (fun m Hm => Hs pr m (or_introl eq_refl) Hm) notes)
      as (n1 & E2 & G2).
    destruct (IH (fun pr' m Hp Hm => Hs pr' m (or_intror Hp) Hm) n1)
      as (n2 & w2 & E3 & G3).
    exists n2, (w1 ++ w2)%list. split.
    + intros st. cbn [for_fold].
      rewrite app_assoc.
      change (@nil string) with (([] ++ []) ++ @nil string)%list.
      eapply run_bind; [|apply E3].
      eapply run_bind; [apply E1 | apply E2].
    + eapply gains_iff; [|eapply gains_trans; [exact G2 | exact G3]].
      intros n. split.
      * intros [(m & Hm & Em) | (pr' & m & Hp & Hm & Em)].
        -- exists pr, m. simpl. auto.
        -- exists pr', m. simpl. auto.
      * intros (pr' & m & [<- | Hp] & Hm & Em); [left | right]; eauto.
Qed.

(** Extraction returns, without duplicates, the notes of all the matches
    of all the pull requests. *)
Lemma from_pull_requests_spec pull_requests :
  (forall pr m,
      In pr pull_requests -> In m (the_matches pr_summary_regex pr) ->
      summary m <> None) ->
  exists notes w,
    (forall st,
        ChangeNote.from_pull_requests pull_requests pr_summary_regex st
        = mk_outcome (Ok notes) [] (st ++ w))
    /\ NoDup notes
    /\ forall n,
        In n notes
        <-> exists pr m,
              In pr pull_requests /\ In m (the_matches pr_summary_regex pr)
              /\ ChangeNote.of_match pr m = Ok n.
Proof.
  intros Hs.
  assert (Hp : forall pr, In pr (set_iter pull_requests) <-> In pr pull_requests).
  { intros pr. split; apply Permutation_in;
      [apply Permutation_sym|]; apply set_iter_perm. }
  destruct (notes_of_pull_requests (set_iter pull_requests)
              (fun pr m Hpr => Hs pr m (proj1 (Hp pr) Hpr)) [])
    as (notes & w & E & N & I).
  exists notes, w. split; [exact E|]. split; [apply N; constructor|].
  intros n. rewrite I. simpl. split.
  - intros [[] | (pr & m & Hpr & Hm)]. exists pr, m. rewrite <- Hp. auto.
  - intros (pr & m & Hpr & Hm). right. exists pr, m. rewrite Hp. auto.
Qed.

End Extraction.

(** ** Strings *)

Section StringFacts.

Lemma string_ind2 (P : string -> Prop) :
  P "" ->
  (forall c, P (String c "")) ->
  (forall c d r, P r -> P (String d r) -> P (String c (String d r))) ->
  forall s, P s.
Proof.
  intros H0 H1 H2.
  assert (Hboth : forall s, P s /\ forall c, P (String c s)).
  { induction s as [|d r [IHr IHc]]; [split; auto|].
    split; [apply IHc|]. intros c. apply H2; auto. }
  intros s. apply Hboth.
Qed.

Lemma first_lstrip_by p s c :
  PyStr.first (PyStr.lstrip_by p s) = Some c -> p c = false.
Proof.
  induction s as [|d r IH]; simpl; [discriminate|].
  destruct (p d) eqn:E; [assumption|].
  simpl. intros Hc. inversion Hc; subst. assumption.
Qed.

Lemma last_rstrip_by p s c :
  PyStr.last (PyStr.rstrip_by p s) = Some c -> p c = false.
Proof.
  induction s as [|d r IH]; simpl; [discriminate|].
  destruct (PyStr.rstrip_by p r) as [|e r'] eqn:E.
  - destruct (p d) eqn:Ed; simpl; [discriminate|].
    intros Hc. inversion Hc; subst. assumption.
  - exact IH.
Qed.

Lemma first_rstrip_by p s c :
  PyStr.first (PyStr.rstrip_by p s) = Some c -> PyStr.first s = Some c.
Proof.
  destruct s as [|d r]; simpl; [discriminate|].
  destruct (PyStr.rstrip_by p r); [|auto].
  destruct (p d); [discriminate | auto].
Qed.

Lemma first_strip s c :
  PyStr.first (PyStr.strip s) = Some c -> PyStr.isspace c = false.
Proof.
  unfold PyStr.strip. intros Hc.
  eapply first_lstrip_by, first_rstrip_by, Hc.
Qed.

Lemma last_strip s c :
  PyStr.last (PyStr.strip s) = Some c -> PyStr.isspace c = false.
Proof. unfold PyStr.strip. apply last_rstrip_by. Qed.

Lemma prefix_nl c r : prefix PyStr.nl (String c r) = Ascii.eqb c PyStr.LF.
Proof.
  unfold PyStr.nl. cbn [prefix].
  destruct (ascii_dec PyStr.LF c) as [<-|Hc]; [now destruct r|].
  destruct (Ascii.eqb_spec c PyStr.LF); [congruence | reflexivity].
Qed.

Lemma prefix_crlf c d r :
  prefix PyStr.crlf (String c (String d r))
  = Ascii.eqb c PyStr.CR && Ascii.eqb d PyStr.LF.
Proof.
  unfold PyStr.crlf. cbn [prefix].
  destruct (ascii_dec PyStr.CR c) as [<-|Hc].
  - destruct (ascii_dec PyStr.LF d) as [<-|Hd]; [now destruct r|].
    destruct (Ascii.eqb_spec d PyStr.LF); [congruence|].
    now rewrite andb_false_r.
  - destruct (Ascii.eqb_spec c PyStr.CR); [congruence | reflexivity].
Qed.

Lemma prefix_crlf_one c : prefix PyStr.crlf (String c "") = false.
Proof.
  unfold PyStr.crlf. cbn [prefix]. now destruct (ascii_dec PyStr.CR c).
Qed.

Lemma replace_nl_cons c r :
  PyStr.replace_from PyStr.nl " " 0 (String c r)
  = String (if Ascii.eqb c PyStr.LF then " "%char else c)
      (PyStr.replace_from PyStr.nl " " 0 r).
Proof.
  cbn [PyStr.replace_from]. rewrite prefix_nl.
  now destruct (Ascii.eqb c PyStr.LF).
Qed.

Lemma replace_crlf_one c :
  PyStr.replace_from PyStr.crlf " " 0 (String c "") = String c "".
Proof. cbn [PyStr.replace_from]. now rewrite prefix_crlf_one. Qed.

Lemma replace_crlf_cons c d r :
  PyStr.replace_from PyStr.crlf " " 0 (String c (String d r))
  = if Ascii.eqb c PyStr.CR && Ascii.eqb d PyStr.LF
    then String " " (PyStr.replace_from PyStr.crlf " " 0 r)
    else String c (PyStr.replace_from PyStr.crlf " " 0 (String d r)).
Proof.
  change (PyStr.replace_from PyStr.crlf " " 0 (String c (String d r)))
    with (if prefix PyStr.crlf (String c (String d r))
          then (" " ++ PyStr.replace_from PyStr.crlf " " 0 r)%string
          else String c (PyStr.replace_from PyStr.crlf " " 0 (String d r))).
  now rewrite prefix_crlf.
Qed.

(** The two calls of [replace] amount to one pass. *)
Lemma replace_newlines s :
  PyStr.replace PyStr.nl " " (PyStr.replace PyStr.crlf " " s)
  = collapse_newlines s.
Proof.
  unfold PyStr.replace.
  induction s as [| c | c d r IHr IHd] using string_ind2.
  - reflexivity.
  - rewrite replace_crlf_one, replace_nl_cons. cbn [collapse_newlines].
    now destruct (Ascii.eqb c PyStr.LF).
  - rewrite replace_crlf_cons.
    change (collapse_newlines (String c (String d r)))
      with (if Ascii.eqb c PyStr.LF
            then String " " (collapse_newlines (String d r))
            else if Ascii.eqb c PyStr.CR && Ascii.eqb d PyStr.LF
                 then String " " (collapse_newlines r)
                 else String c (collapse_newlines (String d r))).
    destruct (Ascii.eqb_spec c PyStr.CR) as [->|Hc].
    + change (Ascii.eqb PyStr.CR PyStr.LF) with false.
      destruct (Ascii.eqb d PyStr.LF); cbn [andb].
      * rewrite replace_nl_cons, IHr. reflexivity.
      * rewrite replace_nl_cons, IHd. reflexivity.
    + cbn [andb]. rewrite replace_nl_cons, IHd.
      now destruct (Ascii.eqb c PyStr.LF).
Qed.

Lemma collapse_newlines_no_LF s :
  PyStr.forallb (fun c => negb (Ascii.eqb c PyStr.LF)) (collapse_newlines s)
  = true.
Proof.
  induction s as [| c | c d r IHr IHd] using string_ind2.
  - reflexivity.
  - cbn [collapse_newlines].
    destruct (Ascii.eqb c PyStr.LF) eqn:E; cbn [PyStr.forallb];
      [reflexivity | now rewrite E].
  - change (collapse_newlines (String c (String d r)))
      with (if Ascii.eqb c PyStr.LF
            then String " " (collapse_newlines (String d r))
            else if Ascii.eqb c PyStr.CR && Ascii.eqb d PyStr.LF
                 then String " " (collapse_newlines r)
                 else String c (collapse_newlines (String d r))).
    destruct (Ascii.eqb c PyStr.LF) eqn:E.
    + cbn [PyStr.forallb]. now rewrite IHd.
    + destruct (Ascii.eqb c PyStr.CR && Ascii.eqb d PyStr.LF);
        cbn [PyStr.forallb]; [now rewrite IHr | now rewrite E, IHd].
Qed.

Lemma last_none s : PyStr.last s = None -> s = "".
Proof.
  induction s as [|c r IH]; [reflexivity|].
  cbn [PyStr.last]. destruct r; [discriminate|].
  intros E. specialize (IH E). discriminate.
Qed.

Lemma isspace_LF : PyStr.isspace PyStr.LF = true.
Proof. reflexivity. Qed.

Lemma isspace_CR : PyStr.isspace PyStr.CR = true.
Proof. reflexivity. Qed.

Lemma first_collapse_newlines s c :
  PyStr.first s = Some c -> PyStr.isspace c = false ->
  PyStr.first (collapse_newlines s) = Some c.
Proof.
  destruct s as [|c' r]; [discriminate|].
  cbn [PyStr.first]. intros E Hc. inversion E; subst c'.
  cbn [collapse_newlines].
  destruct (Ascii.eqb_spec c PyStr.LF) as [->|_];
    [rewrite isspace_LF in Hc; discriminate|].
  destruct r as [|d r']; [reflexivity|].
  destruct (Ascii.eqb_spec c PyStr.CR) as [->|_];
    [rewrite isspace_CR in Hc; discriminate|].
  reflexivity.
Qed.

Lemma last_collapse_newlines s c :
  PyStr.last s = Some c -> PyStr.isspace c = false ->
  PyStr.last (collapse_newlines s) = Some c.
Proof.
  intros Hl Hc. revert Hl.
  induction s as [| c' | c' d r IHr IHd] using string_ind2.
  - discriminate.
  - cbn [PyStr.last collapse_newlines]. intros E. inversion E; subst c'.
    destruct (Ascii.eqb_spec c PyStr.LF) as [->|_];
      [rewrite isspace_LF in Hc; discriminate | reflexivity].
  - change (PyStr.last (String c' (String d r)))
      with (PyStr.last (String d r)).
    intros Hl. specialize (IHd Hl).
    change (collapse_newlines (String c' (String d r)))
      with (if Ascii.eqb c' PyStr.LF
            then String " " (collapse_newlines (String d r))
            else if Ascii.eqb c' PyStr.CR && Ascii.eqb d PyStr.LF
                 then String " " (collapse_newlines r)
                 else String c' (collapse_newlines (String d r))).
    assert (Hcons : forall a x, PyStr.last x = Some c ->
                                PyStr.last (String a x) = Some c).
    { intros a [|b x]; [discriminate | auto]. }
    destruct (Ascii.eqb c' PyStr.LF); [now apply Hcons|].
    destruct (Ascii.eqb c' PyStr.CR && Ascii.eqb d PyStr.LF) eqn:E;
      [|now apply Hcons].
    apply andb_true_iff in E. destruct E as [_ Ed].
    apply Ascii.eqb_eq in Ed. subst d.
    destruct r as [|e r'].
    + cbn [PyStr.last] in Hl. inversion Hl; subst c.
      rewrite isspace_LF in Hc. discriminate.
    + apply Hcons, IHr. exact Hl.
Qed.

Lemma last_append a b c :
  PyStr.last b = Some c -> PyStr.last (a ++ b) = Some c.
Proof.
  intros Hb. induction a as [|x a IH]; [exact Hb|].
  cbn [append PyStr.last].
  destruct (a ++ b)%string; [discriminate | exact IH].
Qed.

End StringFacts.

(** * The claims *)

(** ** Extraction *)

Lemma set_iter_singleton `{Runtime} {A} (x : A) : set_iter [x] = [x].
Proof. apply Permutation_length_1_inv, set_iter_perm. Qed.

Lemma of_match_labels pr m n :
  ChangeNote.of_match pr m = Ok n ->
  ChangeNote.labels n
  = match label m with Some l => [l] | None => PullRequest.labels pr end.
Proof.
  unfold ChangeNote.of_match. destruct (summary m); [|discriminate].
  intros E. inversion E. reflexivity.
Qed.

Lemma of_match_ok pr m :
  summary m <> None -> exists n, ChangeNote.of_match pr m = Ok n.
Proof.
  unfold ChangeNote.of_match. destruct (summary m); [eauto | congruence].
Qed.

(** C1, as the code has it: a match whose [label] group captured the empty
    string is a match with an explicit label, the guard being [is not
    None]; its note is among the extracted ones and its labels are the
    single empty string. *)
Theorem empty_label_is_explicit `{Runtime} (pull_requests : list PullRequest.t)
  (pr_summary_regex : Pattern) (pr : PullRequest.t) (m : Match) :
  (forall pr' m',
      In pr' pull_requests -> In m' (the_matches pr_summary_regex pr') ->
      summary m' <> None) ->
  In pr pull_requests ->
  In m (the_matches pr_summary_regex pr) ->
  label m = Some "" ->
  exists notes w n,
    (forall st,
        ChangeNote.from_pull_requests pull_requests pr_summary_regex st
        = mk_outcome (Ok notes) [] (st ++ w))
    /\ ChangeNote.of_match pr m = Ok n
    /\ In n notes
    /\ ChangeNote.labels n = [""].
Proof.
  intros Hs Hpr Hm Hl.
  destruct (from_pull_requests_spec pr_summary_regex pull_requests Hs)
    as (notes & w & E & _ & I).
  destruct (of_match_ok pr m (Hs pr m Hpr Hm)) as (n & En).
  exists notes, w, n. split; [exact E|]. split; [exact En|].
  split; [apply I; eauto|].
  rewrite (of_match_labels _ _ _ En), Hl. reflexivity.
Qed.

(** C3: the note of a match with an explicit label has that label alone,
    and the note of a match without one has the label names of the pull
    request, in order; both notes are among the extracted ones. *)
Theorem labels_of_note `{Runtime} (pull_requests : list PullRequest.t)
  (pr_summary_regex : Pattern) (pr : PullRequest.t) (m : Match) :
  (forall pr' m',
      In pr' pull_requests -> In m' (the_matches pr_summary_regex pr') ->
      summary m' <> None) ->
  In pr pull_requests ->
  In m (the_matches pr_summary_regex pr) ->
  exists notes w n,
    (forall st,
        ChangeNote.from_pull_requests pull_requests pr_summary_regex st
        = mk_outcome (Ok notes) [] (st ++ w))
    /\ ChangeNote.of_match pr m = Ok n
    /\ In n notes
    /\ (forall l, label m = Some l -> ChangeNote.labels n = [l])
    /\ (label m = None -> ChangeNote.labels n = PullRequest.labels pr).
Proof.
  intros Hs Hpr Hm.
  destruct (from_pull_requests_spec pr_summary_regex pull_requests Hs)
    as (notes & w & E & _ & I).
  destruct (of_match_ok pr m (Hs pr m Hpr Hm)) as (n & En).
  exists notes, w, n. split; [exact E|]. split; [exact En|].
  split; [apply I; eauto|].
  rewrite (of_match_labels _ _ _ En).
  split; [intros l -> | intros ->]; reflexivity.
Qed.

Lemma PullRequest_eq_dec (a b : PullRequest.t) : {a = b} + {a <> b}.
Proof.
  decide equality;
    first [ apply string_dec | apply Z.eq_dec
          | apply list_eq_dec, string_dec
          | decide equality; apply string_dec ].
Qed.

Lemma the_matches_fallback pr_summary_regex pr :
  PullRequest.body pr = None
  \/ PullRequest.body pr = Some ""
  \/ (exists b, PullRequest.body pr = Some b
                /\ finditer pr_summary_regex b = []) ->
  the_matches pr_summary_regex pr = [title_match pr].
Proof.
  unfold the_matches.
  intros [-> | [-> | (b & -> & Hf)]]; [reflexivity | reflexivity |].
  destruct b; [reflexivity | now rewrite Hf].
Qed.

Lemma NoDup_all_equal {A} (x : A) (l : list A) :
  NoDup l -> In x l -> (forall y, In y l -> y = x) -> l = [x].
Proof.
  intros Hnd Hin Hall. destruct l as [|a [|b r]].
  - destruct Hin.
  - now rewrite (Hall a (or_introl eq_refl)).
  - exfalso. inversion Hnd as [|? ? Ha _]; subst. apply Ha.
    rewrite (Hall a), <- (Hall b); simpl; auto.
Qed.

(** C4: in the extraction of any collection of pull requests, a request
    whose body is missing, empty, or holds no match of the summary pattern
    (as a body of white space does) gives exactly one note: the stripped
    title, [#] and the number, the URL and the merge time of the request.
    That note is among the extracted ones, and every other extracted note
    comes from a match of another request; when the request is the only
    one, the note is the whole result. *)
Theorem title_fallback `{Runtime} (pull_requests : list PullRequest.t)
  (pr_summary_regex : Pattern) (pr : PullRequest.t) :
  (forall pr' m',
      In pr' pull_requests -> In m' (the_matches pr_summary_regex pr') ->
      summary m' <> None) ->
  In pr pull_requests ->
  PullRequest.body pr = None
  \/ PullRequest.body pr = Some ""
  \/ (exists b, PullRequest.body pr = Some b
                /\ finditer pr_summary_regex b = []) ->
  let note :=
    ChangeNote.mk
      (PyStr.strip (PullRequest.title pr))
      ("#" ++ PyStr.of_int (PullRequest.number pr))
      (PullRequest.html_url pr)
      (PullRequest.labels pr)
      (PullRequest.merged_at pr) in
  exists notes w,
    (forall st,
        ChangeNote.from_pull_requests pull_requests pr_summary_regex st
        = mk_outcome (Ok notes) [] (st ++ w))
    /\ NoDup notes
    /\ In note notes
    /\ (forall n,
           In n notes ->
           n = note
           \/ exists pr' m,
                In pr' pull_requests /\ pr' <> pr
                /\ In m (the_matches pr_summary_regex pr')
                /\ ChangeNote.of_match pr' m = Ok n)
    /\ ((forall pr', In pr' pull_requests -> pr' = pr) -> notes = [note]).
Proof.
  intros Hs Hpr Hb note.
  pose proof (the_matches_fallback pr_summary_regex pr Hb) as Hm.
  destruct (from_pull_requests_spec pr_summary_regex pull_requests Hs)
    as (notes & w & E & N & I).
  assert (Hnote : forall m n,
             In m (the_matches pr_summary_regex pr) ->
             ChangeNote.of_match pr m = Ok n -> n = note).
  { intros m n Hin En. rewrite Hm in Hin. destruct Hin as [<- | []].
    cbv in En. inversion En. reflexivity. }
  assert (Hin : In note notes).
  { apply I. exists pr, (title_match pr). split; [assumption|].
    split; [rewrite Hm; now left | reflexivity]. }
  assert (Hothers : forall n,
             In n notes ->
             n = note
             \/ exists pr' m,
                  In pr' pull_requests /\ pr' <> pr
                  /\ In m (the_matches pr_summary_regex pr')
                  /\ ChangeNote.of_match pr' m = Ok n).
  { intros n Hn. apply I in Hn. destruct Hn as (pr' & m & Hp & Hmm & En).
    destruct (PullRequest_eq_dec pr' pr) as [-> | Hne].
    - left. eapply Hnote; eassumption.
    - right. exists pr', m. auto. }
  exists notes, w. split; [exact E|]. split; [exact N|].
  split; [exact Hin|]. split; [exact Hothers|].
  intros Honly. apply NoDup_all_equal; [assumption | assumption|].
  intros n Hn. destruct (Hothers n Hn) as [-> | (pr' & m & Hp & Hne & _)];
    [reflexivity|].
  exfalso. apply Hne, Honly, Hp.
Qed.

Lemma empty_label_is_explicit_witness :
  exists notes w n,
    (forall st,
        ChangeNote.from_pull_requests [Sample.pr_empty_label]
          Sample.summary_regex st
        = mk_outcome (Ok notes) [] (st ++ w))
    /\ ChangeNote.of_match Sample.pr_empty_label (mk_match (Some "fix") (Some ""))
       = Ok n
    /\ In n notes
    /\ ChangeNote.labels n = [""].
Proof.
  apply (empty_label_is_explicit [Sample.pr_empty_label] Sample.summary_regex
           Sample.pr_empty_label (mk_match (Some "fix") (Some ""))).
  - intros pr' m' [<- | []] Hm. vm_compute in Hm.
    destruct Hm as [<- | []]. discriminate.
  - simpl. auto.
  - vm_compute. auto.
  - reflexivity.
Defined.

(** C1 fails on the code: the body [fix{}] has one match, whose label is
    empty, and the note gets the empty label, not the label [bug] of the
    pull request. *)
Lemma empty_label_counterexample :
  res (ChangeNote.from_pull_requests [Sample.pr_empty_label]
         Sample.summary_regex [])
  = Ok [ChangeNote.mk "fix" "#7" "https://example.org/pull/7" [""] 100]
  /\ [""] <> PullRequest.labels Sample.pr_empty_label.
Proof. split; [vm_compute; reflexivity | discriminate]. Qed.

Lemma labels_of_note_witness :
  exists notes w n,
    (forall st,
        ChangeNote.from_pull_requests [Sample.pr_two_notes]
          Sample.summary_regex st
        = mk_outcome (Ok notes) [] (st ++ w))
    /\ ChangeNote.of_match Sample.pr_two_notes
         (mk_match (Some "Add x") (Some "feature")) = Ok n
    /\ In n notes
    /\ (forall l, Some "feature" = Some l -> ChangeNote.labels n = [l])
    /\ (Some "feature" = None
        -> ChangeNote.labels n = PullRequest.labels Sample.pr_two_notes).
Proof.
  apply (labels_of_note [Sample.pr_two_notes] Sample.summary_regex
           Sample.pr_two_notes (mk_match (Some "Add x") (Some "feature"))).
  - intros pr' m' [<- | []] Hm. vm_compute in Hm.
    destruct Hm as [<- | [<- | []]]; discriminate.
  - simpl. auto.
  - vm_compute. auto.
Defined.

Lemma title_fallback_witness :
  exists notes w,
    (forall st,
        ChangeNote.from_pull_requests [Sample.pr_two_notes; Sample.pr_blank]
          Sample.summary_regex st
        = mk_outcome (Ok notes) [] (st ++ w))
    /\ NoDup notes
    /\ In (ChangeNote.mk "Fix bug" "#12" "https://example.org/pull/12"
             ["bug"] 80) notes
    /\ (forall n,
           In n notes ->
           n = ChangeNote.mk "Fix bug" "#12" "https://example.org/pull/12"
                 ["bug"] 80
           \/ exists pr' m,
                In pr' [Sample.pr_two_notes; Sample.pr_blank]
                /\ pr' <> Sample.pr_blank
                /\ In m (the_matches Sample.summary_regex pr')
                /\ ChangeNote.of_match pr' m = Ok n)
    /\ ((forall pr',
            In pr' [Sample.pr_two_notes; Sample.pr_blank] ->
            pr' = Sample.pr_blank) ->
        notes
        = [ChangeNote.mk "Fix bug" "#12" "https://example.org/pull/12"
             ["bug"] 80]).
Proof.
  refine (title_fallback [Sample.pr_two_notes; Sample.pr_blank]
            Sample.summary_regex Sample.pr_blank _ _ _).
  - intros pr' m' [<- | [<- | []]] Hm; vm_compute in Hm;
      repeat (destruct Hm as [<- | Hm]; [discriminate|]); destruct Hm.
  - simpl. auto.
  - right. right. exists ("  " ++ PyStr.nl ++ " ")%string.
    split; reflexivity.
Defined.

(** The fallback among other requests: the blank body gives the note of
    the title next to the two notes of the other request. *)
Example fallback_in_a_collection :
  res (ChangeNote.from_pull_requests [Sample.pr_two_notes; Sample.pr_blank]
         Sample.summary_regex [])
  = Ok [ ChangeNote.mk "Add x" "#8" "https://example.org/pull/8"
           ["feature"] 90;
         ChangeNote.mk "plain." "#8" "https://example.org/pull/8"
           ["misc"; "docs"] 90;
         ChangeNote.mk "Fix bug" "#12" "https://example.org/pull/12"
           ["bug"] 80 ].
Proof. vm_compute. reflexivity. Qed.

(** ** Classification *)

Lemma od_entry {V} k (d : odict V) :
  In k (od_keys d) -> exists v, In (k, v) d.
Proof.
  unfold od_keys. rewrite in_map_iff. intros ([k' v] & E & Hin).
  simpl in E. subst k'. eauto.
Qed.

Section Matching.
Context `{Runtime}.
Variable self : MdFormatter.t.

Lemma sections_of_In pattern title note :
  In (pattern, title) (MdFormatter.label_section_map self) ->
  note_matches pattern note = true ->
  In title (sections_of self note).
Proof.
  intros Hin Hm. unfold sections_of. apply in_map_iff.
  exists (pattern, title). split; [reflexivity|].
  apply filter_In. auto.
Qed.

Lemma sections_of_nil note :
  (forall pattern title,
      In (pattern, title) (MdFormatter.label_section_map self) ->
      note_matches pattern note = false) ->
  sections_of self note = [].
Proof.
  intros Hno. destruct (sections_of self note) as [|t r] eqn:E; [reflexivity|].
  assert (Ht : In t (sections_of self note)) by (rewrite E; now left).
  unfold sections_of in Ht. apply in_map_iff in Ht.
  destruct Ht as ([p t'] & _ & Hin). apply filter_In in Hin.
  destruct Hin as [Hin Hm]. rewrite (Hno p t' Hin) in Hm. discriminate.
Qed.

Lemma note_matches_iff pattern note :
  note_matches pattern note = true
  <-> exists regex l,
        re_compile pattern [IGNORECASE] = Ok regex
        /\ In l (ChangeNote.labels note)
        /\ match_ regex l <> None.
Proof.
  unfold note_matches, MdFormatter.any_match. split.
  - destruct (re_compile pattern [IGNORECASE]) as [regex|e]; [|discriminate].
    rewrite existsb_exists. intros (l & Hl & Hm).
    exists regex, l. split; [reflexivity|]. split; [assumption|].
    destruct (match_ regex l); [discriminate | discriminate].
  - intros (regex & l & -> & Hl & Hm). apply existsb_exists.
    exists l. split; [assumption|]. now destruct (match_ regex l).
Qed.

Lemma warning_logged note :
  In note (MdFormatter.change_notes self) ->
  sections_of self note = [] ->
  In (unmatched_warning note) (classifier_warnings self).
Proof.
  intros Hin Hs. unfold classifier_warnings, warnings_of.
  apply in_flat_map. exists note. split.
  - eapply Permutation_in; [apply set_iter_perm | exact Hin].
  - rewrite Hs. now left.
Qed.

End Matching.

(** C2: once the patterns of the mapping are compiled, classification
    returns its buckets, and every note is in one of them; a note that no
    pattern matches is in the bucket ["Other"], and a warning with its
    reference URL is logged. *)
Theorem every_note_classified `{Runtime} (self : MdFormatter.t)
  (compiled : list (Pattern * string)) :
  MdFormatter.compile_map self = Ok compiled ->
  exists nbs,
    (forall st,
        MdFormatter._notes_by_section self st
        = mk_outcome (Ok nbs) [] (st ++ classifier_warnings self))
    /\ forall note,
        In note (MdFormatter.change_notes self) ->
        (exists title bucket, In (title, bucket) nbs /\ In note bucket)
        /\ ((forall pattern title,
                In (pattern, title) (MdFormatter.label_section_map self) ->
                note_matches pattern note = false) ->
            (exists bucket, In ("Other", bucket) nbs /\ In note bucket)
            /\ In (mk_log WARNING
                     "%s without matching label, sorting into section 'Other'"
                     (ChangeNote.reference_url note))
                 (classifier_warnings self)).
Proof.
  intros Hc.
  destruct (notes_by_section_spec self compiled Hc) as (nbs & E & K & _ & B).
  exists nbs. split; [exact E|]. intros note Hin.
  assert (Hkey : forall title,
             In title (map snd (MdFormatter.label_section_map self))
             \/ title = "Other" ->
             belongs self title note ->
             exists bucket, In (title, bucket) nbs /\ In note bucket).
  { intros title Ht Hb.
    destruct (od_entry title nbs) as (bucket & Hbk).
    { rewrite K, <- empty_sections_keys. now apply empty_sections_has. }
    exists bucket. split; [assumption|]. apply (B _ _ Hbk). auto. }
  split.
  - destruct (sections_of self note) as [|t r] eqn:Es.
    + exists "Other". apply Hkey; [now right|]. right. auto.
    + exists t. apply Hkey.
      * left. apply (sections_of_configured self note). rewrite Es. now left.
      * left. rewrite Es. now left.
  - intros Hno. apply sections_of_nil in Hno. split.
    + apply Hkey; [now right|]. right. auto.
    + now apply warning_logged.
Qed.

Lemma every_note_classified_witness :
  exists nbs,
    (forall st,
        MdFormatter._notes_by_section Sample.formatter st
        = mk_outcome (Ok nbs) [] (st ++ classifier_warnings Sample.formatter))
    /\ forall note,
        In note (MdFormatter.change_notes Sample.formatter) ->
        (exists title bucket, In (title, bucket) nbs /\ In note bucket)
        /\ ((forall pattern title,
                In (pattern, title)
                  (MdFormatter.label_section_map Sample.formatter) ->
                note_matches pattern note = false) ->
            (exists bucket, In ("Other", bucket) nbs /\ In note bucket)
            /\ In (mk_log WARNING
                     "%s without matching label, sorting into section 'Other'"
                     (ChangeNote.reference_url note))
                 (classifier_warnings Sample.formatter)).
Proof.
  apply (every_note_classified Sample.formatter
           (match MdFormatter.compile_map Sample.formatter with
            | Ok c => c
            | Raise _ => []
            end)).
  vm_compute. reflexivity.
Defined.

(** With the patterns [^bug], [BUG] and [feat]: the label [Bugfix] starts
    with both of the first two up to case, so its note is under both
    titles, once each; the label [debug] holds [bug] but not at its start;
    the note with the label [docs] goes under ["Other"], with a warning. *)
Example classification_of_the_sample :
  MdFormatter._notes_by_section Sample.formatter []
  = mk_outcome
      (Ok [ ("Bug Fixes", [Sample.note_bugfix; Sample.note_bug]);
            ("Triage", [Sample.note_bugfix; Sample.note_bug]);
            ("Features", [Sample.note_feature]);
            ("Other", [Sample.note_docs]) ])
      []
      [unmatched_warning Sample.note_docs].
Proof. vm_compute. reflexivity. Qed.

Example sample_match_is_anchored_and_caseless :
  note_matches "bug" Sample.note_bugfix = true
  /\ note_matches "bugfix pending" Sample.note_bugfix = false
  /\ note_matches "bug" Sample.note_feature = false.
Proof. vm_compute. auto. Qed.

(** ** Rendering *)

Lemma keep_first_distinct seen l :
  NoDup l -> (forall k, In k l -> ~ In k seen) -> keep_first seen l = l.
Proof.
  revert seen. induction l as [|k r IH]; intros seen Hnd Hs; [reflexivity|].
  inversion Hnd as [|? ? Hk Hr]; subst. simpl.
  destruct (existsb (String.eqb k) seen) eqn:E.
  - apply existsb_eqb_In in E. exfalso. apply (Hs k); [now left | assumption].
  - f_equal. apply IH; [assumption|].
    intros k' Hk' Hin. apply in_app_or in Hin.
    destruct Hin as [Hin | [<- | []]]; [|contradiction].
    apply (Hs k'); [now right | assumption].
Qed.

Lemma Sorted_impl {A} (R S : A -> A -> Prop) l :
  (forall x y, R x y -> S x y) -> Sorted R l -> Sorted S l.
Proof.
  intros HRS. induction 1 as [|x l Hl IH Hx]; constructor; [assumption|].
  destruct Hx; constructor; auto.
Qed.

Lemma section_notes_perm `{Runtime} notes :
  Permutation notes (section_notes notes).
Proof.
  unfold section_notes. rewrite <- sorted_perm. apply set_iter_perm.
Qed.

Lemma section_notes_sorted `{Runtime} notes :
  Sorted older_le (section_notes notes).
Proof.
  unfold section_notes.
  eapply Sorted_impl; [|apply sorted_Sorted].
  - intros x y. unfold older_le. apply Z.leb_le.
  - intros a b. rewrite !Z.leb_le. lia.
Qed.

(** C6: the change sections come in the order of the buckets, which is
    the order of the mapping followed by ["Other"] (a title that recurs
    stays where it first stood); an empty bucket gives no line; another
    gives its level-2 heading, a blank line, the lines of its notes by
    non-decreasing time stamp, and a blank line. *)
Theorem change_sections_rendered `{Runtime} (self : MdFormatter.t)
  (title intro outro : string) (compiled : list (Pattern * string)) :
  str_format (MdFormatter.title_template self) (MdFormatter.repo_name self)
    (MdFormatter.version self) = Ok title ->
  str_format (MdFormatter.intro_template self) (MdFormatter.repo_name self)
    (MdFormatter.version self) = Ok intro ->
  str_format (MdFormatter.outro_template self) (MdFormatter.repo_name self)
    (MdFormatter.version self) = Ok outro ->
  MdFormatter.compile_map self = Ok compiled ->
  exists nbs,
    (forall st,
        MdFormatter._notes_by_section self st
        = mk_outcome (Ok nbs) [] (st ++ classifier_warnings self))
    /\ (forall st,
           MdFormatter.iter_lines MdFormatter.methods self st
           = mk_outcome (Ok tt)
               (("# " ++ title ++ PyStr.nl)%string :: PyStr.nl
                :: block_lines intro
                ++ flat_map md_section_lines nbs
                ++ md_contributor_lines self (MdFormatter.authors self)
                     (MdFormatter.reviewers self)
                ++ block_lines outro)
               (st ++ classifier_warnings self))
    /\ od_keys nbs
       = keep_first []
           (map snd (MdFormatter.label_section_map self) ++ ["Other"])
    /\ (NoDup (map snd (MdFormatter.label_section_map self) ++ ["Other"]) ->
        od_keys nbs
        = (map snd (MdFormatter.label_section_map self) ++ ["Other"])%list)
    /\ forall name notes,
        In (name, notes) nbs ->
        (notes = [] -> md_section_lines (name, notes) = [])
        /\ (notes <> [] ->
            exists rendered,
              md_section_lines (name, notes)
              = ([("## " ++ name ++ PyStr.nl)%string; PyStr.nl]
                 ++ map (note_line MdFormatter.methods) rendered
                 ++ [PyStr.nl])%list
              /\ Permutation notes rendered
              /\ Sorted older_le rendered).
Proof.
  intros Ht Hi Ho Hc.
  destruct (notes_by_section_spec self compiled Hc) as (nbs & E & K & _ & _).
  exists nbs. split; [exact E|].
  split; [now apply md_iter_lines_run|].
  split; [exact K|].
  split.
  - intros Hnd. rewrite K. apply keep_first_distinct; [assumption | auto].
  - intros name notes _. split.
    + intros ->. reflexivity.
    + intros Hne. exists (section_notes notes).
      split; [|split; [apply section_notes_perm | apply section_notes_sorted]].
      unfold md_section_lines. cbn [fst snd].
      destruct notes; [congruence | reflexivity].
Qed.

Lemma change_sections_rendered_witness :
  exists nbs,
    (forall st,
        MdFormatter._notes_by_section Sample.formatter st
        = mk_outcome (Ok nbs) [] (st ++ classifier_warnings Sample.formatter))
    /\ (forall st,
           MdFormatter.iter_lines MdFormatter.methods Sample.formatter st
           = mk_outcome (Ok tt)
               (("# " ++ "changelist 1.0" ++ PyStr.nl)%string :: PyStr.nl
                :: block_lines ("Changes of 1.0." ++ PyStr.nl ++ "")
                ++ flat_map md_section_lines nbs
                ++ md_contributor_lines Sample.formatter
                     (MdFormatter.authors Sample.formatter)
                     (MdFormatter.reviewers Sample.formatter)
                ++ block_lines "Thanks.")
               (st ++ classifier_warnings Sample.formatter))
    /\ od_keys nbs
       = keep_first []
           (map snd (MdFormatter.label_section_map Sample.formatter)
            ++ ["Other"])
    /\ (NoDup (map snd (MdFormatter.label_section_map Sample.formatter)
               ++ ["Other"]) ->
        od_keys nbs
        = (map snd (MdFormatter.label_section_map Sample.formatter)
           ++ ["Other"])%list)
    /\ forall name notes,
        In (name, notes) nbs ->
        (notes = [] -> md_section_lines (name, notes) = [])
        /\ (notes <> [] ->
            exists rendered,
              md_section_lines (name, notes)
              = ([("## " ++ name ++ PyStr.nl)%string; PyStr.nl]
                 ++ map (note_line MdFormatter.methods) rendered
                 ++ [PyStr.nl])%list
              /\ Permutation notes rendered
              /\ Sorted older_le rendered).
Proof.
  apply (change_sections_rendered Sample.formatter "changelist 1.0"
           ("Changes of 1.0." ++ PyStr.nl ++ "") "Thanks."
           (match MdFormatter.compile_map Sample.formatter with
            | Ok c => c
            | Raise _ => []
            end)); vm_compute; reflexivity.
Defined.

(** The document of the sample: the sections in the order of the mapping
    and then ["Other"], the notes of each by time stamp. *)
Example document_of_the_sample :
  out (MdFormatter.iter_lines MdFormatter.methods Sample.formatter [])
  = map (fun line => line ++ PyStr.nl)
      [ "# changelist 1.0"; ""; "Changes of 1.0."; "";
        "## Bug Fixes"; "";
        "- Fix a crash ([#4](https://example.org/pull/4)).";
        "- Fix the parser ([#3](https://example.org/pull/3)).";
        "";
        "## Triage"; "";
        "- Fix a crash ([#4](https://example.org/pull/4)).";
        "- Fix the parser ([#3](https://example.org/pull/3)).";
        "";
        "## Features"; "";
        "- Add x ([#1](https://example.org/pull/1)).";
        "";
        "## Other"; "";
        "- Typos ([#2](https://example.org/pull/2)).";
        "";
        "## Contributors"; "";
        "2 authors added to this release (alphabetically):"; "";
        "- [@bob](https://example.org/bob)";
        "- Alice A. ([@Alice](https://example.org/Alice))";
        "";
        "0 reviewers added to this release (alphabetically):"; "";
        "";
        "Thanks." ].
Proof. vm_compute. reflexivity. Qed.

Lemma rstrip_no_dot s : PyStr.last (PyStr.rstrip "." s) <> Some "."%char.
Proof.
  intros E. unfold PyStr.rstrip in E. apply last_rstrip_by in E.
  discriminate.
Qed.

Lemma md_sanitize_text text :
  MdFormatter.sanitize_text text = collapse_newlines (PyStr.strip text).
Proof. unfold MdFormatter.sanitize_text. apply replace_newlines. Qed.

(** C7, as the code has it: the line of a change note is [- ], the
    summary, the link [[name](url)] in parentheses, a period and one
    newline.  The summary is the content stripped of surrounding white
    space, with every pair CR LF and every other LF turned into one space,
    and then stripped of trailing periods.  So the summary holds no LF,
    does not end in a period, and the text it is cut from neither starts
    nor ends with white space. *)
Theorem change_note_line (note : ChangeNote.t) :
  let text := collapse_newlines (PyStr.strip (ChangeNote.content note)) in
  let summary := PyStr.rstrip "." text in
  let link :=
    "[" ++ ChangeNote.reference_name note ++ "]("
    ++ ChangeNote.reference_url note ++ ")" in
  let line := "- " ++ summary ++ " (" ++ link ++ ")." ++ PyStr.nl in
  emits (MdFormatter._format_change_note MdFormatter.methods note) tt [line]
  /\ MdFormatter.sanitize_text (ChangeNote.content note) = text
  /\ PyStr.forallb (fun c => negb (Ascii.eqb c PyStr.LF)) text = true
  /\ (forall c, PyStr.first text = Some c -> PyStr.isspace c = false)
  /\ (forall c, PyStr.last text = Some c -> PyStr.isspace c = false)
  /\ PyStr.last summary <> Some "."%char
  /\ PyStr.last line = Some PyStr.LF.
Proof.
  intros text summary link line.
  assert (Hs : MdFormatter.sanitize_text (ChangeNote.content note) = text)
    by apply md_sanitize_text.
  split.
  - intros st. unfold MdFormatter._format_change_note.
    cbn [_sanitize_text _format_link MdFormatter.methods]. rewrite Hs.
    reflexivity.
  - split; [exact Hs|]. split; [apply collapse_newlines_no_LF|].
    split; [|split].
    + intros c Hc. subst text.
      destruct (PyStr.first (PyStr.strip (ChangeNote.content note)))
        as [d|] eqn:Ed.
      * pose proof (first_strip _ _ Ed) as Hd.
        rewrite (first_collapse_newlines _ _ Ed Hd) in Hc.
        inversion Hc; subst. exact Hd.
      * destruct (PyStr.strip (ChangeNote.content note)); discriminate.
    + intros c Hc. subst text.
      destruct (PyStr.last (PyStr.strip (ChangeNote.content note)))
        as [d|] eqn:Ed.
      * pose proof (last_strip _ _ Ed) as Hd.
        rewrite (last_collapse_newlines _ _ Ed Hd) in Hc.
        inversion Hc; subst. exact Hd.
      * rewrite (last_none _ Ed) in Hc. discriminate.
    + split; [apply rstrip_no_dot|].
      subst line. repeat apply last_append. reflexivity.
Qed.

(** C7 fails on the code: a CR that no LF follows is a line break, and it
    stays in the line. *)
Lemma lone_CR_counterexample :
  let note :=
    ChangeNote.mk ("one" ++ String PyStr.CR "two") "#5"
      "https://example.org/pull/5" [] 0 in
  out (MdFormatter._format_change_note MdFormatter.methods note [])
  = [ "- one" ++ String PyStr.CR "two"
      ++ " ([#5](https://example.org/pull/5))." ++ PyStr.nl ]
  /\ spec_note_line note
     = "- one two ([#5](https://example.org/pull/5))." ++ PyStr.nl
  /\ out (MdFormatter._format_change_note MdFormatter.methods note [])
     <> [spec_note_line note].
Proof.
  cbv zeta. split; [vm_compute; reflexivity|].
  split; [vm_compute; reflexivity|].
  vm_compute. discriminate.
Qed.

Lemma change_note_line_witness :
  emits (MdFormatter._format_change_note MdFormatter.methods Sample.note_bugfix)
    tt ["- Fix the parser ([#3](https://example.org/pull/3))." ++ PyStr.nl].
Proof. apply (change_note_line Sample.note_bugfix). Defined.

(** ** Contributors *)

Section Contributors.
Context `{Runtime}.
Variable self : MdFormatter.t.

Lemma set_iter_In {A} (l : list A) x : In x (set_iter l) <-> In x l.
Proof.
  split; apply Permutation_in; [apply Permutation_sym|]; apply set_iter_perm.
Qed.

Lemma set_iter_nil {A} : set_iter (@nil A) = [].
Proof. apply Permutation_nil, set_iter_perm. Qed.

Lemma not_ignored_In users u :
  In u (MdFormatter.not_ignored self users)
  <-> In u users
      /\ ~ In (NamedUser.login u) (MdFormatter.ignored_user_logins self).
Proof.
  unfold MdFormatter.not_ignored. rewrite filter_In, set_iter_In.
  rewrite negb_true_iff, <- not_true_iff_false, existsb_eqb_In. tauto.
Qed.

Lemma not_ignored_nil users :
  (forall u, In u users ->
             In (NamedUser.login u) (MdFormatter.ignored_user_logins self)) ->
  MdFormatter.not_ignored self users = [].
Proof.
  intros Hall.
  destruct (MdFormatter.not_ignored self users) as [|u r] eqn:E;
    [reflexivity|].
  assert (Hu : In u (MdFormatter.not_ignored self users))
    by (rewrite E; now left).
  apply not_ignored_In in Hu. destruct Hu as [Hu Hn].
  exfalso. apply Hn, Hall, Hu.
Qed.

Lemma user_lines_perm cls users :
  Permutation (map (MdFormatter._format_user_line cls) users)
    (MdFormatter.user_lines cls users).
Proof.
  unfold MdFormatter.user_lines. rewrite <- sorted_perm.
  apply Permutation_map, set_iter_perm.
Qed.

Lemma user_lines_sorted cls users :
  Sorted lower_le (MdFormatter.user_lines cls users).
Proof.
  unfold MdFormatter.user_lines, lower_le.
  apply (sorted_Sorted String.leb PyStr.lower String.leb_total).
Qed.

Lemma user_lines_nil cls : MdFormatter.user_lines cls [] = [].
Proof. unfold MdFormatter.user_lines. now rewrite set_iter_nil. Qed.

End Contributors.

(** C8: in the contributor section the authors and then the reviewers are
    those whose login is not ignored; the count lines count them after the
    exclusion; and the lines of each list are the lines of those
    contributors, in non-decreasing order of the lower-cased line. *)
Theorem contributors_rendered `{Runtime} (self : MdFormatter.t)
  (authors reviewers : list NamedUser.t) :
  let kept_authors := MdFormatter.not_ignored self authors in
  let kept_reviewers := MdFormatter.not_ignored self reviewers in
  let author_lines := MdFormatter.user_lines MdFormatter.methods kept_authors in
  let reviewer_lines :=
    MdFormatter.user_lines MdFormatter.methods kept_reviewers in
  emits
    (MdFormatter._format_contributor_section MdFormatter.methods self
       authors reviewers) tt
    ([ "## Contributors" ++ PyStr.nl; PyStr.nl;
       PyStr.of_len (length kept_authors)
       ++ " authors added to this release (alphabetically):" ++ PyStr.nl;
       PyStr.nl ]
     ++ author_lines
     ++ [ PyStr.nl;
          PyStr.of_len (length kept_reviewers)
          ++ " reviewers added to this release (alphabetically):" ++ PyStr.nl;
          PyStr.nl ]
     ++ reviewer_lines
     ++ [ PyStr.nl ])
  /\ (forall u,
         In u kept_authors
         <-> In u authors
             /\ ~ In (NamedUser.login u) (MdFormatter.ignored_user_logins self))
  /\ (forall u,
         In u kept_reviewers
         <-> In u reviewers
             /\ ~ In (NamedUser.login u) (MdFormatter.ignored_user_logins self))
  /\ Permutation
       (map (MdFormatter._format_user_line MdFormatter.methods) kept_authors)
       author_lines
  /\ Permutation
       (map (MdFormatter._format_user_line MdFormatter.methods) kept_reviewers)
       reviewer_lines
  /\ Sorted lower_le author_lines
  /\ Sorted lower_le reviewer_lines.
Proof.
  cbv zeta. split; [apply contributor_section_emits|].
  split; [apply not_ignored_In|]. split; [apply not_ignored_In|].
  split; [apply user_lines_perm|]. split; [apply user_lines_perm|].
  split; apply user_lines_sorted.
Qed.

Lemma contributors_rendered_witness :
  emits
    (MdFormatter._format_contributor_section MdFormatter.methods
       Sample.formatter [Sample.bob; Sample.bot; Sample.alice] [Sample.bot]) tt
    (map (fun line => line ++ PyStr.nl)
       [ "## Contributors"; "";
         "2 authors added to this release (alphabetically):"; "";
         "- [@bob](https://example.org/bob)";
         "- Alice A. ([@Alice](https://example.org/Alice))";
         "";
         "0 reviewers added to this release (alphabetically):"; "";
         "" ]).
Proof.
  exact (proj1 (contributors_rendered Sample.formatter
                  [Sample.bob; Sample.bot; Sample.alice] [Sample.bot])).
Defined.

(** C10: the contributor section always has its heading and its two count
    lines; when every author and reviewer is ignored, or there is none, the
    counts are 0 and the section is these eight lines.  A change section
    without notes has no line. *)
Theorem contributors_always_emitted `{Runtime} (self : MdFormatter.t)
  (authors reviewers : list NamedUser.t) :
  (exists n_authors n_reviewers author_lines reviewer_lines,
      emits
        (MdFormatter._format_contributor_section MdFormatter.methods self
           authors reviewers) tt
        ([ "## Contributors" ++ PyStr.nl; PyStr.nl;
           PyStr.of_len n_authors
           ++ " authors added to this release (alphabetically):" ++ PyStr.nl;
           PyStr.nl ]
         ++ author_lines
         ++ [ PyStr.nl;
              PyStr.of_len n_reviewers
              ++ " reviewers added to this release (alphabetically):"
              ++ PyStr.nl;
              PyStr.nl ]
         ++ reviewer_lines
         ++ [ PyStr.nl ]))
  /\ ((forall u, In u authors ->
                 In (NamedUser.login u) (MdFormatter.ignored_user_logins self)) ->
      (forall u, In u reviewers ->
                 In (NamedUser.login u) (MdFormatter.ignored_user_logins self)) ->
      emits
        (MdFormatter._format_contributor_section MdFormatter.methods self
           authors reviewers) tt
        [ "## Contributors" ++ PyStr.nl; PyStr.nl;
          "0 authors added to this release (alphabetically):" ++ PyStr.nl;
          PyStr.nl; PyStr.nl;
          "0 reviewers added to this release (alphabetically):" ++ PyStr.nl;
          PyStr.nl; PyStr.nl ])
  /\ forall title,
      emits (MdFormatter._format_change_section MdFormatter.methods title [])
        tt [].
Proof.
  split; [|split].
  - do 4 eexists. apply contributor_section_emits.
  - intros Ha Hr st. rewrite contributor_section_emits.
    unfold md_contributor_lines.
    rewrite (not_ignored_nil self authors Ha),
      (not_ignored_nil self reviewers Hr), user_lines_nil.
    reflexivity.
  - intros title. apply emits_ret.
Qed.

Lemma contributors_always_emitted_witness :
  emits
    (MdFormatter._format_contributor_section MdFormatter.methods
       Sample.formatter [Sample.bot] []) tt
    [ "## Contributors" ++ PyStr.nl; PyStr.nl;
      "0 authors added to this release (alphabetically):" ++ PyStr.nl;
      PyStr.nl; PyStr.nl;
      "0 reviewers added to this release (alphabetically):" ++ PyStr.nl;
      PyStr.nl; PyStr.nl ].
Proof.
  apply (contributors_always_emitted Sample.formatter [Sample.bot] []).
  - intros u [<- | []]. simpl. auto.
  - intros u [].
Defined.

(** * Further properties *)

(** ** Extraction: errors, provenance and duplicates *)

Lemma res_bind_ok {A B} (m : Py A) (f : A -> Py B) st a la st1 :
  m st = mk_outcome (Ok a) la st1 -> res (bind m f st) = res (f a st1).
Proof. intros Hm. unfold bind. cbv zeta. now rewrite !Hm. Qed.

Lemma res_bind_raise {A B} (m : Py A) (f : A -> Py B) st e :
  res (m st) = Raise e -> res (bind m f st) = Raise e.
Proof. intros Hm. unfold bind. cbv zeta. now rewrite !Hm. Qed.

Lemma out_bind_raise {A B} (m : Py A) (f : A -> Py B) st e :
  res (m st) = Raise e -> out (bind m f st) = out (m st).
Proof. intros Hm. unfold bind. cbv zeta. now rewrite !Hm. Qed.

Lemma has_summary_true m : has_summary m = true <-> summary m <> None.
Proof.
  unfold has_summary. destruct (summary m); split; congruence.
Qed.

Section ExtractionErrors.
Context `{Runtime}.
Variable pr_summary_regex : Pattern.

Lemma inner_loop_raises pr ms :
  (exists m, In m ms /\ summary m = None) ->
  forall notes st,
    res (for_fold ms
           (fun notes m =>
              n <- lift (ChangeNote.of_match pr m) ;;
              ret (ChangeNote.set_add n notes))
           notes st)
    = Raise no_summary_error.
Proof.
  induction ms as [|m r IH]; intros (m0 & Hin & Hs) notes st;
    [destruct Hin|].
  cbn [for_fold].
  destruct (summary m) as [s|] eqn:Es.
  - erewrite res_bind_ok.
    2:{ unfold ChangeNote.of_match. rewrite Es. reflexivity. }
    apply IH. exists m0. split; [|assumption].
    destruct Hin as [<- | Hin]; [congruence | assumption].
  - apply res_bind_raise. unfold ChangeNote.of_match. rewrite Es. reflexivity.
Qed.

Lemma outer_loop_raises prs :
  (exists pr m,
      In pr prs /\ In m (the_matches pr_summary_regex pr) /\ summary m = None) ->
  forall notes st,
    res (for_fold prs
           (fun notes pr =>
              matches <- ChangeNote.matches_of pr_summary_regex pr ;;
              for_fold matches
                (fun notes m =>
                   n <- lift (ChangeNote.of_match pr m) ;;
                   ret (ChangeNote.set_add n notes))
                notes)
           notes st)
    = Raise no_summary_error.
Proof.
  induction prs as [|pr r IH]; intros (pr0 & m0 & Hin & Hm & Hs) notes st;
    [destruct Hin|].
  cbn [for_fold].
  destruct (matches_of_run pr_summary_regex pr) as (w & Ew).
  destruct (forallb has_summary (the_matches pr_summary_regex pr)) eqn:Eall.
  - rewrite forallb_forall in Eall.
    destruct (notes_of_matches pr (the_matches pr_summary_regex pr)
                (fun m Hm' => proj1 (has_summary_true m) (Eall m Hm')) notes)
      as (n1 & E1 & _).
    erewrite res_bind_ok.
    2:{ change (@nil string) with ([] ++ @nil string)%list.
        eapply run_bind; [apply Ew | apply E1]. }
    apply IH. exists pr0, m0. split; [|auto].
    destruct Hin as [<- | Hin]; [|assumption].
    specialize (Eall m0 Hm). apply has_summary_true in Eall. congruence.
  - apply res_bind_raise. erewrite res_bind_ok; [|apply Ew].
    apply inner_loop_raises.
    assert (Hex : existsb (fun m => negb (has_summary m))
                    (the_matches pr_summary_regex pr) = true).
    { clear -Eall. induction (the_matches pr_summary_regex pr) as [|m l IHl];
        [discriminate|].
      simpl in *. destruct (has_summary m); simpl in *; auto. }
    apply existsb_exists in Hex. destruct Hex as (m & Hm' & Hb).
    exists m. split; [assumption|].
    unfold has_summary in Hb. now destruct (summary m).
Qed.

(** Either every match has its summary, or some match lacks it. *)
Lemma summaries_decided prs :
  (forall pr m,
      In pr prs -> In m (the_matches pr_summary_regex pr) -> summary m <> None)
  \/ (exists pr m,
         In pr prs /\ In m (the_matches pr_summary_regex pr)
         /\ summary m = None).
Proof.
  induction prs as [|pr r [IH | (pr0 & m0 & Hin & Hm)]].
  - left. intros pr m [].
  - destruct (forallb has_summary (the_matches pr_summary_regex pr)) eqn:Eall.
    + left. rewrite forallb_forall in Eall.
      intros pr' m [<- | Hin] Hm; [|exact (IH pr' m Hin Hm)].
      apply has_summary_true, Eall, Hm.
    + right.
      assert (Hex : existsb (fun m => negb (has_summary m))
                      (the_matches pr_summary_regex pr) = true).
      { clear -Eall. induction (the_matches pr_summary_regex pr) as [|m l IHl];
          [discriminate|].
        simpl in *. destruct (has_summary m); simpl in *; auto. }
      apply existsb_exists in Hex. destruct Hex as (m & Hm' & Hb).
      exists pr, m. split; [now left|]. split; [assumption|].
      unfold has_summary in Hb. now destruct (summary m).
  - right. exists pr0, m0. split; [now right | assumption].
Qed.

(** What a successful extraction returned. *)
Lemma from_pull_requests_ok pull_requests st notes :
  res (ChangeNote.from_pull_requests pull_requests pr_summary_regex st)
  = Ok notes ->
  NoDup notes
  /\ forall n,
      In n notes
      <-> exists pr m,
            In pr pull_requests /\ In m (the_matches pr_summary_regex pr)
            /\ ChangeNote.of_match pr m = Ok n.
Proof.
  intros Hres.
  destruct (summaries_decided pull_requests) as [Hall | (pr & m & Hin & Hm & Hs)].
  - destruct (from_pull_requests_spec pr_summary_regex pull_requests Hall)
      as (notes' & w & E & N & I).
    rewrite E in Hres. simpl in Hres. inversion Hres; subst notes'. auto.
  - exfalso. unfold ChangeNote.from_pull_requests in Hres.
    rewrite outer_loop_raises in Hres; [discriminate|].
    exists pr, m. split; [|auto].
    eapply Permutation_in; [apply set_iter_perm | exact Hin].
Qed.

End ExtractionErrors.

Lemma from_pull_requests_raises `{Runtime} pull_requests pr_summary_regex
  pr m st :
  In pr pull_requests ->
  In m (the_matches pr_summary_regex pr) ->
  summary m = None ->
  res (ChangeNote.from_pull_requests pull_requests pr_summary_regex st)
  = Raise no_summary_error.
Proof.
  intros Hin Hm Hs. unfold ChangeNote.from_pull_requests.
  apply outer_loop_raises. exists pr, m. split; [|auto].
  eapply Permutation_in; [apply set_iter_perm | exact Hin].
Qed.

(** X1: when the summary group of some match of some pull request took no
    part in the match, extraction raises the [AttributeError] of
    [summary.strip()] and returns no note. *)
Theorem extraction_raises_without_summary `{Runtime}
  (pull_requests : list PullRequest.t) (pr_summary_regex : Pattern)
  (pr : PullRequest.t) (m : Match) :
  In pr pull_requests ->
  In m (the_matches pr_summary_regex pr) ->
  summary m = None ->
  forall st,
    res (ChangeNote.from_pull_requests pull_requests pr_summary_regex st)
    = Raise (AttributeError "'NoneType' object has no attribute 'strip'").
Proof.
  intros Hin Hm Hs st.
  now apply (from_pull_requests_raises pull_requests pr_summary_regex pr m).
Qed.

Lemma extraction_raises_without_summary_witness :
  res (ChangeNote.from_pull_requests [Sample.pr_blank; Cases.pr_no_summary]
         Cases.either_regex [])
  = Raise (AttributeError "'NoneType' object has no attribute 'strip'").
Proof.
  apply (extraction_raises_without_summary
           [Sample.pr_blank; Cases.pr_no_summary] Cases.either_regex
           Cases.pr_no_summary (mk_match None (Some "y"))).
  - simpl. auto.
  - vm_compute. auto.
  - reflexivity.
Defined.

Lemma lstrip_by_id p s :
  (forall c, PyStr.first s = Some c -> p c = false) -> PyStr.lstrip_by p s = s.
Proof.
  destruct s as [|c r]; [reflexivity|]. intros Hc. simpl.
  now rewrite (Hc c eq_refl).
Qed.

Lemma rstrip_by_id p s :
  (forall c, PyStr.last s = Some c -> p c = false) -> PyStr.rstrip_by p s = s.
Proof.
  induction s as [|c r IH]; [reflexivity|]. intros Hc.
  cbn [PyStr.rstrip_by]. destruct r as [|d r'].
  - simpl. now rewrite (Hc c eq_refl).
  - rewrite IH; [reflexivity|]. intros x Hx. apply Hc. exact Hx.
Qed.

Lemma strip_id s :
  (forall c, PyStr.first s = Some c -> PyStr.isspace c = false) ->
  (forall c, PyStr.last s = Some c -> PyStr.isspace c = false) ->
  PyStr.strip s = s.
Proof.
  intros Hf Hl. unfold PyStr.strip.
  rewrite (lstrip_by_id _ _ Hf). now apply rstrip_by_id.
Qed.

Lemma strip_idem s : PyStr.strip (PyStr.strip s) = PyStr.strip s.
Proof. apply strip_id; [apply first_strip | apply last_strip]. Qed.

(** X2: every note of a successful extraction comes from one of the pull
    requests: its reference name is [#] and the number of that request,
    its URL and time stamp are those of the request, its labels are the
    names of the request's labels or one explicit label, and its content
    is stripped (stripping it again changes nothing). *)
Theorem notes_come_from_pull_requests `{Runtime}
  (pull_requests : list PullRequest.t) (pr_summary_regex : Pattern)
  (st : list log_record) (notes : list ChangeNote.t) :
  res (ChangeNote.from_pull_requests pull_requests pr_summary_regex st)
  = Ok notes ->
  forall n,
    In n notes ->
    exists pr,
      In pr pull_requests
      /\ ChangeNote.reference_name n
         = "#" ++ PyStr.of_int (PullRequest.number pr)
      /\ ChangeNote.reference_url n = PullRequest.html_url pr
      /\ ChangeNote.timestamp n = PullRequest.merged_at pr
      /\ (ChangeNote.labels n = PullRequest.labels pr
          \/ exists l, ChangeNote.labels n = [l])
      /\ PyStr.strip (ChangeNote.content n) = ChangeNote.content n.
Proof.
  intros Hres n Hn.
  destruct (from_pull_requests_ok pr_summary_regex _ _ _ Hres) as [_ I].
  apply I in Hn. destruct Hn as (pr & m & Hpr & _ & Em).
  exists pr. split; [assumption|].
  unfold ChangeNote.of_match in Em.
  destruct (summary m) as [s|]; [|discriminate].
  inversion Em; subst n; clear Em. cbn.
  repeat split; try reflexivity.
  - destruct (label m); [right; eauto | now left].
  - apply strip_idem.
Qed.

Lemma notes_come_from_pull_requests_witness :
  exists pr,
    In pr [Sample.pr_two_notes]
    /\ "#8" = "#" ++ PyStr.of_int (PullRequest.number pr)
    /\ "https://example.org/pull/8" = PullRequest.html_url pr
    /\ 90%Z = PullRequest.merged_at pr
    /\ (["feature"] = PullRequest.labels pr
        \/ exists l, ["feature"] = [l])
    /\ PyStr.strip "Add x" = "Add x".
Proof.
  refine (notes_come_from_pull_requests [Sample.pr_two_notes]
            Sample.summary_regex []
            [ ChangeNote.mk "Add x" "#8" "https://example.org/pull/8"
                ["feature"] 90;
              ChangeNote.mk "plain." "#8" "https://example.org/pull/8"
                ["misc"; "docs"] 90 ]
            _
            (ChangeNote.mk "Add x" "#8" "https://example.org/pull/8"
               ["feature"] 90)
            _).
  - vm_compute. reflexivity.
  - simpl. auto.
Defined.

Lemma candidate_notes_length pr_summary_regex prs :
  length (candidate_notes pr_summary_regex prs)
  <= length (flat_map (the_matches pr_summary_regex) prs).
Proof.
  unfold candidate_notes. induction prs as [|pr r IH]; [apply Nat.le_refl|].
  cbn [flat_map]. rewrite !length_app.
  apply Nat.add_le_mono; [|exact IH].
  induction (the_matches pr_summary_regex pr) as [|m l IHl];
    [apply Nat.le_refl|].
  cbn [flat_map]. rewrite length_app.
  destruct (ChangeNote.of_match pr m); simpl; lia.
Qed.

Lemma candidate_notes_In pr_summary_regex prs n :
  In n (candidate_notes pr_summary_regex prs)
  <-> exists pr m,
        In pr prs /\ In m (the_matches pr_summary_regex pr)
        /\ ChangeNote.of_match pr m = Ok n.
Proof.
  unfold candidate_notes. rewrite in_flat_map. split.
  - intros (pr & Hpr & Hn). apply in_flat_map in Hn.
    destruct Hn as (m & Hm & Hn). exists pr, m.
    destruct (ChangeNote.of_match pr m) as [n'|e]; [|destruct Hn].
    destruct Hn as [<- | []]. auto.
  - intros (pr & m & Hpr & Hm & En). exists pr. split; [assumption|].
    apply in_flat_map. exists m. split; [assumption|].
    rewrite En. now left.
Qed.

(** X3: a successful extraction returns no note twice and at most as many
    notes as the pull requests have matches (a request without a match in
    its body counting for one, its title): the set drops the notes that
    are equal field by field. *)
Theorem notes_are_distinct_and_bounded `{Runtime}
  (pull_requests : list PullRequest.t) (pr_summary_regex : Pattern)
  (st : list log_record) (notes : list ChangeNote.t) :
  res (ChangeNote.from_pull_requests pull_requests pr_summary_regex st)
  = Ok notes ->
  NoDup notes
  /\ length notes
     <= length (flat_map (the_matches pr_summary_regex) pull_requests).
Proof.
  intros Hres.
  destruct (from_pull_requests_ok pr_summary_regex _ _ _ Hres) as [N I].
  split; [exact N|].
  eapply Nat.le_trans; [|apply candidate_notes_length].
  apply NoDup_incl_length; [exact N|].
  intros n Hn. apply candidate_notes_In, I, Hn.
Qed.

Lemma notes_are_distinct_and_bounded_witness :
  NoDup [ ChangeNote.mk "Fix bug" "#12" "https://example.org/pull/12"
            ["bug"] 80 ]
  /\ length [ ChangeNote.mk "Fix bug" "#12" "https://example.org/pull/12"
                ["bug"] 80 ]
     <= length (flat_map (the_matches Sample.summary_regex)
                  [Sample.pr_blank; Sample.pr_blank]).
Proof.
  apply (notes_are_distinct_and_bounded [Sample.pr_blank; Sample.pr_blank]
           Sample.summary_regex []).
  vm_compute. reflexivity.
Defined.

(** X4: the notes extracted do not depend on the order in which the set of
    pull requests is iterated, nor on a request being given twice: two
    collections with the same requests, under any two iteration orders,
    give the same notes up to their order, or both raise. *)
Theorem extraction_ignores_order (R1 R2 : Runtime)
  (prs1 prs2 : list PullRequest.t) (pr_summary_regex : Pattern)
  (st1 st2 : list log_record) (notes1 : list ChangeNote.t) :
  (forall pr, In pr prs1 <-> In pr prs2) ->
  res (@ChangeNote.from_pull_requests R1 prs1 pr_summary_regex st1)
  = Ok notes1 ->
  exists notes2,
    res (@ChangeNote.from_pull_requests R2 prs2 pr_summary_regex st2)
    = Ok notes2
    /\ Permutation notes1 notes2.
Proof.
  intros Hsame Hres.
  destruct (@from_pull_requests_ok R1 pr_summary_regex _ _ _ Hres) as [N1 I1].
  destruct (summaries_decided pr_summary_regex prs2)
    as [Hall | (pr & m & Hin & Hm & Hs)].
  - destruct (@from_pull_requests_spec R2 pr_summary_regex prs2 Hall)
      as (notes2 & w & E & N2 & I2).
    exists notes2. split; [now rewrite E|].
    apply NoDup_Permutation; [assumption | assumption|].
    intros n. rewrite I1, I2.
    split; intros (pr & m & Hpr & Hm); exists pr, m;
      (split; [apply Hsame, Hpr | exact Hm]).
  - exfalso. apply Hsame in Hin.
    rewrite (@from_pull_requests_raises R1 prs1 pr_summary_regex pr m st1
               Hin Hm Hs) in Hres.
    discriminate.
Qed.

Lemma extraction_ignores_order_witness :
  exists notes2,
    res (@ChangeNote.from_pull_requests Cases.reversing
           [Sample.pr_two_notes; Sample.pr_empty_label; Sample.pr_two_notes]
           Sample.summary_regex [])
    = Ok notes2
    /\ Permutation
         [ ChangeNote.mk "fix" "#7" "https://example.org/pull/7" [""] 100;
           ChangeNote.mk "Add x" "#8" "https://example.org/pull/8"
             ["feature"] 90;
           ChangeNote.mk "plain." "#8" "https://example.org/pull/8"
             ["misc"; "docs"] 90 ]
         notes2.
Proof.
  apply (extraction_ignores_order Sample.runtime Cases.reversing
           [Sample.pr_empty_label; Sample.pr_two_notes]
           [Sample.pr_two_notes; Sample.pr_empty_label; Sample.pr_two_notes]
           Sample.summary_regex [] []).
  - intros pr. simpl. tauto.
  - vm_compute. reflexivity.
Defined.

(** ** Classification: what the buckets hold, and failure *)

Section BucketContents.
Context `{Runtime}.
Variable self : MdFormatter.t.

Lemma sections_of_In_inv title note :
  In title (sections_of self note) ->
  exists pattern,
    In (pattern, title) (MdFormatter.label_section_map self)
    /\ note_matches pattern note = true.
Proof.
  unfold sections_of. rewrite in_map_iff.
  intros ([p t] & E & Hin). simpl in E. subst t.
  apply filter_In in Hin. exists p. exact Hin.
Qed.

Lemma sections_of_nil_inv note :
  sections_of self note = [] ->
  forall pattern title,
    In (pattern, title) (MdFormatter.label_section_map self) ->
    note_matches pattern note = false.
Proof.
  intros Hs pattern title Hin.
  destruct (note_matches pattern note) eqn:E; [|reflexivity].
  pose proof (sections_of_In self pattern title note Hin E) as Ht.
  rewrite Hs in Ht. destruct Ht.
Qed.

Lemma unmatched_true note : unmatched self note = true <-> sections_of self note = [].
Proof.
  unfold unmatched. destruct (sections_of self note); split; congruence.
Qed.

Lemma warnings_of_length notes :
  length (warnings_of (sections_of self) notes)
  = length (filter (unmatched self) notes).
Proof.
  unfold warnings_of, unmatched. induction notes as [|n r IH]; [reflexivity|].
  cbn [flat_map filter]. rewrite length_app.
  destruct (sections_of self n); simpl; rewrite IH; reflexivity.
Qed.

Lemma compile_map_first_error good pattern title rest e :
  MdFormatter.label_section_map self = (good ++ (pattern, title) :: rest)%list ->
  (forall p t, In (p, t) good -> exists regex, re_compile p [IGNORECASE] = Ok regex) ->
  re_compile pattern [IGNORECASE] = Raise e ->
  MdFormatter.compile_map self = Raise e.
Proof.
  intros Hmap Hgood Hbad. unfold MdFormatter.compile_map. rewrite Hmap.
  clear Hmap. induction good as [|[p t] g IH]; simpl.
  - now rewrite Hbad.
  - destruct (Hgood p t (or_introl eq_refl)) as (regex & ->).
    rewrite IH; [reflexivity|].
    intros p' t' Hin. apply (Hgood p' t'). now right.
Qed.

End BucketContents.

(** X5: a bucket never holds a note that does not belong there: a note in
    the bucket of a title is one of the change notes, and either a pattern
    mapped to that title matches it, or the title is ["Other"] and no
    pattern of the mapping matches it.  No title has two buckets. *)
Theorem buckets_hold_only_matching_notes `{Runtime} (self : MdFormatter.t)
  (compiled : list (Pattern * string)) :
  MdFormatter.compile_map self = Ok compiled ->
  exists nbs,
    (forall st,
        MdFormatter._notes_by_section self st
        = mk_outcome (Ok nbs) [] (st ++ classifier_warnings self))
    /\ NoDup (od_keys nbs)
    /\ forall title bucket note,
        In (title, bucket) nbs ->
        In note bucket ->
        In note (MdFormatter.change_notes self)
        /\ ((exists pattern,
                In (pattern, title) (MdFormatter.label_section_map self)
                /\ note_matches pattern note = true)
            \/ (title = "Other"
                /\ forall pattern t,
                    In (pattern, t) (MdFormatter.label_section_map self) ->
                    note_matches pattern note = false)).
Proof.
  intros Hc.
  destruct (notes_by_section_spec self compiled Hc) as (nbs & E & _ & N & B).
  exists nbs. split; [exact E|]. split; [exact N|].
  intros title bucket note Hb Hn.
  apply (B _ _ Hb) in Hn. destruct Hn as [Hin [Ht | [Hs ->]]].
  - split; [assumption|]. left. now apply sections_of_In_inv.
  - split; [assumption|]. right. split; [reflexivity|].
    now apply sections_of_nil_inv.
Qed.

Lemma buckets_hold_only_matching_notes_witness :
  exists nbs,
    (forall st,
        MdFormatter._notes_by_section Sample.formatter st
        = mk_outcome (Ok nbs) [] (st ++ classifier_warnings Sample.formatter))
    /\ NoDup (od_keys nbs)
    /\ forall title bucket note,
        In (title, bucket) nbs ->
        In note bucket ->
        In note (MdFormatter.change_notes Sample.formatter)
        /\ ((exists pattern,
                In (pattern, title)
                  (MdFormatter.label_section_map Sample.formatter)
                /\ note_matches pattern note = true)
            \/ (title = "Other"
                /\ forall pattern t,
                    In (pattern, t)
                      (MdFormatter.label_section_map Sample.formatter) ->
                    note_matches pattern note = false)).
Proof.
  apply (buckets_hold_only_matching_notes Sample.formatter
           (match MdFormatter.compile_map Sample.formatter with
            | Ok c => c
            | Raise _ => []
            end)).
  vm_compute. reflexivity.
Defined.

(** X6: when the change notes are distinct and no section is itself
    titled ["Other"], the bucket ["Other"] holds exactly the notes that no
    pattern matches, and classification logs one warning for each of
    them and nothing else. *)
Theorem one_warning_per_other_note `{Runtime} (self : MdFormatter.t)
  (compiled : list (Pattern * string)) :
  MdFormatter.compile_map self = Ok compiled ->
  NoDup (MdFormatter.change_notes self) ->
  ~ In "Other" (map snd (MdFormatter.label_section_map self)) ->
  exists nbs other,
    (forall st,
        MdFormatter._notes_by_section self st
        = mk_outcome (Ok nbs) [] (st ++ classifier_warnings self))
    /\ od_get "Other" nbs = Some other
    /\ (forall note,
           In note other
           <-> In note (MdFormatter.change_notes self)
               /\ unmatched self note = true)
    /\ length (classifier_warnings self) = length other
    /\ forall r,
        In r (classifier_warnings self) ->
        exists note, In note other /\ r = unmatched_warning note.
Proof.
  intros Hc Hnd Hno.
  destruct (notes_by_section_spec self compiled Hc) as (nbs & E & K & N & B).
  destruct (od_entry "Other" nbs) as (other & Ho).
  { rewrite K, <- empty_sections_keys. apply empty_sections_has. now right. }
  assert (Hmem : forall note,
             In note other
             <-> In note (MdFormatter.change_notes self)
                 /\ unmatched self note = true).
  { intros note. rewrite (proj2 (B _ _ Ho) note), unmatched_true.
    unfold belongs. split.
    - intros [Hin [Ht | [Hs _]]]; [|auto].
      exfalso. apply Hno. eapply sections_of_configured, Ht.
    - intros [Hin Hs]. auto. }
  exists nbs, other. split; [exact E|].
  split; [now apply od_get_In|]. split; [exact Hmem|]. split.
  - unfold classifier_warnings. rewrite warnings_of_length.
    apply Permutation_length, NoDup_Permutation.
    + apply NoDup_filter.
      eapply Permutation_NoDup; [apply set_iter_perm | exact Hnd].
    + apply (B _ _ Ho).
    + intros note. rewrite filter_In, Hmem, set_iter_In. tauto.
  - intros r Hr. unfold classifier_warnings, warnings_of in Hr.
    apply in_flat_map in Hr. destruct Hr as (note & Hin & Hr).
    exists note. apply (proj1 (set_iter_In _ _)) in Hin.
    destruct (sections_of self note) eqn:Es; [|destruct Hr].
    destruct Hr as [<- | []]. split; [|reflexivity].
    apply Hmem. split; [assumption|]. now apply unmatched_true.
Qed.

Lemma one_warning_per_other_note_witness :
  exists nbs other,
    (forall st,
        MdFormatter._notes_by_section Sample.formatter st
        = mk_outcome (Ok nbs) [] (st ++ classifier_warnings Sample.formatter))
    /\ od_get "Other" nbs = Some other
    /\ (forall note,
           In note other
           <-> In note (MdFormatter.change_notes Sample.formatter)
               /\ unmatched Sample.formatter note = true)
    /\ length (classifier_warnings Sample.formatter) = length other
    /\ forall r,
        In r (classifier_warnings Sample.formatter) ->
        exists note, In note other /\ r = unmatched_warning note.
Proof.
  apply (one_warning_per_other_note Sample.formatter
           (match MdFormatter.compile_map Sample.formatter with
            | Ok c => c
            | Raise _ => []
            end)).
  - vm_compute. reflexivity.
  - repeat constructor; simpl; intuition discriminate.
  - simpl. intuition discriminate.
Defined.

(** X7: a pattern of the mapping that does not compile stops a traversal
    at classification, with the error of the first such pattern: the
    title and the intro block have been yielded by then, no note is
    classified, nothing is logged, and the document string is not
    produced. *)
Theorem bad_pattern_stops_after_intro `{Runtime} (self : MdFormatter.t)
  (title intro : string) (good rest : list (string * string))
  (pattern section_name : string) (e : exn) :
  str_format (MdFormatter.title_template self) (MdFormatter.repo_name self)
    (MdFormatter.version self) = Ok title ->
  str_format (MdFormatter.intro_template self) (MdFormatter.repo_name self)
    (MdFormatter.version self) = Ok intro ->
  MdFormatter.label_section_map self
  = (good ++ (pattern, section_name) :: rest)%list ->
  (forall p t, In (p, t) good ->
               exists regex, re_compile p [IGNORECASE] = Ok regex) ->
  re_compile pattern [IGNORECASE] = Raise e ->
  forall st,
    MdFormatter._notes_by_section self st = mk_outcome (Raise e) [] st
    /\ MdFormatter.iter_lines MdFormatter.methods self st
       = mk_outcome (Raise e)
           (("# " ++ title ++ PyStr.nl)%string :: PyStr.nl
            :: block_lines intro)
           st
    /\ MdFormatter.document MdFormatter.methods self st
       = mk_outcome (Raise e) [] st.
Proof.
  intros Ht Hi Hmap Hgood Hbad st.
  pose proof (compile_map_first_error self good pattern section_name rest e
                Hmap Hgood Hbad) as Hc.
  assert (Hn : forall s,
             MdFormatter._notes_by_section self s = mk_outcome (Raise e) [] s).
  { intros s. unfold MdFormatter._notes_by_section, bind. cbv zeta.
    rewrite Hc. reflexivity. }
  assert (Hl : MdFormatter.iter_lines MdFormatter.methods self st
               = mk_outcome (Raise e)
                   (("# " ++ title ++ PyStr.nl)%string :: PyStr.nl
                    :: block_lines intro) st).
  { unfold MdFormatter.iter_lines. rewrite Ht.
    enough (exists l,
               (x <- lift (Ok title) ;;
                _format_section_title MdFormatter.methods x 1 ;;
                yield PyStr.nl ;;
                MdFormatter._format_intro self ;;
                notes_by_section <- MdFormatter._notes_by_section self ;;
                for_each notes_by_section
                  (fun '(title, notes) =>
                     MdFormatter._format_change_section MdFormatter.methods
                       title notes) ;;
                MdFormatter._format_contributor_section MdFormatter.methods
                  self (MdFormatter.authors self) (MdFormatter.reviewers self) ;;
                MdFormatter._format_outro self) st
               = mk_outcome (Raise e) l st
               /\ l = (("# " ++ title ++ PyStr.nl)%string :: PyStr.nl
                       :: block_lines intro)%list)
      as (l & El & ->) by exact El.
    eexists. split.
    - eapply run_bind; [reflexivity|].
      eapply run_bind; [reflexivity|].
      eapply run_bind; [reflexivity|].
      eapply run_bind;
        [apply (format_block_emits self (MdFormatter.intro_template self)
                  intro Hi)|].
      unfold bind at 1. cbv zeta. rewrite !Hn. reflexivity.
    - cbn. now rewrite app_nil_r. }
  split; [apply Hn|]. split; [exact Hl|].
  unfold MdFormatter.document. cbv zeta. rewrite !Hl. reflexivity.
Qed.

Lemma bad_pattern_stops_after_intro_witness :
  MdFormatter.iter_lines MdFormatter.methods Cases.bad_formatter []
  = mk_outcome (Raise (re_error "("))
      [ "# changelist 1.0" ++ PyStr.nl; PyStr.nl; "Intro" ++ PyStr.nl ]
      [].
Proof.
  apply (bad_pattern_stops_after_intro Cases.bad_formatter "changelist 1.0"
           "Intro" [("^bug", "Bug Fixes")] [("[", "Broken too")]
           "(" "Broken" (re_error "(")).
  - reflexivity.
  - reflexivity.
  - reflexivity.
  - intros p t [E | []]. inversion E; subst. eexists. reflexivity.
  - reflexivity.
Defined.

(** ** Sorting is stable *)

Section Stable.
Context {A K : Type} (leb : K -> K -> bool) (key : A -> K).
Hypothesis leb_refl : forall a, leb a a = true.
Variable same : K -> K -> bool.
Hypothesis same_eq : forall a b, same a b = true <-> a = b.

Lemma insert_sorted_stable k x l :
  filter (fun y => same (key y) k) (insert_sorted leb key x l)
  = filter (fun y => same (key y) k) (x :: l).
Proof.
  induction l as [|y r IH]; [reflexivity|].
  cbn [insert_sorted]. destruct (leb (key x) (key y)) eqn:E; [reflexivity|].
  cbn [filter] in *. rewrite IH.
  destruct (same (key x) k) eqn:Ex; [|reflexivity].
  destruct (same (key y) k) eqn:Ey; [|reflexivity].
  apply same_eq in Ex, Ey. rewrite Ex, Ey, leb_refl in E. discriminate.
Qed.

Lemma sorted_stable k l :
  filter (fun y => same (key y) k) (sorted leb key l)
  = filter (fun y => same (key y) k) l.
Proof.
  induction l as [|x r IH]; [reflexivity|].
  cbn [sorted fold_right]. fold (sorted leb key r).
  rewrite insert_sorted_stable. cbn [filter]. now rewrite IH.
Qed.

End Stable.

(** The same for the contributor lists: the lines that are equal up to
    case keep the order in which the set of contributors is iterated. *)
Lemma equal_lines_keep_set_order `{Runtime} cls (users : list NamedUser.t)
  (k : string) :
  filter (fun line => String.eqb (PyStr.lower line) k)
    (MdFormatter.user_lines cls users)
  = filter (fun line => String.eqb (PyStr.lower line) k)
      (map (MdFormatter._format_user_line cls) (set_iter users)).
Proof.
  unfold MdFormatter.user_lines.
  apply (sorted_stable String.leb PyStr.lower); [|apply String.eqb_eq].
  intros a. destruct (String.leb_total a a); assumption.
Qed.

(** ** Sanitization *)

Lemma collapse_newlines_id s :
  PyStr.forallb (fun c => negb (Ascii.eqb c PyStr.LF)) s = true ->
  collapse_newlines s = s.
Proof.
  induction s as [| c | c d r IHr IHd] using string_ind2.
  - reflexivity.
  - cbn [PyStr.forallb collapse_newlines].
    destruct (Ascii.eqb c PyStr.LF); [discriminate | reflexivity].
  - intros Hs.
    change (PyStr.forallb (fun c => negb (Ascii.eqb c PyStr.LF))
              (String c (String d r)))
      with (negb (Ascii.eqb c PyStr.LF)
            && PyStr.forallb (fun c => negb (Ascii.eqb c PyStr.LF))
                 (String d r)) in Hs.
    apply andb_true_iff in Hs. destruct Hs as [Hc Hd].
    specialize (IHd Hd).
    change (collapse_newlines (String c (String d r)))
      with (if Ascii.eqb c PyStr.LF
            then String " " (collapse_newlines (String d r))
            else if Ascii.eqb c PyStr.CR && Ascii.eqb d PyStr.LF
                 then String " " (collapse_newlines r)
                 else String c (collapse_newlines (String d r))).
    destruct (Ascii.eqb c PyStr.LF); [discriminate|].
    cbn [PyStr.forallb] in Hd. apply andb_true_iff in Hd.
    destruct Hd as [Hd _].
    destruct (Ascii.eqb d PyStr.LF); [discriminate|].
    rewrite andb_false_r. now rewrite IHd.
Qed.

Lemma first_md_sanitize text c :
  PyStr.first (MdFormatter.sanitize_text text) = Some c ->
  PyStr.isspace c = false.
Proof.
  rewrite md_sanitize_text. intros Hc.
  destruct (PyStr.first (PyStr.strip text)) as [d|] eqn:Ed.
  - pose proof (first_strip _ _ Ed) as Hd.
    rewrite (first_collapse_newlines _ _ Ed Hd) in Hc.
    inversion Hc; subst. exact Hd.
  - destruct (PyStr.strip text); discriminate.
Qed.

Lemma last_md_sanitize text c :
  PyStr.last (MdFormatter.sanitize_text text) = Some c ->
  PyStr.isspace c = false.
Proof.
  rewrite md_sanitize_text. intros Hc.
  destruct (PyStr.last (PyStr.strip text)) as [d|] eqn:Ed.
  - pose proof (last_strip _ _ Ed) as Hd.
    rewrite (last_collapse_newlines _ _ Ed Hd) in Hc.
    inversion Hc; subst. exact Hd.
  - rewrite (last_none _ Ed) in Hc. discriminate.
Qed.

(** X9: Markdown sanitization is idempotent: a sanitized text has no white
    space at its ends and no LF, so sanitizing it again changes nothing. *)
Theorem md_sanitize_text_idempotent (text : string) :
  MdFormatter.sanitize_text (MdFormatter.sanitize_text text)
  = MdFormatter.sanitize_text text.
Proof.
  rewrite (md_sanitize_text (MdFormatter.sanitize_text text)).
  rewrite (strip_id (MdFormatter.sanitize_text text));
    [|apply first_md_sanitize | apply last_md_sanitize].
  apply collapse_newlines_id. rewrite md_sanitize_text.
  apply collapse_newlines_no_LF.
Qed.

Lemma prefix_one a c r :
  prefix (String a "") (String c r) = Ascii.eqb c a.
Proof.
  cbn [prefix]. destruct (ascii_dec a c) as [<-|Hc].
  - rewrite Ascii.eqb_refl. now destruct r.
  - destruct (Ascii.eqb_spec c a); [congruence | reflexivity].
Qed.

Lemma prefix_two a b c d r :
  prefix (String a (String b "")) (String c (String d r))
  = Ascii.eqb c a && Ascii.eqb d b.
Proof.
  cbn [prefix]. destruct (ascii_dec a c) as [<-|Hc].
  - rewrite Ascii.eqb_refl. destruct (ascii_dec b d) as [<-|Hd].
    + rewrite Ascii.eqb_refl. now destruct r.
    + destruct (Ascii.eqb_spec d b); [congruence | reflexivity].
  - destruct (Ascii.eqb_spec c a); [congruence | reflexivity].
Qed.

Lemma prefix_other a s c r :
  Ascii.eqb c a = false -> prefix (String a s) (String c r) = false.
Proof.
  intros Hc. cbn [prefix]. destruct (ascii_dec a c) as [<-|_]; [|reflexivity].
  rewrite Ascii.eqb_refl in Hc. discriminate.
Qed.

(** Doubling the back quotes, one character at a time. *)
Lemma double_backquote_cons c r :
  PyStr.replace_from "`" "``" 0 (String c r)
  = if Ascii.eqb c "`"
    then String "`" (String "`" (PyStr.replace_from "`" "``" 0 r))
    else String c (PyStr.replace_from "`" "``" 0 r).
Proof.
  cbn [PyStr.replace_from]. rewrite prefix_one.
  now destruct (Ascii.eqb c "`").
Qed.

Lemma undouble_backquote s :
  PyStr.replace "``" "`" (PyStr.replace "`" "``" s) = s.
Proof.
  unfold PyStr.replace. induction s as [|c r IH]; [reflexivity|].
  rewrite double_backquote_cons. destruct (Ascii.eqb c "`") eqn:E.
  - apply Ascii.eqb_eq in E. subst c.
    change (PyStr.replace_from "``" "`" 0
              (String "`" (String "`" (PyStr.replace_from "`" "``" 0 r))))
      with (if prefix "``"
                 (String "`" (String "`" (PyStr.replace_from "`" "``" 0 r)))
            then ("`" ++ PyStr.replace_from "``" "`" 0
                           (PyStr.replace_from "`" "``" 0 r))%string
            else String "`"
                   (PyStr.replace_from "``" "`" 0
                      (String "`" (PyStr.replace_from "`" "``" 0 r)))).
    rewrite prefix_two. cbn [Ascii.eqb Bool.eqb andb append]. now rewrite IH.
  - cbn [PyStr.replace_from]. rewrite (prefix_other _ _ _ _ E). now rewrite IH.
Qed.

Lemma double_backquote_id s :
  PyStr.forallb (fun c => negb (Ascii.eqb c "`")) s = true ->
  PyStr.replace "`" "``" s = s.
Proof.
  unfold PyStr.replace. induction s as [|c r IH]; [reflexivity|].
  cbn [PyStr.forallb]. intros Hs. apply andb_true_iff in Hs.
  destruct Hs as [Hc Hr]. rewrite double_backquote_cons.
  destruct (Ascii.eqb c "`"); [discriminate|]. now rewrite (IH Hr).
Qed.

(** X10: the reStructuredText sanitization only adds to the Markdown one
    the doubling of the back quotes: turning the doubled back quotes into
    single ones gives the Markdown text back, and a text whose Markdown
    sanitization has no back quote is sanitized alike by both. *)
Theorem rst_sanitize_text_undone (text : string) :
  PyStr.replace "``" "`" (RstFormatter.sanitize_text text)
  = MdFormatter.sanitize_text text
  /\ (PyStr.forallb (fun c => negb (Ascii.eqb c "`"))
        (MdFormatter.sanitize_text text) = true ->
      RstFormatter.sanitize_text text = MdFormatter.sanitize_text text).
Proof.
  unfold RstFormatter.sanitize_text. split.
  - apply undouble_backquote.
  - apply double_backquote_id.
Qed.

Lemma rst_sanitize_text_undone_witness :
  RstFormatter.sanitize_text (" Add x. " ++ PyStr.nl)
  = MdFormatter.sanitize_text (" Add x. " ++ PyStr.nl).
Proof.
  apply (rst_sanitize_text_undone (" Add x. " ++ PyStr.nl)).
  vm_compute. reflexivity.
Defined.

(** ** reStructuredText headings and documents *)

Lemma repeat_char_length c n :
  String.length (PyStr.repeat (String c "") n) = n.
Proof. induction n as [|n IH]; [reflexivity|]. simpl. now rewrite IH. Qed.

Lemma repeat_char_all c n :
  PyStr.forallb (Ascii.eqb c) (PyStr.repeat (String c "") n) = true.
Proof.
  induction n as [|n IH]; [reflexivity|].
  simpl. now rewrite Ascii.eqb_refl, IH.
Qed.

Lemma rst_title_emits title level c :
  RstFormatter.underline level = Ok (String c "") ->
  emits (RstFormatter.format_section_title title level) tt
    (rst_heading title (String c "")).
Proof.
  intros Hu st. unfold RstFormatter.format_section_title. rewrite Hu.
  reflexivity.
Qed.

(** X11: a reStructuredText heading of level 1, 2 or 3 is the title line
    and an underline of [=], [-] or [~] that is exactly as long as the
    title; at any other level the title line is yielded and then the
    lookup of the underline raises [KeyError]. *)
Theorem rst_heading_underlined (title : string) (level : Z) :
  (forall c,
      In (level, c) [(1%Z, "="%char); (2%Z, "-"%char); (3%Z, "~"%char)] ->
      exists line,
        emits (RstFormatter.format_section_title title level) tt
          [title ++ PyStr.nl; line ++ PyStr.nl]
        /\ String.length line = String.length title
        /\ PyStr.forallb (Ascii.eqb c) line = true)
  /\ ((level < 1 \/ 3 < level)%Z ->
      forall st,
        RstFormatter.format_section_title title level st
        = mk_outcome (Raise (KeyError (PyStr.of_int level)))
            [title ++ PyStr.nl] st).
Proof.
  split.
  - intros c Hc.
    exists (PyStr.repeat (String c "") (String.length title)).
    split; [|split; [apply repeat_char_length | apply repeat_char_all]].
    apply (rst_title_emits title level c).
    destruct Hc as [E | [E | [E | []]]]; inversion E; reflexivity.
  - intros Hl st. unfold RstFormatter.format_section_title.
    assert (Hu : RstFormatter.underline level
                 = Raise (KeyError (PyStr.of_int level))).
    { unfold RstFormatter.underline.
      destruct level as [|p|p]; [reflexivity | | reflexivity].
      destruct p as [[p|p|]|[p|p|]|]; try reflexivity; lia. }
    rewrite Hu. reflexivity.
Qed.

Lemma rst_heading_underlined_witness :
  RstFormatter.format_section_title "Bug Fixes" 4 []
  = mk_outcome (Raise (KeyError "4")) ["Bug Fixes" ++ PyStr.nl] [].
Proof.
  apply (rst_heading_underlined "Bug Fixes" 4). right. reflexivity.
Defined.

Section RstDocument.
Context `{Runtime}.
Variable self : MdFormatter.t.

Lemma rst_change_section_emits title notes :
  emits (MdFormatter._format_change_section RstFormatter.methods title notes)
    tt (rst_section_lines (title, notes)).
Proof.
  unfold MdFormatter._format_change_section, rst_section_lines.
  destruct notes as [|n r]; [apply emits_ret|].
  cbn [fst snd _format_section_title RstFormatter.methods].
  eapply emits_bind; [now apply (rst_title_emits title 2 "-")|].
  eapply (emits_bind _ _ tt [_] tt); [apply emits_yield|].
  eapply emits_bind; [|apply emits_yield].
  apply emits_map. intros x. apply change_note_emits.
Qed.

Lemma rst_contributor_section_emits authors reviewers :
  emits (MdFormatter._format_contributor_section RstFormatter.methods self
           authors reviewers) tt
    (rst_contributor_lines self authors reviewers).
Proof.
  unfold MdFormatter._format_contributor_section, rst_contributor_lines.
  cbv zeta. cbn [_format_section_title RstFormatter.methods].
  eapply emits_bind; [now apply (rst_title_emits "Contributors" 2 "-")|].
  eapply (emits_bind _ _ tt [_] tt); [apply emits_yield|].
  eapply (emits_bind _ _ tt [_] tt); [apply emits_yield|].
  eapply (emits_bind _ _ tt [_] tt); [apply emits_yield|].
  eapply emits_bind; [apply emits_yield_from|].
  eapply (emits_bind _ _ tt [_] tt); [apply emits_yield|].
  eapply (emits_bind _ _ tt [_] tt); [apply emits_yield|].
  eapply (emits_bind _ _ tt [_] tt); [apply emits_yield|].
  eapply emits_bind; [apply emits_yield_from|].
  apply emits_yield.
Qed.

Lemma rst_sections_emit (nbs : odict (list ChangeNote.t)) :
  emits
    (for_each nbs
       (fun '(title, notes) =>
          MdFormatter._format_change_section RstFormatter.methods title notes))
    tt (flat_map rst_section_lines nbs).
Proof.
  apply emits_for_each. intros [title notes] _. apply rst_change_section_emits.
Qed.

End RstDocument.

(** X12: a reStructuredText traversal never asks for a heading level
    without underline: when the three templates format and the patterns
    compile, it runs to its end and yields the title underlined with [=],
    the intro block, the non-empty sections and the contributor section
    with their headings underlined with [-], and the outro block; the
    buckets and the log are those of classification. *)
Theorem rst_traversal_completes `{Runtime} (self : MdFormatter.t)
  (title intro outro : string) (compiled : list (Pattern * string)) :
  str_format (MdFormatter.title_template self) (MdFormatter.repo_name self)
    (MdFormatter.version self) = Ok title ->
  str_format (MdFormatter.intro_template self) (MdFormatter.repo_name self)
    (MdFormatter.version self) = Ok intro ->
  str_format (MdFormatter.outro_template self) (MdFormatter.repo_name self)
    (MdFormatter.version self) = Ok outro ->
  MdFormatter.compile_map self = Ok compiled ->
  exists nbs,
    (forall st,
        MdFormatter._notes_by_section self st
        = mk_outcome (Ok nbs) [] (st ++ classifier_warnings self))
    /\ forall st,
        MdFormatter.iter_lines RstFormatter.methods self st
        = mk_outcome (Ok tt)
            (rst_heading title "="
             ++ [PyStr.nl]
             ++ block_lines intro
             ++ flat_map rst_section_lines nbs
             ++ rst_contributor_lines self (MdFormatter.authors self)
                  (MdFormatter.reviewers self)
             ++ block_lines outro)
            (st ++ classifier_warnings self).
Proof.
  intros Ht Hi Ho Hc.
  destruct (notes_by_section_spec self compiled Hc) as (nbs & E & _).
  exists nbs. split; [exact E|]. intros st.
  enough (exists l,
             MdFormatter.iter_lines RstFormatter.methods self st
             = mk_outcome (Ok tt) l (st ++ classifier_warnings self)
             /\ l = (rst_heading title "="
                     ++ [PyStr.nl]
                     ++ block_lines intro
                     ++ flat_map rst_section_lines nbs
                     ++ rst_contributor_lines self (MdFormatter.authors self)
                          (MdFormatter.reviewers self)
                     ++ block_lines outro)%list)
    as (l & Hl & ->) by exact Hl.
  eexists. split.
  - unfold MdFormatter.iter_lines. rewrite Ht.
    eapply run_bind; [reflexivity|].
    eapply run_bind; [now apply (rst_title_emits title 1 "=")|].
    eapply run_bind; [reflexivity|].
    eapply run_bind;
      [apply (format_block_emits self (MdFormatter.intro_template self)
                intro Hi)|].
    eapply run_bind; [apply E|].
    eapply run_bind; [apply rst_sections_emit|].
    eapply run_bind; [apply rst_contributor_section_emits|].
    apply (format_block_emits self (MdFormatter.outro_template self) outro Ho).
  - reflexivity.
Qed.

Lemma rst_traversal_completes_witness :
  exists nbs,
    (forall st,
        MdFormatter._notes_by_section Sample.formatter st
        = mk_outcome (Ok nbs) [] (st ++ classifier_warnings Sample.formatter))
    /\ forall st,
        MdFormatter.iter_lines RstFormatter.methods Sample.formatter st
        = mk_outcome (Ok tt)
            (rst_heading "changelist 1.0" "="
             ++ [PyStr.nl]
             ++ block_lines ("Changes of 1.0." ++ PyStr.nl ++ "")
             ++ flat_map rst_section_lines nbs
             ++ rst_contributor_lines Sample.formatter
                  (MdFormatter.authors Sample.formatter)
                  (MdFormatter.reviewers Sample.formatter)
             ++ block_lines "Thanks.")
            (st ++ classifier_warnings Sample.formatter).
Proof.
  apply (rst_traversal_completes Sample.formatter "changelist 1.0"
           ("Changes of 1.0." ++ PyStr.nl ++ "") "Thanks."
           (match MdFormatter.compile_map Sample.formatter with
            | Ok c => c
            | Raise _ => []
            end)); vm_compute; reflexivity.
Defined.

(** ** Every yielded line ends with a newline *)

Lemma ends_nl_append a b : ends_nl b -> ends_nl (a ++ b).
Proof. apply last_append. Qed.

Lemma ends_nl_nl : ends_nl PyStr.nl.
Proof. reflexivity. Qed.

Lemma yields_lines_ret {A} (a : A) : yields_lines (ret a).
Proof. intros st. constructor. Qed.

Lemma yields_lines_raise {A} e : yields_lines (@raise A e).
Proof. intros st. constructor. Qed.

Lemma yields_lines_lift {A} (r : result A) : yields_lines (lift r).
Proof. destruct r; [apply yields_lines_ret | apply yields_lines_raise]. Qed.

Lemma yields_lines_logger lvl fmt arg : yields_lines (logger lvl fmt arg).
Proof. intros st. constructor. Qed.

Lemma yields_lines_yield line : ends_nl line -> yields_lines (yield line).
Proof. intros Hl st. repeat constructor. exact Hl. Qed.

Lemma yields_lines_bind {A B} (m : Py A) (f : A -> Py B) :
  yields_lines m -> (forall a, yields_lines (f a)) -> yields_lines (bind m f).
Proof.
  intros Hm Hf st. unfold bind. cbv zeta.
  destruct (res (m st)) as [a|e]; cbn [out].
  - apply Forall_app. split; [apply Hm | apply Hf].
  - apply Hm.
Qed.

Lemma yields_lines_for_each {A} (body : A -> Py unit) xs :
  (forall x, yields_lines (body x)) -> yields_lines (for_each xs body).
Proof.
  intros Hb. induction xs as [|x r IH]; simpl.
  - apply yields_lines_ret.
  - apply yields_lines_bind; auto.
Qed.

Lemma yields_lines_for_fold {A S} (body : S -> A -> Py S) xs :
  (forall acc x, yields_lines (body acc x)) ->
  forall acc, yields_lines (for_fold xs body acc).
Proof.
  intros Hb. induction xs as [|x r IH]; intros acc; simpl.
  - apply yields_lines_ret.
  - apply yields_lines_bind; auto.
Qed.

Lemma yields_lines_yield_from lines :
  Forall ends_nl lines -> yields_lines (yield_from lines).
Proof.
  intros Hl st. rewrite emits_yield_from. exact Hl.
Qed.

Section LinesEnd.
Context `{Runtime}.
Variable self : MdFormatter.t.

Lemma yields_lines_bucket_add section_name note d :
  yields_lines (MdFormatter.bucket_add section_name note d).
Proof.
  unfold MdFormatter.bucket_add. destruct (od_get section_name d);
    [apply yields_lines_ret | apply yields_lines_raise].
Qed.

Lemma yields_lines_notes_by_section :
  yields_lines (MdFormatter._notes_by_section self).
Proof.
  unfold MdFormatter._notes_by_section, MdFormatter.classify_note.
  apply yields_lines_bind; [apply yields_lines_lift|]. intros compiled.
  apply yields_lines_for_fold. intros d note.
  apply yields_lines_bind.
  - apply yields_lines_for_fold. intros d' s. apply yields_lines_bucket_add.
  - intros d'. destruct (MdFormatter.matching_sections compiled note).
    + apply yields_lines_bind; [apply yields_lines_logger|].
      intros _. apply yields_lines_bucket_add.
    + apply yields_lines_ret.
Qed.

Lemma yields_lines_md_title title level :
  yields_lines (MdFormatter.format_section_title title level).
Proof.
  apply yields_lines_yield. repeat apply ends_nl_append. apply ends_nl_nl.
Qed.

Lemma yields_lines_rst_title title level :
  yields_lines (RstFormatter.format_section_title title level).
Proof.
  unfold RstFormatter.format_section_title.
  apply yields_lines_bind.
  - apply yields_lines_yield, ends_nl_append, ends_nl_nl.
  - intros _. apply yields_lines_bind; [apply yields_lines_lift|].
    intros u. apply yields_lines_yield, ends_nl_append, ends_nl_nl.
Qed.

Lemma yields_lines_format_block template :
  yields_lines (MdFormatter.format_block self template).
Proof.
  unfold MdFormatter.format_block.
  apply yields_lines_bind; [apply yields_lines_lift|]. intros text.
  apply yields_lines_yield_from, Forall_forall. intros line Hl.
  apply in_map_iff in Hl. destruct Hl as (piece & <- & _).
  apply ends_nl_append, ends_nl_nl.
Qed.

Lemma user_lines_end_nl cls users :
  Forall ends_nl (MdFormatter.user_lines cls users).
Proof.
  apply Forall_forall. intros line Hl.
  eapply Permutation_in in Hl;
    [|apply Permutation_sym, (user_lines_perm cls users)].
  apply in_map_iff in Hl. destruct Hl as (u & <- & _).
  unfold MdFormatter._format_user_line.
  repeat apply ends_nl_append. apply ends_nl_nl.
Qed.

Variable cls : Methods.
Hypothesis title_lines :
  forall title level, yields_lines (_format_section_title cls title level).

Lemma yields_lines_change_section title notes :
  yields_lines (MdFormatter._format_change_section cls title notes).
Proof.
  unfold MdFormatter._format_change_section.
  destruct notes; [apply yields_lines_ret|].
  apply yields_lines_bind; [apply title_lines|]. intros _.
  apply yields_lines_bind; [apply yields_lines_yield, ends_nl_nl|]. intros _.
  apply yields_lines_bind; [|intros _; apply yields_lines_yield, ends_nl_nl].
  apply yields_lines_for_each. intros note.
  apply yields_lines_yield. repeat apply ends_nl_append. apply ends_nl_nl.
Qed.

Lemma yields_lines_contributor_section authors reviewers :
  yields_lines
    (MdFormatter._format_contributor_section cls self authors reviewers).
Proof.
  unfold MdFormatter._format_contributor_section. cbv zeta.
  repeat first
    [ apply title_lines
    | apply yields_lines_yield_from, user_lines_end_nl
    | apply yields_lines_yield; repeat apply ends_nl_append; apply ends_nl_nl
    | apply yields_lines_bind; [|intros _] ].
Qed.

Lemma yields_lines_iter_lines : yields_lines (MdFormatter.iter_lines cls self).
Proof.
  unfold MdFormatter.iter_lines, MdFormatter._format_intro,
    MdFormatter._format_outro.
  apply yields_lines_bind; [apply yields_lines_lift|]. intros title.
  apply yields_lines_bind; [apply title_lines|]. intros _.
  apply yields_lines_bind; [apply yields_lines_yield, ends_nl_nl|]. intros _.
  apply yields_lines_bind; [apply yields_lines_format_block|]. intros _.
  apply yields_lines_bind; [apply yields_lines_notes_by_section|]. intros nbs.
  apply yields_lines_bind.
  { apply yields_lines_for_each. intros [title' notes].
    apply yields_lines_change_section. }
  intros _.
  apply yields_lines_bind; [apply yields_lines_contributor_section|]. intros _.
  apply yields_lines_format_block.
Qed.

End LinesEnd.

(** X13: every string a traversal yields ends with a newline, for both
    formatters, whether the traversal runs to its end or stops at an
    exception. *)
Theorem every_line_ends_with_newline `{Runtime} (self : MdFormatter.t)
  (st : list log_record) :
  Forall (fun line => PyStr.last line = Some PyStr.LF)
    (out (MdFormatter.iter_lines MdFormatter.methods self st))
  /\ Forall (fun line => PyStr.last line = Some PyStr.LF)
       (out (MdFormatter.iter_lines RstFormatter.methods self st)).
Proof.
  split.
  - apply (yields_lines_iter_lines self MdFormatter.methods).
    apply yields_lines_md_title.
  - apply (yields_lines_iter_lines self RstFormatter.methods).
    apply yields_lines_rst_title.
Qed.

(** ** Template blocks *)

Lemma append_empty_r s : (s ++ "")%string = s.
Proof. induction s as [|c r IH]; [reflexivity|]. simpl. now rewrite IH. Qed.

Lemma append_assoc_r a b c : ((a ++ b) ++ c)%string = (a ++ b ++ c)%string.
Proof. induction a as [|x r IH]; [reflexivity|]. simpl. now rewrite IH. Qed.

Lemma forallb_append p a b :
  PyStr.forallb p (a ++ b) = PyStr.forallb p a && PyStr.forallb p b.
Proof.
  induction a as [|x r IH]; [reflexivity|].
  simpl. now rewrite IH, andb_assoc.
Qed.

Lemma split_nl_cons cur c r :
  PyStr.split_from PyStr.nl 0 cur (String c r)
  = if Ascii.eqb c PyStr.LF
    then cur :: PyStr.split_from PyStr.nl 0 "" r
    else PyStr.split_from PyStr.nl 0 (cur ++ String c "") r.
Proof. cbn [PyStr.split_from]. now rewrite prefix_nl. Qed.

Lemma split_nl_join s :
  forall cur,
    PyStr.join (map (fun line => line ++ PyStr.nl)
                  (PyStr.split_from PyStr.nl 0 cur s))
    = (cur ++ s ++ PyStr.nl)%string.
Proof.
  induction s as [|c r IH]; intros cur.
  - cbn. now rewrite append_empty_r.
  - rewrite split_nl_cons. destruct (Ascii.eqb_spec c PyStr.LF) as [->|_].
    + cbn [map PyStr.join fold_right]. fold (PyStr.join).
      change (fold_right append "" ?l) with (PyStr.join l).
      rewrite IH, append_assoc_r. reflexivity.
    + rewrite IH, append_assoc_r. reflexivity.
Qed.

Lemma split_nl_pieces s :
  forall cur,
    PyStr.forallb (fun c => negb (Ascii.eqb c PyStr.LF)) cur = true ->
    Forall (fun piece =>
              PyStr.forallb (fun c => negb (Ascii.eqb c PyStr.LF)) piece = true)
      (PyStr.split_from PyStr.nl 0 cur s).
Proof.
  induction s as [|c r IH]; intros cur Hcur.
  - repeat constructor. exact Hcur.
  - rewrite split_nl_cons. destruct (Ascii.eqb c PyStr.LF) eqn:E.
    + constructor; [exact Hcur | now apply IH].
    + apply IH. rewrite forallb_append, Hcur. cbn [PyStr.forallb andb].
      now rewrite E.
Qed.

(** X14: a template block is yielded line by line without loss: each
    yielded string is a piece of the formatted text that holds no newline,
    followed by one newline, and the strings put together are the
    formatted text followed by a newline.  If the template does not
    format, nothing is yielded. *)
Theorem block_is_split_into_lines `{Runtime} (self : MdFormatter.t)
  (template : string) :
  (forall text,
      str_format template (MdFormatter.repo_name self)
        (MdFormatter.version self) = Ok text ->
      exists pieces,
        emits (MdFormatter.format_block self template) tt
          (map (fun piece => piece ++ PyStr.nl) pieces)
        /\ Forall
             (fun piece =>
                PyStr.forallb (fun c => negb (Ascii.eqb c PyStr.LF)) piece
                = true)
             pieces
        /\ PyStr.join (map (fun piece => piece ++ PyStr.nl) pieces)
           = text ++ PyStr.nl)
  /\ (forall e,
         str_format template (MdFormatter.repo_name self)
           (MdFormatter.version self) = Raise e ->
         forall st,
           MdFormatter.format_block self template st
           = mk_outcome (Raise e) [] st).
Proof.
  split.
  - intros text Hf. exists (PyStr.split PyStr.nl text).
    split; [now apply format_block_emits|]. split.
    + now apply split_nl_pieces.
    + apply (split_nl_join text "").
  - intros e Hf st. unfold MdFormatter.format_block. rewrite Hf. reflexivity.
Qed.

Lemma block_is_split_into_lines_witness :
  exists pieces,
    emits
      (MdFormatter.format_block Sample.formatter
         ("Changes of {version}." ++ PyStr.nl ++ ""))
      tt (map (fun piece => piece ++ PyStr.nl) pieces)
    /\ Forall
         (fun piece =>
            PyStr.forallb (fun c => negb (Ascii.eqb c PyStr.LF)) piece = true)
         pieces
    /\ PyStr.join (map (fun piece => piece ++ PyStr.nl) pieces)
       = ("Changes of 1.0." ++ PyStr.nl ++ "") ++ PyStr.nl.
Proof.
  apply (block_is_split_into_lines Sample.formatter
           ("Changes of {version}." ++ PyStr.nl ++ "")).
  vm_compute. reflexivity.
Defined.

(** ** The contributor counts *)

Lemma user_lines_length `{Runtime} cls users :
  length (MdFormatter.user_lines cls users) = length users.
Proof.
  rewrite <- (Permutation_length (user_lines_perm cls users)).
  apply length_map.
Qed.

(** X15: the number a count line of the contributor section shows is the
    number of contributor lines listed under it, for both formatters. *)
Theorem counts_match_listed_lines `{Runtime} (self : MdFormatter.t)
  (authors reviewers : list NamedUser.t) :
  (exists author_lines reviewer_lines,
      emits
        (MdFormatter._format_contributor_section MdFormatter.methods self
           authors reviewers) tt
        ([ "## Contributors" ++ PyStr.nl; PyStr.nl;
           PyStr.of_len (length author_lines)
           ++ " authors added to this release (alphabetically):" ++ PyStr.nl;
           PyStr.nl ]
         ++ author_lines
         ++ [ PyStr.nl;
              PyStr.of_len (length reviewer_lines)
              ++ " reviewers added to this release (alphabetically):"
              ++ PyStr.nl;
              PyStr.nl ]
         ++ reviewer_lines
         ++ [ PyStr.nl ]))
  /\ (exists author_lines reviewer_lines,
         emits
           (MdFormatter._format_contributor_section RstFormatter.methods self
              authors reviewers) tt
           ([ "Contributors" ++ PyStr.nl; "------------" ++ PyStr.nl; PyStr.nl;
              PyStr.of_len (length author_lines)
              ++ " authors added to this release (alphabetically):"
              ++ PyStr.nl;
              PyStr.nl ]
            ++ author_lines
            ++ [ PyStr.nl;
                 PyStr.of_len (length reviewer_lines)
                 ++ " reviewers added to this release (alphabetically):"
                 ++ PyStr.nl;
                 PyStr.nl ]
            ++ reviewer_lines
            ++ [ PyStr.nl ])).
Proof.
  split.
  - exists (MdFormatter.user_lines MdFormatter.methods
              (MdFormatter.not_ignored self authors)),
      (MdFormatter.user_lines MdFormatter.methods
         (MdFormatter.not_ignored self reviewers)).
    rewrite !user_lines_length. apply contributor_section_emits.
  - exists (MdFormatter.user_lines RstFormatter.methods
              (MdFormatter.not_ignored self authors)),
      (MdFormatter.user_lines RstFormatter.methods
         (MdFormatter.not_ignored self reviewers)).
    rewrite !user_lines_length. apply rst_contributor_section_emits.
Qed.

(** ** The log of an extraction *)

Lemma logs_bind_ok {A B} (m : Py A) (f : A -> Py B) st a la st1 :
  m st = mk_outcome (Ok a) la st1 -> logs (bind m f st) = logs (f a st1).
Proof. intros Hm. unfold bind. cbv zeta. now rewrite !Hm. Qed.

Section ExtractionLog.
Context `{Runtime}.
Variable pr_summary_regex : Pattern.

Lemma matches_of_log pr st :
  ChangeNote.matches_of pr_summary_regex pr st
  = mk_outcome (Ok (the_matches pr_summary_regex pr)) []
      (st ++ fallback_logs pr_summary_regex [pr]).
Proof.
  unfold ChangeNote.matches_of, the_matches, title_match, fallback_logs,
    falls_back.
  cbn [flat_map]. rewrite app_nil_r.
  destruct (PullRequest.body pr) as [[|c b]|]; try reflexivity.
  destruct (finditer pr_summary_regex (String c b)); [reflexivity|].
  unfold ret. now rewrite app_nil_r.
Qed.

Lemma fallback_logs_cons pr prs :
  fallback_logs pr_summary_regex (pr :: prs)
  = (fallback_logs pr_summary_regex [pr]
     ++ fallback_logs pr_summary_regex prs)%list.
Proof. unfold fallback_logs. cbn [flat_map]. now rewrite app_nil_r. Qed.

Lemma outer_loop_log prs :
  (forall pr m,
      In pr prs -> In m (the_matches pr_summary_regex pr) -> summary m <> None) ->
  forall notes st,
    logs (for_fold prs
            (fun notes pr =>
               matches <- ChangeNote.matches_of pr_summary_regex pr ;;
               for_fold matches
                 (fun notes m =>
                    n <- lift (ChangeNote.of_match pr m) ;;
                    ret (ChangeNote.set_add n notes))
                 notes)
            notes st)
    = (st ++ fallback_logs pr_summary_regex prs)%list.
Proof.
  induction prs as [|pr r IH]; intros Hs notes st.
  - cbn. now rewrite app_nil_r.
  - destruct (notes_of_matches pr (the_matches pr_summary_regex pr)
                (fun m Hm => Hs pr m (or_introl eq_refl) Hm) notes)
      as (n1 & E1 & _).
    cbn [for_fold]. erewrite logs_bind_ok.
    2:{ change (@nil string) with ([] ++ @nil string)%list.
        eapply run_bind; [apply matches_of_log | apply E1]. }
    rewrite IH; [|intros pr' m Hp Hm; apply (Hs pr' m); [now right | exact Hm]].
    rewrite (fallback_logs_cons pr r). now rewrite app_assoc.
Qed.

End ExtractionLog.

(** X16: a successful extraction logs one debug record, with the URL of
    the request, for each pull request it visits whose body is missing,
    empty or without a match of the pattern, in the order of the visit, and
    nothing else. *)
Theorem one_debug_record_per_fallback `{Runtime}
  (pull_requests : list PullRequest.t) (pr_summary_regex : Pattern) :
  (forall pr m,
      In pr pull_requests -> In m (the_matches pr_summary_regex pr) ->
      summary m <> None) ->
  forall st,
    logs (ChangeNote.from_pull_requests pull_requests pr_summary_regex st)
    = (st
       ++ flat_map
            (fun pr =>
               if falls_back pr_summary_regex pr
               then [mk_log DEBUG "falling back to title for %s"
                       (PullRequest.html_url pr)]
               else [])
            (set_iter pull_requests))%list.
Proof.
  intros Hs st. unfold ChangeNote.from_pull_requests.
  apply outer_loop_log. intros pr m Hp Hm. apply (Hs pr m); [|exact Hm].
  eapply Permutation_in; [apply Permutation_sym, set_iter_perm | exact Hp].
Qed.

Lemma one_debug_record_per_fallback_witness :
  logs (ChangeNote.from_pull_requests
          [Sample.pr_blank; Sample.pr_two_notes; Sample.pr_empty_label]
          Sample.summary_regex [])
  = [mk_log DEBUG "falling back to title for %s" "https://example.org/pull/12"].
Proof.
  refine (one_debug_record_per_fallback
            [Sample.pr_blank; Sample.pr_two_notes; Sample.pr_empty_label]
            Sample.summary_regex _ []).
  intros pr m [<- | [<- | [<- | []]]] Hm; vm_compute in Hm;
    repeat (destruct Hm as [<- | Hm]; [discriminate|]); destruct Hm.
Defined.

(** ** Empty inputs *)

Lemma no_lines_of_empty_buckets `{Runtime} (nbs : odict (list ChangeNote.t)) :
  (forall title bucket, In (title, bucket) nbs -> bucket = []) ->
  flat_map md_section_lines nbs = [].
Proof.
  induction nbs as [|[t b] r IH]; intros Hb; [reflexivity|].
  cbn [flat_map]. rewrite (Hb t b (or_introl eq_refl)).
  rewrite IH; [reflexivity|]. intros t' b' Hin. apply (Hb t' b'). now right.
Qed.

(** X17: without change notes the document has no change section, not
    even the heading of one: it is the title, the intro block, the
    contributor section and the outro block, and nothing is logged. *)
Theorem no_notes_no_change_section `{Runtime} (self : MdFormatter.t)
  (title intro outro : string) (compiled : list (Pattern * string)) :
  MdFormatter.change_notes self = [] ->
  str_format (MdFormatter.title_template self) (MdFormatter.repo_name self)
    (MdFormatter.version self) = Ok title ->
  str_format (MdFormatter.intro_template self) (MdFormatter.repo_name self)
    (MdFormatter.version self) = Ok intro ->
  str_format (MdFormatter.outro_template self) (MdFormatter.repo_name self)
    (MdFormatter.version self) = Ok outro ->
  MdFormatter.compile_map self = Ok compiled ->
  forall st,
    MdFormatter.iter_lines MdFormatter.methods self st
    = mk_outcome (Ok tt)
        (("# " ++ title ++ PyStr.nl)%string :: PyStr.nl
         :: block_lines intro
         ++ md_contributor_lines self (MdFormatter.authors self)
              (MdFormatter.reviewers self)
         ++ block_lines outro)
        st.
Proof.
  intros Hn Ht Hi Ho Hc st.
  destruct (notes_by_section_spec self compiled Hc) as (nbs & E & _ & _ & B).
  assert (Hw : classifier_warnings self = []).
  { unfold classifier_warnings. rewrite Hn, set_iter_nil. reflexivity. }
  rewrite (md_iter_lines_run self title intro outro nbs
             (classifier_warnings self) Ht Hi Ho E st).
  rewrite Hw, app_nil_r, no_lines_of_empty_buckets; [reflexivity|].
  intros t b Hb. destruct b as [|n b']; [reflexivity|].
  exfalso. destruct (B t (n :: b') Hb) as [_ I].
  destruct (proj1 (I n) (or_introl eq_refl)) as [Hin _].
  rewrite Hn in Hin. destruct Hin.
Qed.

(** X18: with an empty mapping there is one bucket, ["Other"]; it holds
    every change note once, and a warning is logged for each note
    visited. *)
Theorem empty_mapping_all_in_other `{Runtime} (self : MdFormatter.t) :
  MdFormatter.label_section_map self = [] ->
  exists other,
    (forall st,
        MdFormatter._notes_by_section self st
        = mk_outcome (Ok [("Other", other)]) []
            (st ++ map unmatched_warning
                     (set_iter (MdFormatter.change_notes self))))
    /\ NoDup other
    /\ forall note, In note other <-> In note (MdFormatter.change_notes self).
Proof.
  intros Hm.
  assert (Hc : MdFormatter.compile_map self = Ok []).
  { unfold MdFormatter.compile_map. now rewrite Hm. }
  destruct (notes_by_section_spec self [] Hc) as (nbs & E & K & _ & B).
  rewrite Hm in K. cbn in K.
  destruct nbs as [|[t other] [|e r]]; try discriminate.
  cbn in K. inversion K; subst t.
  assert (Hs : forall note, sections_of self note = []).
  { intros note. unfold sections_of. now rewrite Hm. }
  exists other. split; [|split].
  - intros st. rewrite E. do 2 f_equal.
    unfold classifier_warnings, warnings_of.
    induction (set_iter (MdFormatter.change_notes self)) as [|n l IH];
      [reflexivity|].
    cbn [flat_map map]. rewrite Hs, IH. reflexivity.
  - apply (B "Other" other). now left.
  - intros note. rewrite (proj2 (B "Other" other (or_introl eq_refl)) note).
    unfold belongs. rewrite Hs. intuition.
Qed.

Lemma no_notes_no_change_section_witness :
  MdFormatter.iter_lines MdFormatter.methods Cases.no_notes_formatter []
  = mk_outcome (Ok tt)
      (map (fun line => line ++ PyStr.nl)
         [ "# changelist 1.0"; ""; "Intro";
           "## Contributors"; "";
           "1 authors added to this release (alphabetically):"; "";
           "- [@bob](https://example.org/bob)"; "";
           "0 reviewers added to this release (alphabetically):"; "";
           "";
           "Thanks." ])
      [].
Proof.
  refine (no_notes_no_change_section Cases.no_notes_formatter
            "changelist 1.0" "Intro" "Thanks."
            (match MdFormatter.compile_map Cases.no_notes_formatter with
             | Ok c => c
             | Raise _ => []
             end) _ _ _ _ _ []); vm_compute; reflexivity.
Defined.

Lemma empty_mapping_all_in_other_witness :
  exists other,
    (forall st,
        MdFormatter._notes_by_section Cases.unmapped_formatter st
        = mk_outcome (Ok [("Other", other)]) []
            (st ++ map unmatched_warning
                     (set_iter
                        (MdFormatter.change_notes Cases.unmapped_formatter))))
    /\ NoDup other
    /\ forall note,
        In note other
        <-> In note (MdFormatter.change_notes Cases.unmapped_formatter).
Proof.
  apply (empty_mapping_all_in_other Cases.unmapped_formatter). reflexivity.
Defined.

(** ** Templates that do not format *)

(** X19: a title template that does not format stops a traversal before
    anything is yielded; an intro template that does not format stops it
    after the title heading and the blank line under it, before the notes
    are classified. *)
Theorem bad_template_stops_traversal `{Runtime} (self : MdFormatter.t)
  (e : exn) :
  (str_format (MdFormatter.title_template self) (MdFormatter.repo_name self)
     (MdFormatter.version self) = Raise e ->
   forall cls st,
     MdFormatter.iter_lines cls self st = mk_outcome (Raise e) [] st)
  /\ (forall title,
         str_format (MdFormatter.title_template self)
           (MdFormatter.repo_name self) (MdFormatter.version self) = Ok title ->
         str_format (MdFormatter.intro_template self)
           (MdFormatter.repo_name self) (MdFormatter.version self) = Raise e ->
         forall st,
           MdFormatter.iter_lines MdFormatter.methods self st
           = mk_outcome (Raise e)
               [("# " ++ title ++ PyStr.nl)%string; PyStr.nl] st).
Proof.
  split.
  - intros Ht cls st. unfold MdFormatter.iter_lines. rewrite Ht. reflexivity.
  - intros title Ht Hi st.
    unfold MdFormatter.iter_lines, MdFormatter._format_intro,
      MdFormatter.format_block.
    rewrite Ht, Hi. reflexivity.
Qed.

Lemma bad_template_stops_traversal_witness :
  MdFormatter.iter_lines MdFormatter.methods Cases.bad_intro_formatter []
  = mk_outcome (Raise (FormatError "{release}"))
      [ "# changelist 1.0" ++ PyStr.nl; PyStr.nl ] [].
Proof.
  apply (bad_template_stops_traversal Cases.bad_intro_formatter
           (FormatError "{release}")); reflexivity.
Defined.

(** ** Matching up to case at the start of a label *)

Lemma lower_append a b :
  PyStr.lower (a ++ b) = (PyStr.lower a ++ PyStr.lower b)%string.
Proof. induction a as [|c r IH]; [reflexivity|]. simpl. now rewrite IH. Qed.

Lemma prefix_lower_iff t s :
  prefix (PyStr.lower t) (PyStr.lower s) = true
  <-> exists u rest, s = (u ++ rest)%string /\ PyStr.lower u = PyStr.lower t.
Proof.
  revert s. induction t as [|c t IH]; intros s.
  - split.
    + intros _. exists "", s. auto.
    + intros _. now destruct s.
  - destruct s as [|d s'].
    + split; [discriminate|].
      intros (u & rest & E & Hl). destruct u; discriminate.
    + cbn [PyStr.lower prefix].
      destruct (ascii_dec (PyStr.lower_char c) (PyStr.lower_char d))
        as [Hcd|Hcd].
      * rewrite IH. split.
        -- intros (u & rest & -> & Hl). exists (String d u), rest.
           split; [reflexivity|]. cbn [PyStr.lower]. now rewrite Hl, Hcd.
        -- intros (u & rest & E & Hl). destruct u as [|e u]; [discriminate|].
           cbn [append] in E. inversion E; subst e s'.
           cbn [PyStr.lower] in Hl. inversion Hl. eauto.
      * split; [discriminate|].
        intros (u & rest & E & Hl). destruct u as [|e u]; [discriminate|].
        cbn [append] in E. inversion E; subst e.
        cbn [PyStr.lower] in Hl. inversion Hl. congruence.
Qed.

(** The sample runtime matches its patterns as [re] does. *)
Lemma sample_conforms pattern :
  PyStr.forallb Sample.is_word_char (Cases.literal_text pattern) = true ->
  @ignorecase_match_conforms Sample.runtime (Cases.literal pattern) pattern.
Proof.
  intros Hw.
  assert (Hc : exists regex,
             Sample.compile pattern [IGNORECASE] = Ok regex
             /\ forall s,
                 match_ regex s
                 = if prefix (PyStr.lower (Cases.literal_text pattern))
                        (PyStr.lower s)
                   then Some (mk_match None None) else None).
  { unfold Sample.compile. fold (Cases.literal_text pattern). rewrite Hw.
    eexists. split; reflexivity. }
  destruct Hc as (regex & Ec & Em). exists regex. split; [exact Ec|].
  intros s. rewrite Em. unfold caseless_prefix, Cases.literal.
  pose proof (prefix_lower_iff (Cases.literal_text pattern) s) as Hp.
  destruct (prefix _ _).
  - split; [|discriminate]. intros _.
    destruct (proj1 Hp eq_refl) as (u & rest & E & Hl).
    exists u, rest, (Cases.literal_text pattern). auto.
  - split; [congruence|]. intros (u & rest & v & E & -> & Hl).
    exfalso. assert (false = true); [|discriminate].
    apply Hp. eauto.
Qed.

Section CaselessMatching.
Context `{Runtime}.
Variable self : MdFormatter.t.
Variable lang : string -> string -> Prop.
Hypothesis conforms :
  forall pattern title,
    In (pattern, title) (MdFormatter.label_section_map self) ->
    ignorecase_match_conforms (lang pattern) pattern.

Lemma compile_map_ok : exists compiled, MdFormatter.compile_map self = Ok compiled.
Proof.
  unfold MdFormatter.compile_map. revert conforms.
  induction (MdFormatter.label_section_map self) as [|[p t] r IH];
    intros Hc; simpl.
  - eauto.
  - destruct (Hc p t (or_introl eq_refl)) as (regex & -> & _).
    destruct IH as (c & ->); [|eauto].
    intros p' t' Hin. apply (Hc p' t'). now right.
Qed.

Lemma note_matches_caseless pattern title note :
  In (pattern, title) (MdFormatter.label_section_map self) ->
  note_matches pattern note = true
  <-> exists l,
        In l (ChangeNote.labels note) /\ caseless_prefix (lang pattern) l.
Proof.
  intros Hin. destruct (conforms pattern title Hin) as (regex & Ec & Em).
  rewrite note_matches_iff. split.
  - intros (regex' & l & Ec' & Hl & Hm).
    assert (regex' = regex) by congruence. subst regex'.
    exists l. split; [assumption|]. now apply Em.
  - intros (l & Hl & Hm). exists regex, l.
    split; [assumption|]. split; [assumption|]. now apply Em.
Qed.

Lemma belongs_caseless title note :
  belongs self title note
  <-> (exists pattern l,
          In (pattern, title) (MdFormatter.label_section_map self)
          /\ In l (ChangeNote.labels note)
          /\ caseless_prefix (lang pattern) l)
      \/ (title = "Other"
          /\ forall pattern t l,
              In (pattern, t) (MdFormatter.label_section_map self) ->
              In l (ChangeNote.labels note) ->
              ~ caseless_prefix (lang pattern) l).
Proof.
  unfold belongs. split.
  - intros [Ht | [Hs ->]].
    + left. apply sections_of_In_inv in Ht. destruct Ht as (p & Hin & Hm).
      apply (note_matches_caseless p title note Hin) in Hm.
      destruct Hm as (l & Hl & Hc). exists p, l. auto.
    + right. split; [reflexivity|]. intros p t l Hin Hl Hc.
      pose proof (sections_of_nil_inv self note Hs p t Hin) as Hf.
      assert (Ht : note_matches p note = true)
        by (apply (note_matches_caseless p t note Hin); eauto).
      congruence.
  - intros [(p & l & Hin & Hl & Hc) | [-> Hno]].
    + left. apply (sections_of_In self p title note Hin).
      apply (note_matches_caseless p title note Hin). eauto.
    + right. split; [|reflexivity]. apply sections_of_nil.
      intros p t Hin. destruct (note_matches p note) eqn:E; [|reflexivity].
      apply (note_matches_caseless p t note Hin) in E.
      destruct E as (l & Hl & Hc). exfalso. exact (Hno p t l Hin Hl Hc).
Qed.

End CaselessMatching.

(** C5: when the patterns of the mapping are compiled with [IGNORECASE]
    and [match] behaves as [re] documents it, a note is in the bucket of a
    title exactly when it is a change note and one of its labels starts,
    up to case, with a string that a pattern mapped to that title matches
    (the rest of the label does not matter), or when the title is
    ["Other"] and no label does so for any pattern.  So a note is in the
    bucket of every section whose pattern matches it; every configured
    title has its bucket, and no bucket holds a note twice. *)
Theorem matching_sections_get_the_note `{Runtime} (self : MdFormatter.t)
  (lang : string -> string -> Prop) :
  (forall pattern title,
      In (pattern, title) (MdFormatter.label_section_map self) ->
      ignorecase_match_conforms (lang pattern) pattern) ->
  exists nbs,
    (forall st,
        MdFormatter._notes_by_section self st
        = mk_outcome (Ok nbs) [] (st ++ classifier_warnings self))
    /\ (forall pattern title,
           In (pattern, title) (MdFormatter.label_section_map self) ->
           exists bucket, In (title, bucket) nbs)
    /\ forall title bucket,
        In (title, bucket) nbs ->
        NoDup bucket
        /\ forall note,
            In note bucket
            <-> In note (MdFormatter.change_notes self)
                /\ ((exists pattern l,
                        In (pattern, title) (MdFormatter.label_section_map self)
                        /\ In l (ChangeNote.labels note)
                        /\ caseless_prefix (lang pattern) l)
                    \/ (title = "Other"
                        /\ forall pattern t l,
                            In (pattern, t)
                              (MdFormatter.label_section_map self) ->
                            In l (ChangeNote.labels note) ->
                            ~ caseless_prefix (lang pattern) l)).
Proof.
  intros Hconf.
  destruct (compile_map_ok self lang Hconf) as (compiled & Hc).
  destruct (notes_by_section_spec self compiled Hc) as (nbs & E & K & N & B).
  exists nbs. split; [exact E|]. split.
  - intros pattern title Hin. apply od_entry.
    rewrite K, <- empty_sections_keys. apply empty_sections_has. left.
    apply in_map_iff. now exists (pattern, title).
  - intros title bucket Hb. destruct (B title bucket Hb) as [Nb I].
    split; [exact Nb|]. intros note.
    rewrite I, (belongs_caseless self lang Hconf title note). reflexivity.
Qed.

Lemma matching_sections_get_the_note_witness :
  exists nbs,
    (forall st,
        MdFormatter._notes_by_section Sample.formatter st
        = mk_outcome (Ok nbs) [] (st ++ classifier_warnings Sample.formatter))
    /\ (forall pattern title,
           In (pattern, title) (MdFormatter.label_section_map Sample.formatter) ->
           exists bucket, In (title, bucket) nbs)
    /\ forall title bucket,
        In (title, bucket) nbs ->
        NoDup bucket
        /\ forall note,
            In note bucket
            <-> In note (MdFormatter.change_notes Sample.formatter)
                /\ ((exists pattern l,
                        In (pattern, title)
                          (MdFormatter.label_section_map Sample.formatter)
                        /\ In l (ChangeNote.labels note)
                        /\ caseless_prefix (Cases.literal pattern) l)
                    \/ (title = "Other"
                        /\ forall pattern t l,
                            In (pattern, t)
                              (MdFormatter.label_section_map Sample.formatter) ->
                            In l (ChangeNote.labels note) ->
                            ~ caseless_prefix (Cases.literal pattern) l)).
Proof.
  apply (matching_sections_get_the_note Sample.formatter Cases.literal).
  intros pattern title [E | [E | [E | []]]]; inversion E; subst;
    apply sample_conforms; reflexivity.
Defined.

(** The label [Bugfix] starts, up to case, with [bug]; the label [debug]
    holds [bug] but does not start with it; and the pattern [bugfix] does
    not need the whole label [Bugfix: parser]. *)
Example caseless_prefix_on_labels :
  caseless_prefix (Cases.literal "^bug") "Bugfix"
  /\ ~ caseless_prefix (Cases.literal "^bug") "debug"
  /\ caseless_prefix (Cases.literal "bugfix") "Bugfix: parser".
Proof.
  split; [|split].
  - exists "Bug", "fix", "bug". repeat split.
  - intros (u & rest & v & E & -> & Hl).
    assert (Hp : prefix (PyStr.lower (Cases.literal_text "^bug"))
                   (PyStr.lower "debug") = true)
      by (apply prefix_lower_iff; eauto).
    vm_compute in Hp. discriminate.
  - exists "Bugfix", ": parser", "bugfix". repeat split.
Qed.

(** ** The order of the notes that share a time stamp *)

(** X8: the lines of a change section are those of its notes in an order
    in which the time stamps do not decrease and in which the notes that
    share a time stamp come as the bucket is iterated: the sort is
    stable.  This holds for both formatters. *)
Theorem equal_timestamps_keep_bucket_order `{Runtime}
  (title : string) (notes : list ChangeNote.t) :
  notes <> [] ->
  exists rendered,
    emits (MdFormatter._format_change_section MdFormatter.methods title notes)
      tt
      ([ "## " ++ title ++ PyStr.nl; PyStr.nl ]
       ++ map (note_line MdFormatter.methods) rendered
       ++ [ PyStr.nl ])
    /\ emits
         (MdFormatter._format_change_section RstFormatter.methods title notes)
         tt
         ([ title ++ PyStr.nl;
            PyStr.repeat "-" (String.length title) ++ PyStr.nl;
            PyStr.nl ]
          ++ map (note_line RstFormatter.methods) rendered
          ++ [ PyStr.nl ])
    /\ Permutation (set_iter notes) rendered
    /\ Sorted older_le rendered
    /\ forall t,
        filter (fun n => Z.eqb (ChangeNote.timestamp n) t) rendered
        = filter (fun n => Z.eqb (ChangeNote.timestamp n) t) (set_iter notes).
Proof.
  intros Hne. exists (section_notes notes).
  split; [|split; [|split; [|split]]].
  - intros st. rewrite change_section_emits. unfold md_section_lines.
    cbn [fst snd]. destruct notes; [congruence | reflexivity].
  - intros st. rewrite rst_change_section_emits. unfold rst_section_lines.
    cbn [fst snd]. destruct notes; [congruence | reflexivity].
  - unfold section_notes. apply sorted_perm.
  - apply section_notes_sorted.
  - intros t. unfold section_notes.
    apply (sorted_stable Z.leb ChangeNote.timestamp Z.leb_refl Z.eqb Z.eqb_eq).
Qed.

Lemma equal_timestamps_keep_bucket_order_witness :
  exists rendered,
    emits
      (MdFormatter._format_change_section MdFormatter.methods "Bug Fixes"
         [Cases.note_early; Sample.note_bug; Cases.note_late])
      tt
      ([ "## " ++ "Bug Fixes" ++ PyStr.nl; PyStr.nl ]
       ++ map (note_line MdFormatter.methods) rendered
       ++ [ PyStr.nl ])
    /\ emits
         (MdFormatter._format_change_section RstFormatter.methods "Bug Fixes"
            [Cases.note_early; Sample.note_bug; Cases.note_late])
         tt
         ([ "Bug Fixes" ++ PyStr.nl;
            PyStr.repeat "-" (String.length "Bug Fixes") ++ PyStr.nl;
            PyStr.nl ]
          ++ map (note_line RstFormatter.methods) rendered
          ++ [ PyStr.nl ])
    /\ Permutation
         (set_iter [Cases.note_early; Sample.note_bug; Cases.note_late])
         rendered
    /\ Sorted older_le rendered
    /\ forall t,
        filter (fun n => Z.eqb (ChangeNote.timestamp n) t) rendered
        = filter (fun n => Z.eqb (ChangeNote.timestamp n) t)
            (set_iter [Cases.note_early; Sample.note_bug; Cases.note_late]).
Proof.
  apply (equal_timestamps_keep_bucket_order "Bug Fixes"
           [Cases.note_early; Sample.note_bug; Cases.note_late]).
  discriminate.
Defined.

(** The two notes merged at time 50 come after the one merged at time 5,
    in the order in which the set gives them. *)
Example ties_in_a_section :
  out (MdFormatter._format_change_section MdFormatter.methods "Bug Fixes"
         [Cases.note_early; Sample.note_bug; Cases.note_late] [])
  = map (fun line => line ++ PyStr.nl)
      [ "## Bug Fixes"; "";
        "- Fix a crash ([#4](https://example.org/pull/4)).";
        "- First ([#20](https://example.org/pull/20)).";
        "- Second ([#21](https://example.org/pull/21)).";
        "" ]
  /\ out (@MdFormatter._format_change_section Cases.reversing
            MdFormatter.methods "Bug Fixes"
            [Cases.note_early; Sample.note_bug; Cases.note_late] [])
     = map (fun line => line ++ PyStr.nl)
         [ "## Bug Fixes"; "";
           "- Fix a crash ([#4](https://example.org/pull/4)).";
           "- Second ([#21](https://example.org/pull/21)).";
           "- First ([#20](https://example.org/pull/20)).";
           "" ].
Proof. split; vm_compute; reflexivity. Qed.

(** ** Independence from the iteration order of sets *)





(** A list without two elements of the same key has one sorted
    arrangement. *)
Section SortedUnique.
Context {A K : Type} (leb : K -> K -> bool) (key : A -> K).
Hypothesis leb_total : forall a b, leb a b = true \/ leb b a = true.
Hypothesis leb_trans :
  forall a b c, leb a b = true -> leb b c = true -> leb a c = true.
Hypothesis leb_antisym : forall a b, leb a b = true -> leb b a = true -> a = b.



End SortedUnique.



Section TwoRuntimes.
Variables R1 R2 : Runtime.
Hypothesis same_re : @re_compile R1 = @re_compile R2.
Variable self : MdFormatter.t.











End TwoRuntimes.




(** The two orders give the sample document alike: its notes were merged
    at different times and its contributor lines differ beyond case. *)
Example sample_document_under_another_order :
  out (@MdFormatter.iter_lines Cases.rotating MdFormatter.methods
         Sample.formatter [])
  = out (@MdFormatter.iter_lines Sample.runtime MdFormatter.methods
           Sample.formatter []).
Proof. vm_compute. reflexivity. Qed.
